(** * ENSIP-25 agent-registry record verification (agent0-ts)

    A shallow embedding of [src/utils/ens-verifier.ts], of the test helper
    [encodeAgentRegistryRecord] and of [Agent.verifyENSName], together with
    the functions of the [ethers] package (v6) they call; then of the
    endpoint setters and getters of [src/core/agent.ts], of [Agent.transfer]
    and of the identity registry lookup of [src/core/sdk.ts].

    Conventions.
    - A JavaScript string is a [string]: a sequence of code units, here
      restricted to the code units below 256.
    - A [bigint] and a number are a [Z] ([NaN] apart); a [Uint8Array] is a
      [list Z] of bytes.
    - A call that may throw returns a [result]; the exception is data. *)

From Stdlib Require Import ZArith NArith List String Ascii Bool Lia.
From stdpp Require Import base option list strings gmap.

Import ListNotations.
Local Open Scope string_scope.
Local Open Scope list_scope.

(** ** Keccak-256, as used by [ethers.keccak256] *)

Module Keccak.
Local Open Scope N_scope.

Definition mask64 : N := N.ones 64.

Definition rotl64 (x n : N) : N :=
  N.land (N.lor (N.shiftl x n) (N.shiftr x (64 - n))) mask64.

Definition lane (st : list N) (x y : nat) : N :=
  nth (x mod 5 + 5 * (y mod 5))%nat st 0.

Definition rotation_offsets : list N :=
  [  0;  1; 62; 28; 27;
    36; 44;  6; 55; 20;
     3; 10; 43; 25; 39;
    41; 45; 15; 21;  8;
    18;  2; 61; 56; 14 ].

Definition round_constants : list N :=
  [ 0x0000000000000001; 0x0000000000008082; 0x800000000000808A;
    0x8000000080008000; 0x000000000000808B; 0x0000000080000001;
    0x8000000080008081; 0x8000000000008009; 0x000000000000008A;
    0x0000000000000088; 0x0000000080008009; 0x000000008000000A;
    0x000000008000808B; 0x800000000000008B; 0x8000000000008089;
    0x8000000000008003; 0x8000000000008002; 0x8000000000000080;
    0x000000000000800A; 0x800000008000000A; 0x8000000080008081;
    0x8000000000008080; 0x0000000080000001; 0x8000000080008008 ].

Definition grid (f : nat -> nat -> N) : list N :=
  flat_map (fun y => List.map (fun x => f x y) (seq 0 5)) (seq 0 5).

Definition theta (st : list N) : list N :=
  let c x := fold_left N.lxor (List.map (lane st x) (seq 0 5)) 0 in
  let d x := N.lxor (c (x + 4)%nat) (rotl64 (c (x + 1)%nat) 1) in
  grid (fun x y => N.lxor (lane st x y) (d x)).

Definition rho_pi (st : list N) : list N :=
  grid (fun x y =>
    let sx := ((x + 3 * y) mod 5)%nat in
    rotl64 (lane st sx x) (nth (sx + 5 * x)%nat rotation_offsets 0)).

Definition chi (st : list N) : list N :=
  grid (fun x y =>
    N.lxor (lane st x y)
      (N.land (N.lxor (lane st (x + 1)%nat y) mask64) (lane st (x + 2)%nat y))).

Definition iota (rc : N) (st : list N) : list N :=
  match st with
  | [] => []
  | a :: rest => N.lxor a rc :: rest
  end.

Definition round (st : list N) (rc : N) : list N :=
  iota rc (chi (rho_pi (theta st))).

Definition keccak_f (st : list N) : list N :=
  fold_left round round_constants st.

Fixpoint le_lane (bs : list N) : N :=
  match bs with
  | [] => 0
  | b :: rest => b + 256 * le_lane rest
  end.

Fixpoint lanes_of_bytes (n : nat) (bs : list N) : list N :=
  match n with
  | O => []
  | S n' => le_lane (firstn 8 bs) :: lanes_of_bytes n' (skipn 8 bs)
  end.

Fixpoint bytes_of_lane (k : nat) (w : N) : list N :=
  match k with
  | O => []
  | S k' => (w mod 256) :: bytes_of_lane k' (w / 256)
  end.

Definition rate : nat := 136.

(** Multi-rate padding with the original Keccak domain byte [0x01]. *)
Definition pad (msg : list N) : list N :=
  let fill := (rate - 1 - (length msg mod rate))%nat in
  match fill with
  | O => msg ++ [0x81]
  | S k => msg ++ [0x01] ++ repeat 0 k ++ [0x80]
  end.

Fixpoint xor_into (st blk : list N) : list N :=
  match st, blk with
  | s :: st', b :: blk' => N.lxor s b :: xor_into st' blk'
  | _, [] => st
  | [], _ => []
  end.

Fixpoint absorb (blocks : nat) (st : list N) (bs : list N) : list N :=
  match blocks with
  | O => st
  | S n =>
      absorb n (keccak_f (xor_into st (lanes_of_bytes 17 (firstn rate bs))))
        (skipn rate bs)
  end.

Definition keccak256 (msg : list N) : list N :=
  let p := pad msg in
  let st := absorb (length p / rate) (repeat 0 25) p in
  flat_map (bytes_of_lane 8) (firstn 4 st).

End Keccak.


(** ** Exceptions and results *)

(** What a [throw] carries.  [JsError m] is [new Error(m)]; [TypeError] is
    what the runtime raises when a method is called on a value that does not
    have it; [InvalidArgument m] is the error of ethers' [assertArgument];
    [NumericFault m] is the one of ethers' [getUint]; [SyntaxError] is the
    one of [BigInt] on text that is no integer literal; [Rejected] is any
    exception thrown by a collaborator (provider, resolver, SDK). *)
Inductive exn : Type :=
| JsError (message : string)
| TypeError
| InvalidArgument (message : string)
| NumericFault (message : string)
| SyntaxError
| Rejected.

Inductive result (A : Type) : Type :=
| Ok (a : A)
| Throw (e : exn).
Arguments Ok {A} a.
Arguments Throw {A} e.

Global Instance result_ret : MRet result := fun _ a => Ok a.
Global Instance result_bind : MBind result := fun _ _ f m =>
  match m with
  | Ok a => f a
  | Throw e => Throw e
  end.

Definition returns {A} (m : result A) : bool :=
  match m with Ok _ => true | Throw _ => false end.

(** A value handed back by a collaborator.  The declared types say
    [string | null]; at run time a test double may hand back anything, so a
    value that is neither a string nor [null]/[undefined] is kept with its
    truthiness only. *)
Inductive js_value : Type :=
| VString (s : string)
| VNull
| VOther (truthy : bool).

(** [!!v] *)
Definition truthy (v : js_value) : bool :=
  match v with
  | VString s => negb (String.eqb s "")
  | VNull => false
  | VOther b => b
  end.

(** ** JavaScript strings *)

Definition chars (s : string) : list ascii := list_ascii_of_string s.
Definition text (l : list ascii) : string := string_of_list_ascii l.

Definition code (c : ascii) : N := N_of_ascii c.

Definition in_range (lo hi : N) (c : ascii) : bool :=
  ((lo <=? code c) && (code c <=? hi))%N.

Definition is_digit : ascii -> bool := in_range 48 57.       (* [0-9] *)
Definition is_lower_af : ascii -> bool := in_range 97 102.   (* [a-f] *)
Definition is_upper_AF : ascii -> bool := in_range 65 70.    (* [A-F] *)
Definition is_lower_az : ascii -> bool := in_range 97 122.   (* [a-z] *)
Definition is_upper_AZ : ascii -> bool := in_range 65 90.    (* [A-Z] *)

(** [[0-9a-fA-F]] *)
Definition is_hex (c : ascii) : bool :=
  is_digit c || is_lower_af c || is_upper_AF c.

(** [[0-9A-Za-z]] *)
Definition is_alnum (c : ascii) : bool :=
  is_digit c || is_upper_AZ c || is_lower_az c.

(** Lower-casing of one code unit below 256: the ASCII capitals and the
    Latin-1 capitals (À..Þ except the multiplication sign). *)
Definition lower_char (c : ascii) : ascii :=
  if is_upper_AZ c
     || (in_range 192 222 c && negb (code c =? 215)%N)
  then ascii_of_N (code c + 32)
  else c.

(** Upper-casing, restricted to the ASCII letters: the sources apply
    [toUpperCase] only to text already matched against [[0-9A-Za-z]]. *)
Definition upper_char (c : ascii) : ascii :=
  if is_lower_az c then ascii_of_N (code c - 32) else c.

Definition toLowerCase (s : string) : string := text (List.map lower_char (chars s)).
Definition toUpperCase (s : string) : string := text (List.map upper_char (chars s)).

(** [s.slice(a, b)] and [s.slice(a)] for non-negative indices. *)
Definition slice (s : string) (a b : nat) : string :=
  text (take (b - a) (drop a (chars s))).
Definition slice_from (s : string) (a : nat) : string :=
  text (drop a (chars s)).

Fixpoint starts_with (p l : list ascii) : bool :=
  match p, l with
  | [], _ => true
  | c :: p', d :: l' => Ascii.eqb c d && starts_with p' l'
  | _ :: _, [] => false
  end.

Definition startsWith (s p : string) : bool := starts_with (chars p) (chars s).

(** [s.padStart(n, "0")] *)
Definition padStart0 (n : nat) (s : string) : string :=
  text (repeat "0"%char (n - String.length s) ++ chars s).

(** The white space and line terminators [parseInt] skips, below 256. *)
Definition is_white_space (c : ascii) : bool :=
  let n := code c in
  ((9 <=? n) && (n <=? 13) || (n =? 32) || (n =? 160))%N.

(** The code units [.] does not match. *)
Definition is_line_terminator (c : ascii) : bool :=
  ((code c =? 10) || (code c =? 13))%N.

(** ** Hexadecimal digits *)

Definition hex_value (c : ascii) : option Z :=
  if is_digit c then Some (Z.of_N (code c) - 48)%Z
  else if is_lower_af c then Some (Z.of_N (code c) - 87)%Z
  else if is_upper_AF c then Some (Z.of_N (code c) - 55)%Z
  else None.

(** ["0123456789abcdef"[d]] *)
Definition hex_digit (d : Z) : ascii :=
  if (d <? 10)%Z then ascii_of_N (Z.to_N d + 48) else ascii_of_N (Z.to_N d + 87).

(** Value of a run of hexadecimal digits, most significant first; a code
    unit that is no digit counts as zero (callers check the digits first). *)
Definition digits_value (l : list ascii) : Z :=
  fold_left (fun acc c => (16 * acc + default 0 (hex_value c))%Z) l 0%Z.

(** The digits of [n.toString(16)] for [n >= 0]. *)
Fixpoint digits16 (fuel : nat) (n : Z) : list ascii :=
  match fuel with
  | O => []
  | S f =>
      if (n <? 16)%Z then [hex_digit n]
      else digits16 f (n / 16)%Z ++ [hex_digit (n mod 16)%Z]
  end.

Definition toString16 (n : Z) : string :=
  text (digits16 (S (Z.to_nat (Z.log2 n))) n).

(** ** [parseInt(s, 16)] *)

Fixpoint skip_white_space (l : list ascii) : list ascii :=
  match l with
  | c :: l' => if is_white_space c then skip_white_space l' else l
  | [] => []
  end.

Fixpoint hex_run (l : list ascii) : list ascii :=
  match l with
  | c :: l' => if is_hex c then c :: hex_run l' else []
  | [] => []
  end.

(** [None] is [NaN].  The sign is read after the white space, then an
    optional [0x]/[0X], then the longest run of digits; what follows the run
    is ignored.  [-0] and [0] are the same integer. *)
Definition parseInt16 (s : string) : option Z :=
  let l := skip_white_space (chars s) in
  let '(sign, l) :=
    match l with
    | "-"%char :: l' => ((-1)%Z, l')
    | "+"%char :: l' => (1%Z, l')
    | _ => (1%Z, l)
    end in
  let l :=
    match l with
    | "0"%char :: "x"%char :: l' => l'
    | "0"%char :: "X"%char :: l' => l'
    | _ => l
    end in
  match hex_run l with
  | [] => None
  | z => Some (sign * digits_value z)%Z
  end.

(** ** Decimal digits (used by the ICAP branch of [getAddress]) *)

Definition decimal_value (l : list ascii) : Z :=
  fold_left (fun acc c => (10 * acc + (Z.of_N (code c) - 48))%Z) l 0%Z.

Fixpoint digits10 (fuel : nat) (n : Z) : list ascii :=
  match fuel with
  | O => []
  | S f =>
      if (n <? 10)%Z then [hex_digit n]
      else digits10 f (n / 10)%Z ++ [hex_digit (n mod 10)%Z]
  end.

(** [String(n)] for an integer [n >= 0]. *)
Definition toString10 (n : Z) : string :=
  text (digits10 (S (Z.to_nat (Z.log2 n))) n).

(** ** The functions of ethers (v6) the sources call *)

Module ethers.

(** [getBytes(value)] on a string: even length and [/^0x[0-9a-f]*$/i], then
    one [parseInt(pair, 16)] per byte. *)
Fixpoint pairs_to_bytes (l : list ascii) : list Z :=
  match l with
  | c1 :: c2 :: l' => default 0%Z (parseInt16 (text [c1; c2])) :: pairs_to_bytes l'
  | _ => []
  end.

Definition is_0x (l : list ascii) : bool :=
  match l with
  | "0"%char :: x :: _ => Ascii.eqb x "x" || Ascii.eqb x "X"
  | _ => false
  end.

Definition getBytes (value : string) : result (list Z) :=
  let l := chars value in
  if Nat.even (length l) && is_0x l && forallb is_hex (drop 2 l)
  then Ok (pairs_to_bytes (drop 2 l))
  else Throw (InvalidArgument "invalid BytesLike value").

(** [hexlify(bytes)]: two lower-case digits per byte after [0x]. *)
Definition byte_digits (v : Z) : list ascii :=
  [hex_digit (Z.shiftr (Z.land v 0xf0) 4); hex_digit (Z.land v 0x0f)].

Definition hexlify (bytes : list Z) : string :=
  "0x" +:+ text (flat_map byte_digits bytes).

(** [toBeHex(value)] without a width: [getUint] rejects a negative value;
    the digits of [toString(16)] are padded with one [0] to an even count. *)
Definition toBeHex (value : Z) : result string :=
  if (value <? 0)%Z then Throw (NumericFault "unsigned value cannot be negative")
  else
    let result := toString16 value in
    let result := if Nat.odd (String.length result) then "0" +:+ result else result in
    Ok ("0x" +:+ result).

(** The checksum casing of EIP-55. *)
Definition nibble (hashed : list N) (i : nat) : N :=
  let b := nth (Nat.div2 i) hashed 0%N in
  if Nat.even i then N.shiftr b 4 else N.land b 0x0f.

Definition getChecksumAddress (address : string) : string :=
  let address := toLowerCase address in
  let cs := chars (slice_from address 2) in
  let expanded := List.map code (take 40 cs) in
  let hashed := Keccak.keccak256 expanded in
  "0x" +:+ text (imap (fun i c =>
     if (i <? 40)%nat && (8 <=? nibble hashed i)%N then upper_char c else c) cs).

(** [/^(0x)?[0-9a-fA-F]{40}$/] *)
Definition is_hex_address (address : string) : bool :=
  let l := chars address in
  let body := if starts_with (chars "0x") l then drop 2 l else l in
  (length body =? 40)%nat && forallb is_hex body.

(** [.*q] at the head of [l], then [p.*q] anywhere in [l]. *)
Fixpoint dot_star_then (q : ascii -> bool) (l : list ascii) : bool :=
  match l with
  | [] => false
  | c :: l' => q c || (negb (is_line_terminator c) && dot_star_then q l')
  end.

Fixpoint search_then (p q : ascii -> bool) (l : list ascii) : bool :=
  match l with
  | [] => false
  | c :: l' => (p c && dot_star_then q l') || search_then p q l'
  end.

(** [/([A-F].*[a-f])|([a-f].*[A-F])/] *)
Definition is_mixed_case (address : string) : bool :=
  search_then is_upper_AF is_lower_af (chars address)
  || search_then is_lower_af is_upper_AF (chars address).

(** [/^XE[0-9]{2}[0-9A-Za-z]{30,31}$/] *)
Definition is_icap (address : string) : bool :=
  match chars address with
  | "X"%char :: "E"%char :: d1 :: d2 :: rest =>
      is_digit d1 && is_digit d2
      && ((length rest =? 30)%nat || (length rest =? 31)%nat)
      && forallb is_alnum rest
  | _ => false
  end.

(** [ibanLookup]: a digit stands for itself, a capital for 10..35. *)
Definition ibanLookup (c : ascii) : list ascii :=
  if is_digit c then [c]
  else chars (toString10 (Z.of_N (code c) - 55)).

Fixpoint iban_reduce (fuel : nat) (expanded : list ascii) : list ascii :=
  match fuel with
  | O => expanded
  | S f =>
      if (15 <=? length expanded)%nat then
        let block := take 15 expanded in
        iban_reduce f
          (chars (toString10 (decimal_value block mod 97)) ++ drop 15 expanded)
      else expanded
  end.

Definition ibanChecksum (address : string) : string :=
  let address := toUpperCase address in
  let address := slice_from address 4 +:+ slice address 0 2 +:+ "00" in
  let expanded := flat_map ibanLookup (chars address) in
  let expanded := iban_reduce (length expanded) expanded in
  padStart0 2 (toString10 (98 - decimal_value expanded mod 97)).

Definition fromBase36 (value : string) : Z :=
  fold_left (fun acc c =>
      (acc * 36 + (if is_digit c then Z.of_N (code c) - 48 else Z.of_N (code c) - 87))%Z)
    (chars (toLowerCase value)) 0%Z.

Definition getAddress (address : string) : result string :=
  if is_hex_address address then
    let address := if startsWith address "0x" then address else "0x" +:+ address in
    let result := getChecksumAddress address in
    if is_mixed_case address && negb (String.eqb result address)
    then Throw (InvalidArgument "bad address checksum")
    else Ok result
  else if is_icap address then
    if String.eqb (slice address 2 4) (ibanChecksum address) then
      let result := toString16 (fromBase36 (slice_from address 4)) in
      Ok (getChecksumAddress ("0x" +:+ padStart0 40 result))
    else Throw (InvalidArgument "bad icap checksum")
  else Throw (InvalidArgument "invalid address").

(** [getAddress] starts with [assertArgument(typeof(address) === "string")]. *)
Definition getAddress_any (address : js_value) : result string :=
  match address with
  | VString s => getAddress s
  | _ => Throw (InvalidArgument "invalid address")
  end.

End ethers.

(** [BigInt(s)] on the hexadecimal literals [0x...], the only text the
    sources pass to it. *)
Definition BigInt (s : string) : result Z :=
  let l := chars s in
  if ethers.is_0x l && negb (length l =? 2)%nat && forallb is_hex (drop 2 l)
  then Ok (digits_value (drop 2 l))
  else Throw SyntaxError.

(** ** Property lookup on an object literal *)

(** What [o[k]] evaluates to for an object literal [o] with numeric own
    properties: the own property, else what [Object.prototype] has under
    that name, else [undefined]. *)
Inductive property : Type :=
| PNumber (n : Z)
| PInherited
| PUndefined.

Definition Object_prototype : list string :=
  [ "constructor"; "__defineGetter__"; "__defineSetter__"; "hasOwnProperty";
    "__lookupGetter__"; "__lookupSetter__"; "isPrototypeOf";
    "propertyIsEnumerable"; "toString"; "valueOf"; "__proto__";
    "toLocaleString" ].

Definition get_property (o : gmap string Z) (k : string) : property :=
  match o !! k with
  | Some n => PNumber n
  | None => if bool_decide (k ∈ Object_prototype) then PInherited else PUndefined
  end.

Definition is_undefined (p : property) : bool :=
  match p with PUndefined => true | _ => false end.

(** ** [@defi-wonderland/interop-addresses] *)

Module Interop.

Record InteropAddressFields : Type := {
  version : Z;
  chainType : string;
  chainReference : string;
  address : string;
}.

(** Modelled from the spec: the package is not among the sources.  The spec
    (4.1) gives the envelope as version (fixed 1), chain-type code,
    chain-reference bytes and an explicit zero-length address field; the
    field widths are those of ERC-7930, which the source names: two bytes of
    version, two bytes of chain type, one length byte before the chain
    reference and one before the address.  The result is [0x] and the hex
    of these bytes.  The verifier below takes [buildFromPayload] as a
    parameter; this instance is used to run it. *)
Definition buildFromPayload_erc7930 (payload : InteropAddressFields) : result string :=
  if negb (String.eqb (chainType payload) "eip155")
  then Throw (JsError "unsupported chain type") else
  reference ← ethers.getBytes (chainReference payload);
  addr ← ethers.getBytes (address payload);
  if (255 <? length reference)%nat || (255 <? length addr)%nat
  then Throw (JsError "field too long") else
  Ok (ethers.hexlify
        ([Z.shiftr (version payload) 8; Z.land (version payload) 0xff; 0; 0]%Z
         ++ [Z.of_nat (length reference)] ++ reference
         ++ [Z.of_nat (length addr)] ++ addr)).

End Interop.

(** ** Calls to collaborators *)

Inductive event : Type :=
| GetResolver (ensName : string)
| GetText (key : string)
| GetIdentityRegistry
| RegistryGetAddress.

(** An asynchronous computation: the calls it made, in order, and how it
    settled. *)
Definition io (A : Type) : Type := (list event * result A)%type.

Global Instance io_ret : MRet io := fun _ a => ([], Ok a).
Global Instance io_bind : MBind io := fun _ _ f m =>
  match m with
  | (t, Ok a) => let '(t', r) := f a in (t ++ t', r)
  | (t, Throw e) => (t, Throw e)
  end.

(** A synchronous step inside an [async] function. *)
Definition lift {A} (r : result A) : io A := ([], r).

(** [try { x = await call } catch { handler }; k x], where [handler]
    returns from the enclosing function. *)
Definition await_try {A B} (ev : event) (call : result A)
    (handler : exn -> io B) (k : A -> io B) : io B :=
  let '(t, r) := match call with
                  | Ok a => k a
                  | Throw e => handler e
                  end in
  (ev :: t, r).

Definition calls {A} (m : io A) : list event := fst m.
Definition outcome {A} (m : io A) : result A := snd m.

Record Resolver : Type := {
  getText : string -> result js_value;
}.

(** [getResolver] resolving to [None] is a falsy value ([null]). *)
Record Provider : Type := {
  getResolver : string -> result (option Resolver);
}.

(** ** [src/utils/ens-verifier.ts] *)

(** Currently restricted to EVM (eip155) namespaces. *)
Definition CAIP_NAMESPACE_CODES : gmap string Z := {[ "eip155" := 0%Z ]}.

(** [CAIP_NAMESPACE_CODES.eip155] *)
Definition CAIP_NAMESPACE_CODES_eip155 : Z :=
  match get_property CAIP_NAMESPACE_CODES "eip155" with
  | PNumber n => n
  | _ => 0%Z
  end.

Record AgentRegistryRecord : Type := {
  version : Z;
  chainType : Z;
  chainReference : Z;
  address : string;
  agentId : Z;
}.

Module Expected.
Record t : Type := {
  chainId : Z;
  registryAddress : js_value;
  agentId : Z;
}.
End Expected.

Definition ADDRESS_HEX_LENGTH : nat := 42.

(** [decodeAgentRegistryRecord(valueHex)] *)
Definition decodeAgentRegistryRecord (valueHex : string) : result AgentRegistryRecord :=
  if negb (startsWith valueHex "0x")
  then Throw (JsError "CAIP-350 segment must start with 0x") else
  if (String.length valueHex <? ADDRESS_HEX_LENGTH + 2)%nat
  then Throw (JsError "Agent registry record value too short") else
  let addressText := slice valueHex 0 ADDRESS_HEX_LENGTH in
  let agentIdLengthHex := slice valueHex ADDRESS_HEX_LENGTH (ADDRESS_HEX_LENGTH + 2) in
  match parseInt16 agentIdLengthHex with
  | None => Throw (JsError "Invalid agent ID length")
  | Some agentIdLength =>
      if (agentIdLength <? 0)%Z then Throw (JsError "Invalid agent ID length") else
      let agentIdHex := toLowerCase (slice_from valueHex (ADDRESS_HEX_LENGTH + 2)) in
      agentIdBytes ← ethers.getBytes ("0x" +:+ agentIdHex);
      if negb (Z.of_nat (length agentIdBytes) =? agentIdLength)%Z
      then Throw (JsError "Agent ID length does not match payload") else
      agentId ← (if (length agentIdBytes =? 0)%nat then Ok 0%Z
                 else BigInt (ethers.hexlify agentIdBytes));
      normalizedAddress ← ethers.getAddress addressText;
      Ok {| version := 1;
            chainType := CAIP_NAMESPACE_CODES_eip155;
            chainReference := 0;
            address := normalizedAddress;
            agentId := agentId |}
  end.

(** [decodeAgentRegistryRecord] on whatever the resolver handed back: on a
    value that is no string, [valueHex.startsWith] is not a function. *)
Definition decode_value (v : js_value) : result AgentRegistryRecord :=
  match v with
  | VString s => decodeAgentRegistryRecord s
  | _ => Throw TypeError
  end.

(** [recordMatchesAgent(record, expected)] *)
Definition recordMatchesAgent (record : AgentRegistryRecord) (expected : Expected.t)
    : result bool :=
  if negb (version record =? 1)%Z
     || negb (chainType record =? CAIP_NAMESPACE_CODES_eip155)%Z
  then Ok false else
  if negb (chainReference record =? Expected.chainId expected)%Z
  then Ok false else
  normalized ← ethers.getAddress_any (Expected.registryAddress expected);
  if negb (String.eqb normalized (address record))
  then Ok false else
  if negb (agentId record =? Expected.agentId expected)%Z
  then Ok false else
  Ok true.

(** [fetchAgentRegistryRecord(provider, ensName, recordKey)] *)
Definition fetchAgentRegistryRecord (provider : Provider) (ensName recordKey : string)
    : io js_value :=
  let normalizedKey := toLowerCase recordKey in
  await_try (GetResolver ensName) (getResolver provider ensName)
    (fun _ => mret VNull)
    (fun resolver =>
       match resolver with
       | None => mret VNull
       | Some resolver =>
           await_try (GetText normalizedKey) (getText resolver normalizedKey)
             (fun _ => mret VNull)
             (fun text => mret text)
       end).

(** The test helper [encodeAgentRegistryRecord] of
    [tests/verify-ens.test.ts]; [agentId] is the helper's
    [BigInt(input.agentId)]. *)
Definition encodeAgentRegistryRecord (registryAddress : string) (agentId : Z)
    : result string :=
  addressText ← ethers.getAddress registryAddress;
  hex ← ethers.toBeHex agentId;
  agentIdBytes ← ethers.getBytes hex;
  let agentIdHex := toLowerCase (slice_from (ethers.hexlify agentIdBytes) 2) in
  let agentIdLengthHex :=
    padStart0 2 (toString16 (Z.of_nat (length agentIdBytes))) in
  Ok (addressText +:+ agentIdLengthHex +:+ agentIdHex).

Section Verifier.

(** [InteropAddressProvider.buildFromPayload], of a package that is not
    among the sources. *)
Variable buildFromPayload : Interop.InteropAddressFields -> result string.

Definition unsupported (namespace : string) : exn :=
  JsError ("Unsupported CAIP namespace: " +:+ namespace).

(** [encode7930ChainIdentifierHex(chainId, namespace)] *)
Definition encode7930ChainIdentifierHex (chainId : Z) (namespace : string)
    : result string :=
  if (chainId <? 0)%Z
  then Throw (JsError "Chain reference must be non-negative") else
  if is_undefined (get_property CAIP_NAMESPACE_CODES namespace)
  then Throw (unsupported namespace) else
  reference ← ethers.toBeHex chainId;
  payload ← buildFromPayload
    {| Interop.version := 1;
       Interop.chainType := namespace;
       Interop.chainReference := toLowerCase reference;
       Interop.address := "0x" |};
  Ok (toLowerCase (slice_from payload 2)).

(** [buildAgentRegistryRecordKey(chainId, namespace)]; [chainId] is the
    value of [BigInt(chainId)]. *)
Definition buildAgentRegistryRecordKey (chainId : Z) (namespace : string)
    : result string :=
  if is_undefined (get_property CAIP_NAMESPACE_CODES namespace)
  then Throw (unsupported namespace) else
  chainIdentifierHex ← encode7930ChainIdentifierHex chainId namespace;
  Ok ("agent-registry:" +:+ chainIdentifierHex).

(** [loadAgentRegistryRecord(provider, ensName, chainId, namespace)] *)
Definition loadAgentRegistryRecord (provider : Provider) (ensName : string)
    (chainId : Z) (namespace : string) : io (option AgentRegistryRecord) :=
  recordKey ← lift (buildAgentRegistryRecordKey chainId namespace);
  value ← fetchAgentRegistryRecord provider ensName recordKey;
  if negb (truthy value) then mret None else
  match decode_value value with
  | Ok decoded =>
      mret (Some {| version := version decoded;
                    chainType := chainType decoded;
                    chainReference := chainId;
                    address := address decoded;
                    agentId := agentId decoded |})
  | Throw _ => mret None
  end.

End Verifier.

(** ** [src/core/agent.ts] *)

Inductive EndpointType : Type := MCP | A2A | ENS | DID | WALLET | OASF.

Global Instance EndpointType_eq_dec : EqDecision EndpointType.
Proof. solve_decision. Defined.

Record Endpoint : Type := {
  type : EndpointType;
  value : string;
}.

Module RegistrationFile.
Record t : Type := {
  agentId : option string;
  endpoints : list Endpoint;
}.
End RegistrationFile.

Record IdentityRegistry : Type := {
  getAddress : result js_value;
}.

(** The part of the SDK [verifyENSName] reaches: [sdk.web3Client.provider]
    and [sdk.getIdentityRegistry()], which throws when no registry address
    is configured. *)
Record SDK : Type := {
  web3Client_provider : Provider;
  getIdentityRegistry : result IdentityRegistry;
}.

Record Agent : Type := {
  sdk : SDK;
  registrationFile : RegistrationFile.t;
}.

(** [get ensEndpoint()] *)
Definition ensEndpoint (this : Agent) : option string :=
  value <$> List.find (fun e => bool_decide (type e = ENS))
              (RegistrationFile.endpoints (registrationFile this)).

(** [!s] for [s : string | undefined] *)
Definition absent (s : option string) : bool :=
  match s with
  | Some s => String.eqb s ""
  | None => true
  end.

Section AgentVerify.

Variable buildFromPayload : Interop.InteropAddressFields -> result string.

(** [parseAgentId] of [utils/id-format], which is not among the sources:
    the spec (6) has it turn [<chainId>:<tokenId>] into its two integer
    parts, and the call site expects it to throw on text it cannot parse. *)
Variable parseAgentId : string -> result (Z * Z).

(** [Agent.verifyENSName()] *)
Definition verifyENSName (this : Agent) : io bool :=
  let ensName := ensEndpoint this in
  let agentId := RegistrationFile.agentId (registrationFile this) in
  if absent ensName || absent agentId then mret false else
  match parseAgentId (default "" agentId) with
  | Throw _ => mret false
  | Ok (chainId, tokenId) =>
      record ← loadAgentRegistryRecord buildFromPayload
                 (web3Client_provider (sdk this)) (default "" ensName)
                 chainId "eip155";
      match record with
      | None => mret false
      | Some record =>
          await_try GetIdentityRegistry (getIdentityRegistry (sdk this))
            (fun _ => mret false)
            (fun registry =>
               await_try RegistryGetAddress (getAddress registry)
                 (fun _ => mret false)
                 (fun registryAddress =>
                    lift (recordMatchesAgent record
                            {| Expected.chainId := chainId;
                               Expected.registryAddress := registryAddress;
                               Expected.agentId := tokenId |})))
      end
  end.

End AgentVerify.

(** ** Test doubles and scenario data *)

(** Modelled from the spec: [parseAgentId] is not among the sources; the
    spec (6) describes it as turning a composite identifier
    [<chainId>:<tokenId>] into its two integer parts.  This instance reads
    two runs of decimal digits around one colon and throws otherwise; it is
    used to run [verifyENSName] on the scenarios of the test suite. *)
Fixpoint digit_run (l : list ascii) : list ascii :=
  match l with
  | c :: l' => if is_digit c then c :: digit_run l' else []
  | [] => []
  end.

Definition parseAgentId_decimal (agentId : string) : result (Z * Z) :=
  let l := chars agentId in
  let a := digit_run l in
  match drop (length a) l with
  | ":"%char :: b =>
      if negb (length a =? 0)%nat && negb (length b =? 0)%nat && forallb is_digit b
      then Ok (decimal_value a, decimal_value b)
      else Throw (JsError "Invalid AgentId format")
  | _ => Throw (JsError "Invalid AgentId format")
  end.

(** The agent of [createAgentWithResolver] in [tests/verify-ens.test.ts]:
    agent id [1:42], ENS name [test-agent.eth]. *)
Definition test_agent (provider : Provider) (registry : result IdentityRegistry) : Agent :=
  {| sdk := {| web3Client_provider := provider; getIdentityRegistry := registry |};
     registrationFile :=
       {| RegistrationFile.agentId := Some "1:42";
          RegistrationFile.endpoints := [ {| type := ENS; value := "test-agent.eth" |} ] |} |}.

Definition mock_provider (recordValue : js_value) : Provider :=
  {| getResolver := fun _ => Ok (Some {| getText := fun _ => Ok recordValue |}) |}.

Definition mock_registry (registryAddress : js_value) : result IdentityRegistry :=
  Ok {| getAddress := Ok registryAddress |}.

Definition run_verify (this : Agent) : io bool :=
  verifyENSName Interop.buildFromPayload_erc7930 parseAgentId_decimal this.

(** ** Definitions used to state the properties *)

Definition all_ascii : list ascii := List.map ascii_of_nat (seq 0 256).

(** A lower-case hexadecimal digit: [[0-9a-f]]. *)
Definition lower_hex (c : ascii) : bool := is_digit c || is_lower_af c.

Definition digit_step (acc : Z) (c : ascii) : Z :=
  (16 * acc + default 0 (hex_value c))%Z.

Definition hex_byte (c1 c2 : ascii) : Z := default 0%Z (parseInt16 (text [c1; c2])).

Definition pair_digits_ok (c1 c2 : ascii) : bool :=
  implb (is_hex c1 && is_hex c2)
    (String.eqb (text (ethers.byte_digits (hex_byte c1 c2)))
                (text [lower_char c1; lower_char c2])).

Definition pair_value_ok (c1 c2 : ascii) : bool :=
  implb (is_hex c1 && is_hex c2)
    (Z.eqb (hex_byte c1 c2)
       (16 * default 0 (hex_value c1) + default 0 (hex_value c2)))%Z.

(** The digits [toBeHex] writes after [0x]. *)
Definition even_digits (value : Z) : string :=
  let result := toString16 value in
  if Nat.odd (String.length result) then "0" +:+ result else result.

(** [agentIdBytes.length.toString(16).padStart(2, "0")] *)
Definition length_field (k : nat) : string := padStart0 2 (toString16 (Z.of_nat k)).

Definition length_field_ok (k : nat) : bool :=
  (String.length (length_field k) =? 2)%nat
  && match parseInt16 (length_field k) with
     | Some n => (n =? Z.of_nat k)%Z
     | None => false
     end
  && forallb lower_hex (chars (length_field k)).

(** The casing [getChecksumAddress] applies to the lower-case digits. *)
Definition checksum_case (cs : list ascii) : list ascii :=
  imap (fun i c =>
      if (i <? 40)%nat
         && (8 <=? ethers.nibble (Keccak.keccak256 (List.map code (take 40 cs))) i)%N
      then upper_char c else c) cs.

(** The checksum address of the digits [h]. *)
Definition checksummed (h : string) : string :=
  "0x" +:+ text (checksum_case (List.map lower_char (chars h))).

Definition casing (g : nat -> ascii -> ascii) : Prop :=
  forall i c, g i c = c \/ g i c = upper_char c.

(** What [decodeAgentRegistryRecord] does after its two guards, on the
    address text, the length field and the payload. *)
Definition decode_fields (addressText agentIdLengthHex payload : string)
    : result AgentRegistryRecord :=
  match parseInt16 agentIdLengthHex with
  | None => Throw (JsError "Invalid agent ID length")
  | Some agentIdLength =>
      if (agentIdLength <? 0)%Z then Throw (JsError "Invalid agent ID length") else
      agentIdBytes ← ethers.getBytes ("0x" +:+ toLowerCase payload);
      if negb (Z.of_nat (length agentIdBytes) =? agentIdLength)%Z
      then Throw (JsError "Agent ID length does not match payload") else
      agentId ← (if (length agentIdBytes =? 0)%nat then Ok 0%Z
                 else BigInt (ethers.hexlify agentIdBytes));
      normalizedAddress ← ethers.getAddress addressText;
      Ok {| version := 1;
            chainType := CAIP_NAMESPACE_CODES_eip155;
            chainReference := 0;
            address := normalizedAddress;
            agentId := agentId |}
  end.

(** The record the loader hands out for a decoded value. *)
Definition with_chainReference (decoded : AgentRegistryRecord) (chainId : Z)
    : AgentRegistryRecord :=
  {| version := version decoded;
     chainType := chainType decoded;
     chainReference := chainId;
     address := address decoded;
     agentId := agentId decoded |}.

Definition loaded (fetched : js_value) (chainId : Z) : option AgentRegistryRecord :=
  if negb (truthy fetched) then None
  else match decode_value fetched with
       | Ok decoded => Some (with_chainReference decoded chainId)
       | Throw _ => None
       end.

(** The malformations the decoder detects, on the value itself.  The
    length field counts as unparsable only when [parseInt] reads no digit of
    it: a field that is no pair of hexadecimal digits but that [parseInt]
    reads in part ([1g], [ 1], [+1]) is not detected. *)
Definition detected_malformation (valueHex : string) : Prop :=
  startsWith valueHex "0x" = false
  \/ (String.length valueHex < 44)%nat
  \/ parseInt16 (slice valueHex 42 44) = None
  \/ forallb is_hex (chars (slice_from valueHex 44)) = false
  \/ Nat.odd (String.length (slice_from valueHex 44)) = true
  \/ (exists declared, parseInt16 (slice valueHex 42 44) = Some declared
        /\ (2 * declared)%Z <> Z.of_nat (String.length (slice_from valueHex 44)))
  \/ (exists e, ethers.getAddress (slice valueHex 0 42) = Throw e).

Section VerifyCases.
Variable bfp : Interop.InteropAddressFields -> result string.
Variable parse : string -> result (Z * Z).
Variable this : Agent.

Let provider := web3Client_provider (sdk this).
Let ensName := default "" (ensEndpoint this).

(** The run of [verifyENSName] once the agent id is parsed and the key is
    built. *)
Definition verify_after_key (chainId tokenId : Z) (recordKey : string) : io bool :=
  match getResolver provider ensName with
  | Ok (Some resolver) =>
      let fetched := [GetResolver ensName; GetText (toLowerCase recordKey)] in
      match getText resolver (toLowerCase recordKey) with
      | Ok text =>
          match loaded text chainId with
          | Some record =>
              match getIdentityRegistry (sdk this) with
              | Ok registry =>
                  match getAddress registry with
                  | Ok registryAddress =>
                      (fetched ++ [GetIdentityRegistry; RegistryGetAddress],
                       recordMatchesAgent record
                         {| Expected.chainId := chainId;
                            Expected.registryAddress := registryAddress;
                            Expected.agentId := tokenId |})
                  | Throw _ =>
                      (fetched ++ [GetIdentityRegistry; RegistryGetAddress], Ok false)
                  end
              | Throw _ => (fetched ++ [GetIdentityRegistry], Ok false)
              end
          | None => (fetched, Ok false)
          end
      | Throw _ => (fetched, Ok false)
      end
  | _ => ([GetResolver ensName], Ok false)
  end.

Definition verify_cases : io bool :=
  if absent (ensEndpoint this)
     || absent (RegistrationFile.agentId (registrationFile this))
  then ([], Ok false)
  else
    match parse (default "" (RegistrationFile.agentId (registrationFile this))) with
    | Throw _ => ([], Ok false)
    | Ok (chainId, tokenId) =>
        match buildAgentRegistryRecordKey bfp chainId "eip155" with
        | Throw e => ([], Throw e)
        | Ok recordKey => verify_after_key chainId tokenId recordKey
        end
    end.

End VerifyCases.
(** [parseInt] of two code units is at most 255. *)
Definition pair_parse_ok (c1 c2 : ascii) : bool :=
  match parseInt16 (text [c1; c2]) with
  | Some n => (n <=? 255)%Z
  | None => true
  end.

(** ** [src/core/agent.ts]: endpoints, capabilities and dirty flags

    The agent with the fields its setters read and write.  [Endpoint.meta]
    is a [Record<string, unknown>]: a finite map from names to values, a
    value being an array of strings or anything else.  The registration
    file is a tree: no array is shared by two endpoints.  The order in which
    the properties of a [meta] object were created is not modelled.
    [Date.now()] is an argument of the methods that read the clock. *)

Module Full.

Inductive meta_value : Type :=
  | Strings (l : list string)
  | Scalar (v : js_value).

Record Endpoint : Type := {
  type : EndpointType;
  value : string;
  meta : option (gmap string meta_value);
}.

Record RegistrationFile : Type := {
  agentId : option string;
  endpoints : list Endpoint;
  walletAddress : option string;
  walletChainId : option Z;
  updatedAt : Z;
}.

Record Agent : Type := {
  sdk : SDK;
  registrationFile : RegistrationFile;
  _dirtyMetadata : gset string;
  _lastRegisteredWallet : option string;
  _lastRegisteredEns : option string;
}.

(** [ep.meta = m] *)
Definition set_meta (m : gmap string meta_value) (ep : Endpoint) : Endpoint :=
  {| type := type ep; value := value ep; meta := Some m |}.

(** [this.registrationFile.endpoints = eps] *)
Definition set_endpoints (eps : list Endpoint) (this : Agent) : Agent :=
  {| sdk := sdk this;
     registrationFile :=
       {| agentId := agentId (registrationFile this);
          endpoints := eps;
          walletAddress := walletAddress (registrationFile this);
          walletChainId := walletChainId (registrationFile this);
          updatedAt := updatedAt (registrationFile this) |};
     _dirtyMetadata := _dirtyMetadata this;
     _lastRegisteredWallet := _lastRegisteredWallet this;
     _lastRegisteredEns := _lastRegisteredEns this |}.

(** [this.registrationFile.updatedAt = Math.floor(Date.now() / 1000)] *)
Definition touch (now : Z) (this : Agent) : Agent :=
  {| sdk := sdk this;
     registrationFile :=
       {| agentId := agentId (registrationFile this);
          endpoints := endpoints (registrationFile this);
          walletAddress := walletAddress (registrationFile this);
          walletChainId := walletChainId (registrationFile this);
          updatedAt := (now / 1000)%Z |};
     _dirtyMetadata := _dirtyMetadata this;
     _lastRegisteredWallet := _lastRegisteredWallet this;
     _lastRegisteredEns := _lastRegisteredEns this |}.

(** [this._dirtyMetadata.add(key)] *)
Definition mark_dirty (key : string) (this : Agent) : Agent :=
  {| sdk := sdk this;
     registrationFile := registrationFile this;
     _dirtyMetadata := {[ key ]} ∪ _dirtyMetadata this;
     _lastRegisteredWallet := _lastRegisteredWallet this;
     _lastRegisteredEns := _lastRegisteredEns this |}.

(** [this.registrationFile.endpoints.find((e) => e.type === t)] *)
Definition find_endpoint (t : EndpointType) (this : Agent) : option Endpoint :=
  List.find (fun e => bool_decide (type e = t)) (endpoints (registrationFile this)).

(** [ep?.meta?.[key]] *)
Definition meta_of (key : string) (ep : option Endpoint) : option meta_value :=
  match ep with
  | Some ep =>
      match meta ep with
      | Some m => m !! key
      | None => None
      end
  | None => None
  end.

(** The getters. *)
Definition mcpEndpoint (this : Agent) : option string := value <$> find_endpoint MCP this.
Definition a2aEndpoint (this : Agent) : option string := value <$> find_endpoint A2A this.
Definition ensEndpoint (this : Agent) : option string := value <$> find_endpoint ENS this.
Definition mcpTools (this : Agent) : option meta_value :=
  meta_of "mcpTools" (find_endpoint MCP this).
Definition mcpPrompts (this : Agent) : option meta_value :=
  meta_of "mcpPrompts" (find_endpoint MCP this).
Definition mcpResources (this : Agent) : option meta_value :=
  meta_of "mcpResources" (find_endpoint MCP this).
Definition a2aSkills (this : Agent) : option meta_value :=
  meta_of "a2aSkills" (find_endpoint A2A this).

(** What [EndpointCrawler] resolves to: null, or an object whose fields
    may be missing.  The crawler is not among the sources; the setters take
    its answer as an argument. *)
Module Crawler.
Record McpCapabilities : Type := {
  mcpTools : option (list string);
  mcpPrompts : option (list string);
  mcpResources : option (list string);
}.
Record A2aCapabilities : Type := {
  a2aSkills : option (list string);
}.
End Crawler.

(** [if (field) meta[key] = field] *)
Definition assign_if (key : string) (field : option (list string)) (m : gmap string meta_value) : gmap string meta_value :=
  match field with
  | Some l => <[key := Strings l]> m
  | None => m
  end.

(** [.filter((ep) => ep.type !== t)] *)
Definition without (t : EndpointType) (eps : list Endpoint) : list Endpoint :=
  List.filter (fun ep => negb (bool_decide (type ep = t))) eps.

(** [Agent.setMCP(endpoint, version = '2025-06-18', autoFetch = true)] *)
Definition setMCP
    (fetchMcpCapabilities : string -> result (option Crawler.McpCapabilities))
    (endpoint : string) (version : option string) (autoFetch : option bool)
    (now : Z) (this : Agent) : Agent :=
  let version := default "2025-06-18" version in
  let autoFetch := default true autoFetch in
  let this := set_endpoints (without MCP (endpoints (registrationFile this))) this in
  let meta : gmap string meta_value := {[ "version" := Scalar (VString version) ]} in
  let meta :=
    if autoFetch then
      match fetchMcpCapabilities endpoint with
      | Ok (Some capabilities) =>
          assign_if "mcpResources" (Crawler.mcpResources capabilities)
            (assign_if "mcpPrompts" (Crawler.mcpPrompts capabilities)
               (assign_if "mcpTools" (Crawler.mcpTools capabilities) meta))
      | Ok None => meta
      | Throw _ => meta
      end
    else meta in
  let mcpEndpoint := {| type := MCP; value := endpoint; meta := Some meta |} in
  touch now
    (set_endpoints (endpoints (registrationFile this) ++ [mcpEndpoint]) this).

(** [Agent.setA2A(agentcard, version = '0.30', autoFetch = true)] *)
Definition setA2A
    (fetchA2aCapabilities : string -> result (option Crawler.A2aCapabilities))
    (agentcard : string) (version : option string) (autoFetch : option bool)
    (now : Z) (this : Agent) : Agent :=
  let version := default "0.30" version in
  let autoFetch := default true autoFetch in
  let this := set_endpoints (without A2A (endpoints (registrationFile this))) this in
  let meta : gmap string meta_value := {[ "version" := Scalar (VString version) ]} in
  let meta :=
    if autoFetch then
      match fetchA2aCapabilities agentcard with
      | Ok capabilities =>
          assign_if "a2aSkills" (capabilities ≫= Crawler.a2aSkills) meta
      | Throw _ => meta
      end
    else meta in
  let a2aEndpoint := {| type := A2A; value := agentcard; meta := Some meta |} in
  touch now
    (set_endpoints (endpoints (registrationFile this) ++ [a2aEndpoint]) this).

(** [Agent.setENS(name, version = '1.0')] *)
Definition setENS (name : string) (version : option string) (now : Z)
    (this : Agent) : Agent :=
  let version := default "1.0" version in
  let this := set_endpoints (without ENS (endpoints (registrationFile this))) this in
  let this :=
    if bool_decide (Some name ≠ _lastRegisteredEns this)
    then mark_dirty "agentName" this
    else this in
  let ensEndpoint :=
    {| type := ENS; value := name;
       meta := Some {[ "version" := Scalar (VString version) ]} |} in
  touch now
    (set_endpoints (endpoints (registrationFile this) ++ [ensEndpoint]) this).

(** The endpoint [_getOrCreateOasfEndpoint] creates. *)
Definition oasf_default : Endpoint :=
  {| type := OASF;
     value := "https://github.com/agntcy/oasf/";
     meta := Some {[ "version" := Scalar (VString "v0.8.0");
                     "skills" := Strings [];
                     "domains" := Strings [] ]} |}.

(** [.find((ep) => ep.type === EndpointType.OASF)], as a position in the
    array: the callers write through the reference they get. *)
Definition find_oasf (this : Agent) : option (nat * Endpoint) :=
  list_find (fun ep => type ep = OASF) (endpoints (registrationFile this)).

(** [Agent._getOrCreateOasfEndpoint()]: the position of the endpoint it
    returns, and the agent after the call. *)
Definition _getOrCreateOasfEndpoint (this : Agent) : nat * Agent :=
  match find_oasf this with
  | Some (i, _) => (i, this)
  | None =>
      (length (endpoints (registrationFile this)),
       set_endpoints (endpoints (registrationFile this) ++ [oasf_default]) this)
  end.

(** [Array.isArray(meta[key])], with the array. *)
Definition array_of (key : string) (m : gmap string meta_value) : option (list string) :=
  match m !! key with
  | Some (Strings l) => Some l
  | _ => None
  end.

(** The body [addSkill] and [addDomain] share after the validation, [key]
    being [skills] or [domains]; it writes through the endpoint at [i]. *)
Definition add_slug (key slug : string) (ep : Endpoint) : Endpoint :=
  let ep := if meta ep is None then set_meta ∅ ep else ep in
  let m := default ∅ (meta ep) in
  let ep := if array_of key m is None then set_meta (<[key := Strings []]> m) ep else ep in
  let m := default ∅ (meta ep) in
  let slugs := default [] (array_of key m) in
  if bool_decide (slug ∈ slugs) then ep
  else set_meta (<[key := Strings (slugs ++ [slug])]> m) ep.

Definition invalid_slug (kind slug : string) : exn :=
  JsError ("Invalid OASF " +:+ kind +:+ " slug: " +:+ slug +:+ ". "
           +:+ "Use validateOASF=false to skip validation.").

Definition add_to_oasf (key slug : string) (now : Z) (this : Agent) : Agent :=
  let '(i, this) := _getOrCreateOasfEndpoint this in
  touch now
    (set_endpoints (alter (add_slug key slug) i (endpoints (registrationFile this))) this).

(** [Agent.addSkill(slug, validateOASF = false)]; [validateSkill] is a
    function of [oasf-validator], not among the sources. *)
Definition addSkill (validateSkill : string -> bool)
    (slug : string) (validateOASF : option bool) (now : Z) (this : Agent)
  : result Agent :=
  if default false validateOASF && negb (validateSkill slug)
  then Throw (invalid_slug "skill" slug)
  else Ok (add_to_oasf "skills" slug now this).

(** [Agent.addDomain(slug, validateOASF = false)] *)
Definition addDomain (validateDomain : string -> bool)
    (slug : string) (validateOASF : option bool) (now : Z) (this : Agent)
  : result Agent :=
  if default false validateOASF && negb (validateDomain slug)
  then Throw (invalid_slug "domain" slug)
  else Ok (add_to_oasf "domains" slug now this).

(** [slugs.indexOf(slug)], then [slugs.splice(index, 1)] *)
Definition splice_first (slug : string) (slugs : list string) : list string :=
  match list_find (fun s => s = slug) slugs with
  | Some (index, _) => delete index slugs
  | None => slugs
  end.

(** The body [removeSkill] and [removeDomain] share. *)
Definition remove_from_oasf (key slug : string) (now : Z) (this : Agent) : Agent :=
  match find_oasf this with
  | Some (i, oasfEndpoint) =>
      match meta oasfEndpoint with
      | Some m =>
          let this :=
            match array_of key m with
            | Some slugs =>
                set_endpoints
                  (<[i := set_meta (<[key := Strings (splice_first slug slugs)]> m)
                            oasfEndpoint]>
                     (endpoints (registrationFile this))) this
            | None => this
            end in
          touch now this
      | None => this
      end
  | None => this
  end.

(** [Agent.removeSkill(slug)] *)
Definition removeSkill (slug : string) (now : Z) (this : Agent) : Agent :=
  remove_from_oasf "skills" slug now this.

(** [Agent.removeDomain(slug)] *)
Definition removeDomain (slug : string) (now : Z) (this : Agent) : Agent :=
  remove_from_oasf "domains" slug now this.

(** [Agent.setAgentWallet(address, chainId)] *)
Definition setAgentWallet (address : string) (chainId : Z) (now : Z)
    (this : Agent) : Agent :=
  let this :=
    {| sdk := sdk this;
       registrationFile :=
         {| agentId := agentId (registrationFile this);
            endpoints := endpoints (registrationFile this);
            walletAddress := Some address;
            walletChainId := Some chainId;
            updatedAt := updatedAt (registrationFile this) |};
       _dirtyMetadata := _dirtyMetadata this;
       _lastRegisteredWallet := _lastRegisteredWallet this;
       _lastRegisteredEns := _lastRegisteredEns this |} in
  let this :=
    if bool_decide (Some address ≠ _lastRegisteredWallet this)
    then mark_dirty "agentWallet" this
    else this in
  touch now this.

(** [SDK.createAgent(name, description, image)] of [src/core/sdk.ts], then
    the constructor of [Agent]: no endpoint, no agent id, nothing dirty. *)
Definition createAgent (sdk : SDK) (now : Z) : Agent :=
  {| sdk := sdk;
     registrationFile :=
       {| agentId := None; endpoints := []; walletAddress := None;
          walletChainId := None; updatedAt := (now / 1000)%Z |};
     _dirtyMetadata := ∅;
     _lastRegisteredWallet := None;
     _lastRegisteredEns := None |}.

End Full.

(** The part of an agent [verifyENSName] reads. *)
Definition verified_part (this : Full.Agent) : Agent :=
  {| sdk := Full.sdk this;
     registrationFile :=
       {| RegistrationFile.agentId := Full.agentId (Full.registrationFile this);
          RegistrationFile.endpoints :=
            List.map (fun ep => {| type := Full.type ep; value := Full.value ep |})
              (Full.endpoints (Full.registrationFile this)) |} |}.

(** The slugs of the first OASF endpoint under [key], when it has an array
    there. *)
Definition oasf_slugs (key : string) (this : Full.Agent) : option (list string) :=
  match Full.find_endpoint OASF this with
  | Some ep =>
      match Full.meta ep with
      | Some m => Full.array_of key m
      | None => None
      end
  | None => None
  end.

(** [slugs] after [if (!slugs.includes(slug)) slugs.push(slug)]. *)
Definition pushed (slug : string) (slugs : list string) : list string :=
  if bool_decide (slug ∈ slugs) then slugs else slugs ++ [slug].

(** The first OASF endpoint and its position, or the endpoint
    [_getOrCreateOasfEndpoint] would create and the position it would get. *)
Definition oasf_place (this : Full.Agent) : nat * Full.Endpoint :=
  default (length (Full.endpoints (Full.registrationFile this)), Full.oasf_default)
    (Full.find_oasf this).

(** The agent has no OASF endpoint, or its first OASF endpoint has a [meta]
    with both arrays: [addSkill] and [addDomain] then create no property of
    an existing [meta]. *)
Definition oasf_arrays_present (this : Full.Agent) : Prop :=
  match Full.find_oasf this with
  | None => True
  | Some (_, ep) =>
      match Full.meta ep with
      | Some m =>
          is_Some (Full.array_of "skills" m) /\ is_Some (Full.array_of "domains" m)
      | None => False
      end
  end.

(** A call of one of the setters; [SetMCP] and [SetA2A] carry the crawler
    they find, [AddSkill] and [AddDomain] the validator. *)
Inductive call : Type :=
  | SetMCP (fetchMcpCapabilities : string -> result (option Full.Crawler.McpCapabilities))
      (endpoint : string) (version : option string) (autoFetch : option bool)
  | SetA2A (fetchA2aCapabilities : string -> result (option Full.Crawler.A2aCapabilities))
      (agentcard : string) (version : option string) (autoFetch : option bool)
  | SetENS (name : string) (version : option string)
  | AddSkill (validateSkill : string -> bool) (slug : string) (validateOASF : option bool)
  | RemoveSkill (slug : string)
  | AddDomain (validateDomain : string -> bool) (slug : string) (validateOASF : option bool)
  | RemoveDomain (slug : string)
  | SetAgentWallet (address : string) (chainId : Z).

(** The call made when the clock reads [now]. *)
Definition perform (c : call) (now : Z) (this : Full.Agent) : result Full.Agent :=
  match c with
  | SetMCP fetch endpoint version autoFetch =>
      Ok (Full.setMCP fetch endpoint version autoFetch now this)
  | SetA2A fetch agentcard version autoFetch =>
      Ok (Full.setA2A fetch agentcard version autoFetch now this)
  | SetENS name version => Ok (Full.setENS name version now this)
  | AddSkill validateSkill slug validateOASF =>
      Full.addSkill validateSkill slug validateOASF now this
  | RemoveSkill slug => Ok (Full.removeSkill slug now this)
  | AddDomain validateDomain slug validateOASF =>
      Full.addDomain validateDomain slug validateOASF now this
  | RemoveDomain slug => Ok (Full.removeDomain slug now this)
  | SetAgentWallet address chainId => Ok (Full.setAgentWallet address chainId now this)
  end.

(** Calls in sequence, each with its clock reading, up to the first that
    throws. *)
Fixpoint perform_all (cs : list (call * Z)) (this : Full.Agent) : result Full.Agent :=
  match cs with
  | [] => Ok this
  | (c, now) :: cs =>
      match perform c now this with
      | Ok this => perform_all cs this
      | Throw e => Throw e
      end
  end.

Definition is_SetENS (c : call) : bool :=
  match c with
  | SetENS _ _ => true
  | _ => false
  end.

(** ** [src/core/sdk.ts]: the identity registry contract

    The fields [getIdentityRegistry] reads and writes.  The contract is
    made by [Web3Client.getContract], which is not among the sources: it is
    an argument, and the addresses it is called with are returned with the
    result. *)

Module Sdk.

Record t : Type := {
  _chainId : Z;
  _registries : gmap string string;
  _identityRegistry : option IdentityRegistry;
}.

(** [`${n}`] for a safe integer, [|n| < 2^53]: its decimal digits.  A
    larger number prints rounded, and in exponent form from [10^21] on,
    which is not modelled. *)
Definition number_text (n : Z) : string :=
  if (n <? 0)%Z then "-" +:+ toString10 (- n) else toString10 n.

(** The registries of the constructor:
    [{ ...defaultRegistries, ...(registryOverrides[config.chainId] || {}) }]. *)
Definition constructor
    (DEFAULT_REGISTRIES : gmap Z (gmap string string))
    (chainId : Z) (registryOverrides : option (gmap Z (gmap string string))) : t :=
  let registryOverrides := default ∅ registryOverrides in
  let defaultRegistries := default ∅ (DEFAULT_REGISTRIES !! chainId) in
  {| _chainId := chainId;
     _registries := default ∅ (registryOverrides !! chainId) ∪ defaultRegistries;
     _identityRegistry := None |}.

(** [SDK.getIdentityRegistry()] *)
Definition getIdentityRegistry
    (getContract : string -> result IdentityRegistry) (this : t)
  : list string * result IdentityRegistry * t :=
  match _identityRegistry this with
  | Some contract => ([], Ok contract, this)
  | None =>
      let address := _registries this !! "IDENTITY" in
      if absent address then
        ([], Throw (JsError ("No identity registry address for chain "
                             +:+ number_text (_chainId this))), this)
      else
        let address := default "" address in
        match getContract address with
        | Ok contract =>
            ([address], Ok contract,
             {| _chainId := _chainId this;
                _registries := _registries this;
                _identityRegistry := Some contract |})
        | Throw e => ([address], Throw e, this)
        end
  end.

End Sdk.

(** ** [Agent.transfer] *)

(** The transaction [transfer] sends:
    [transactContract(registry, 'transferFrom', {}, from, to, tokenId)]. *)
Inductive transaction : Type :=
  | TransferFrom (registry : IdentityRegistry) (from to : string) (tokenId : Z).

(** The part of [Web3Client] that [transfer] uses; the class is not among
    the sources. *)
Record Web3Client : Type := {
  web3_address : option string;
  isAddress : string -> bool;
  toChecksumAddress : string -> result string;
  transactContract : transaction -> result string;
}.

Record TransferResult : Type := {
  txHash : string;
  transfer_from : string;
  transfer_to : string;
  transfer_agentId : string;
}.

Definition zero_address : string := "0x0000000000000000000000000000000000000000".

Section AgentTransfer.

Variable parseAgentId : string -> result (Z * Z).
Variable web3Client : Web3Client.

(** [Agent.transfer(newOwner)]: the transactions sent, and the outcome. *)
Definition transfer (this : Agent) (newOwner : string)
  : list transaction * result TransferResult :=
  let agentId := RegistrationFile.agentId (registrationFile this) in
  if absent agentId
  then ([], Throw (JsError "Agent must be registered before transfer"))
  else
    let agentId := default "" agentId in
    match parseAgentId agentId with
    | Throw e => ([], Throw e)
    | Ok (_, tokenId) =>
        let currentOwner := web3_address web3Client in
        if absent currentOwner then ([], Throw (JsError "No signer available"))
        else
          let currentOwner := default "" currentOwner in
          let normalizedAddress := toLowerCase newOwner in
          if negb (isAddress web3Client normalizedAddress)
          then ([], Throw (JsError ("Invalid address: " +:+ newOwner)))
          else if String.eqb normalizedAddress zero_address
          then ([], Throw (JsError "Cannot transfer agent to zero address"))
          else
            match toChecksumAddress web3Client normalizedAddress with
            | Throw e => ([], Throw e)
            | Ok checksumAddress =>
                if String.eqb (toLowerCase checksumAddress) (toLowerCase currentOwner)
                then ([], Throw (JsError "Cannot transfer agent to yourself"))
                else
                  match getIdentityRegistry (sdk this) with
                  | Throw e => ([], Throw e)
                  | Ok identityRegistry =>
                      let sent :=
                        TransferFrom identityRegistry currentOwner checksumAddress
                          tokenId in
                      ([sent],
                       match transactContract web3Client sent with
                       | Throw e => Throw e
                       | Ok txHash =>
                           Ok {| txHash := txHash;
                                 transfer_from := currentOwner;
                                 transfer_to := checksumAddress;
                                 transfer_agentId := agentId |}
                       end)
                  end
            end
    end.

End AgentTransfer.

(** * Properties *)

(** ** Strings as lists of code units *)

Lemma chars_text l : chars (text l) = l.
Proof. apply list_ascii_of_string_of_list_ascii. Qed.

Lemma text_chars s : text (chars s) = s.
Proof. apply string_of_list_ascii_of_string. Qed.

Lemma chars_app s1 s2 : chars (s1 +:+ s2) = chars s1 ++ chars s2.
Proof. induction s1 as [|c s1 IH]; simpl; [reflexivity | now rewrite <- IH]. Qed.

Lemma length_chars s : length (chars s) = String.length s.
Proof. induction s as [|c s IH]; simpl; [reflexivity | now rewrite IH]. Qed.

Lemma chars_inj s1 s2 : chars s1 = chars s2 -> s1 = s2.
Proof. intros H. rewrite <- (text_chars s1), <- (text_chars s2). now rewrite H. Qed.

Lemma text_app l1 l2 : text (l1 ++ l2) = text l1 +:+ text l2.
Proof. apply chars_inj. now rewrite chars_app, !chars_text. Qed.

Lemma starts_with_app p l : starts_with p (p ++ l) = true.
Proof.
  induction p as [|c p IH]; simpl; [reflexivity |].
  now rewrite Ascii.eqb_refl, IH.
Qed.

Lemma starts_with_spec p l : starts_with p l = true <-> exists k, l = p ++ k.
Proof.
  split.
  - revert l. induction p as [|c p IH]; intros l H; [now exists l |].
    destruct l as [|d l]; [discriminate |]. simpl in H.
    apply andb_true_iff in H as [Hc Hp]. apply Ascii.eqb_eq in Hc. subst d.
    destruct (IH _ Hp) as [k ->]. now exists k.
  - intros [k ->]. apply starts_with_app.
Qed.

(** ** Facts about single code units, checked on all 256 of them *)

Lemma in_all_ascii c : In c all_ascii.
Proof.
  unfold all_ascii. rewrite <- (ascii_nat_embedding c).
  apply in_map, in_seq. pose proof (nat_ascii_bounded c). lia.
Qed.

Lemma forall_ascii (P : ascii -> bool) :
  forallb P all_ascii = true -> forall c, P c = true.
Proof. intros H c. eapply forallb_forall in H; [exact H | apply in_all_ascii]. Qed.

Ltac by_cases_on_ascii c :=
  revert c;
  match goal with
  | |- forall c, @?P c = true => apply (forall_ascii P); vm_compute; reflexivity
  end.

Lemma lower_char_idem c : Ascii.eqb (lower_char (lower_char c)) (lower_char c) = true.
Proof. by_cases_on_ascii c. Qed.

Lemma lower_upper_lower c :
  Ascii.eqb (lower_char (upper_char (lower_char c))) (lower_char c) = true.
Proof. by_cases_on_ascii c. Qed.

Lemma is_hex_lower c : Bool.eqb (is_hex (lower_char c)) (is_hex c) = true.
Proof. by_cases_on_ascii c. Qed.

Lemma is_hex_upper c : Bool.eqb (is_hex (upper_char c)) (is_hex c) = true.
Proof. by_cases_on_ascii c. Qed.

Lemma hex_value_lower c :
  implb (is_hex c)
    (Z.eqb (default 0%Z (hex_value (lower_char c))) (default 0%Z (hex_value c))) = true.
Proof. by_cases_on_ascii c. Qed.

Lemma is_hex_value c :
  implb (is_hex c)
    (match hex_value c with Some v => (0 <=? v)%Z && (v <? 16)%Z | None => false end) = true.
Proof. by_cases_on_ascii c. Qed.

(** ** Hexadecimal digits *)

Lemma lower_hex_is_hex c : implb (lower_hex c) (is_hex c) = true.
Proof. by_cases_on_ascii c. Qed.

Lemma lower_hex_fixed c : implb (lower_hex c) (Ascii.eqb (lower_char c) c) = true.
Proof. by_cases_on_ascii c. Qed.

Lemma lower_char_lower_hex c : implb (is_hex c) (lower_hex (lower_char c)) = true.
Proof. by_cases_on_ascii c. Qed.

Lemma hex_digit_spec d :
  (0 <= d < 16)%Z ->
  hex_value (hex_digit d) = Some d /\ lower_hex (hex_digit d) = true.
Proof.
  intros H. replace d with (Z.of_nat (Z.to_nat d)) by lia.
  assert (Hk : (Z.to_nat d < 16)%nat) by lia.
  generalize dependent (Z.to_nat d). intros k Hk.
  do 16 (destruct k as [|k]; [vm_compute; auto |]). lia.
Qed.

Lemma hex_digit_is_hex d : is_hex (hex_digit d) = true \/ (16 <= d)%Z.
Proof.
  destruct (Z.ltb_spec d 0) as [Hneg|Hpos].
  - left. unfold hex_digit. destruct (Z.ltb_spec d 10); [|lia].
    now replace (Z.to_N d) with 0%N by lia.
  - destruct (Z.ltb_spec d 16) as [Hlt|Hge]; [left | right; lia].
    destruct (hex_digit_spec d) as [_ H]; [lia |].
    pose proof (lower_hex_is_hex (hex_digit d)) as Hi. now rewrite H in Hi.
Qed.

Lemma digits_value_snoc l c :
  digits_value (l ++ [c]) = (16 * digits_value l + default 0 (hex_value c))%Z.
Proof. unfold digits_value. now rewrite fold_left_app. Qed.

Lemma forallb_snoc {A} (p : A -> bool) l x :
  forallb p (l ++ [x]) = forallb p l && p x.
Proof. rewrite forallb_app. simpl. now rewrite andb_true_r. Qed.

Lemma digits16_S f n :
  digits16 (S f) n =
  if (n <? 16)%Z then [hex_digit n]
  else digits16 f (n / 16)%Z ++ [hex_digit (n mod 16)%Z].
Proof. reflexivity. Qed.

(** With enough fuel, [digits16] yields the digits of [n], lower-case,
    without a leading zero. *)
Lemma digits16_spec f : forall n,
  (0 <= n < 16 ^ Z.of_nat (S f))%Z ->
  let ds := digits16 (S f) n in
  digits_value ds = n
  /\ forallb lower_hex ds = true
  /\ (1 <= length ds)%nat
  /\ (n < 16 ^ Z.of_nat (length ds))%Z
  /\ (16 ^ Z.of_nat (length ds - 1) <= Z.max 1 n)%Z.
Proof.
  induction f as [|f IH]; intros n Hn.
  - change (16 ^ Z.of_nat 1)%Z with 16%Z in Hn.
    simpl. destruct (Z.ltb_spec n 16); [|lia].
    destruct (hex_digit_spec n) as [Hv Hl]; [lia |].
    unfold digits_value. simpl. rewrite Hv, Hl. simpl. repeat split; lia.
  - cbv zeta. rewrite digits16_S. destruct (Z.ltb_spec n 16) as [Hlt|Hge].
    + destruct (hex_digit_spec n) as [Hv Hl]; [lia |].
      unfold digits_value. simpl. rewrite Hv, Hl. simpl. repeat split; lia.
    + assert (Hq : (0 <= n / 16 < 16 ^ Z.of_nat (S f))%Z).
      { split; [apply Z.div_pos; lia |].
        apply Z.div_lt_upper_bound; [lia |].
        rewrite <- Z.pow_succ_r by lia. now rewrite <- Nat2Z.inj_succ. }
      destruct (IH _ Hq) as (Hv & Hl & Hlen & Hub & Hlb).
      destruct (hex_digit_spec (n mod 16)) as [Hv' Hl'];
        [apply Z.mod_pos_bound; lia |].
      set (ds := digits16 (S f) (n / 16)) in *.
      rewrite digits_value_snoc, forallb_snoc, Hv, Hv', Hl, Hl', length_app.
      simpl length. pose proof (Z.div_mod n 16 ltac:(lia)) as Hdm.
      pose proof (Z.mod_pos_bound n 16 ltac:(lia)) as Hm.
      repeat split; simpl; try lia.
      * replace (Z.of_nat (length ds + 1)) with (Z.succ (Z.of_nat (length ds))) by lia.
        rewrite Z.pow_succ_r by lia. lia.
      * replace (length ds + 1 - 1)%nat with (S (length ds - 1)) by lia.
        rewrite Nat2Z.inj_succ, Z.pow_succ_r by lia.
        assert (0 < n / 16)%Z by (apply Z.div_str_pos; lia). lia.
Qed.

Lemma toString16_spec n :
  (0 <= n)%Z ->
  let ds := chars (toString16 n) in
  digits_value ds = n
  /\ forallb lower_hex ds = true
  /\ (1 <= length ds)%nat
  /\ (n < 16 ^ Z.of_nat (length ds))%Z
  /\ (16 ^ Z.of_nat (length ds - 1) <= Z.max 1 n)%Z.
Proof.
  intros Hn. unfold toString16. rewrite chars_text. apply digits16_spec.
  split; [lia |]. destruct (Z.eq_dec n 0%Z) as [->|Hnz]; [reflexivity |].
  pose proof (Z.log2_spec n ltac:(lia)) as [_ Hub].
  pose proof (Z.log2_nonneg n) as Hlog.
  rewrite Nat2Z.inj_succ, Z2Nat.id by lia.
  eapply Z.lt_le_trans; [exact Hub |].
  change 16%Z with (2 ^ 4)%Z. rewrite <- Z.pow_mul_r by lia.
  apply Z.pow_le_mono_r; lia.
Qed.

(** ** Bytes and pairs of digits *)

Lemma forall_ascii2 (P : ascii -> ascii -> bool) :
  forallb (fun c1 => forallb (P c1) all_ascii) all_ascii = true ->
  forall c1 c2, P c1 c2 = true.
Proof.
  intros H c1 c2. eapply forallb_forall in H; [|apply (in_all_ascii c1)].
  eapply forallb_forall in H; [exact H | apply in_all_ascii].
Qed.

Lemma pair_digits c1 c2 : pair_digits_ok c1 c2 = true.
Proof. revert c1 c2. apply forall_ascii2. vm_compute. reflexivity. Qed.

Lemma pair_value c1 c2 : pair_value_ok c1 c2 = true.
Proof. revert c1 c2. apply forall_ascii2. vm_compute. reflexivity. Qed.

Lemma hex_byte_digits c1 c2 :
  is_hex c1 = true -> is_hex c2 = true ->
  ethers.byte_digits (hex_byte c1 c2) = [lower_char c1; lower_char c2].
Proof.
  intros H1 H2. pose proof (pair_digits c1 c2) as H. unfold pair_digits_ok in H.
  rewrite H1, H2 in H. cbn [andb implb] in H. apply String.eqb_eq in H.
  apply (f_equal chars) in H. now rewrite !chars_text in H.
Qed.

Lemma hex_byte_value c1 c2 :
  is_hex c1 = true -> is_hex c2 = true ->
  hex_byte c1 c2 = (16 * default 0 (hex_value c1) + default 0 (hex_value c2))%Z.
Proof.
  intros H1 H2. pose proof (pair_value c1 c2) as H. unfold pair_value_ok in H.
  rewrite H1, H2 in H. cbn [andb implb] in H. now apply Z.eqb_eq in H.
Qed.

Lemma pair_ind {A} (P : list A -> Prop) :
  P [] -> (forall a, P [a]) -> (forall a b l, P l -> P (a :: b :: l)) ->
  forall l, P l.
Proof.
  intros H0 H1 H2 l. enough (P l /\ forall a, P (a :: l)) by tauto.
  induction l as [|b l [IH1 IH2]]; split; auto.
Qed.

Lemma is_hex_lower_eq c : is_hex (lower_char c) = is_hex c.
Proof. apply eqb_prop. apply is_hex_lower. Qed.

Lemma forallb_is_hex_lower l :
  forallb is_hex (List.map lower_char l) = forallb is_hex l.
Proof. induction l as [|c l IH]; simpl; [reflexivity |]. now rewrite is_hex_lower_eq, IH. Qed.

Lemma lower_char_idem_eq c : lower_char (lower_char c) = lower_char c.
Proof. apply Ascii.eqb_eq, lower_char_idem. Qed.

Lemma map_lower_idem l :
  List.map lower_char (List.map lower_char l) = List.map lower_char l.
Proof. rewrite List.map_map. apply List.map_ext. intros c. apply lower_char_idem_eq. Qed.

Lemma pairs_to_bytes_length l :
  Nat.even (length l) = true -> (2 * length (ethers.pairs_to_bytes l) = length l)%nat.
Proof.
  induction l as [| a | a b l IH] using pair_ind; intros H; simpl in *;
    [reflexivity | discriminate |]. specialize (IH H). lia.
Qed.

Lemma pairs_to_bytes_digits l :
  forallb is_hex l = true -> Nat.even (length l) = true ->
  flat_map ethers.byte_digits (ethers.pairs_to_bytes l) = List.map lower_char l.
Proof.
  induction l as [| a | a b l IH] using pair_ind; intros Hh He;
    [reflexivity | discriminate |].
  simpl in Hh. apply andb_true_iff in Hh as [Ha Hh].
  apply andb_true_iff in Hh as [Hb Hh].
  cbn [ethers.pairs_to_bytes flat_map List.map].
  fold (hex_byte a b). rewrite hex_byte_digits by assumption.
  rewrite IH by assumption. reflexivity.
Qed.

Lemma pairs_to_bytes_lower l :
  forallb is_hex l = true ->
  ethers.pairs_to_bytes (List.map lower_char l) = ethers.pairs_to_bytes l.
Proof.
  induction l as [| a | a b l IH] using pair_ind; intros Hh; try reflexivity.
  simpl in Hh. apply andb_true_iff in Hh as [Ha Hh].
  apply andb_true_iff in Hh as [Hb Hh].
  cbn [ethers.pairs_to_bytes List.map]. fold (hex_byte a b).
  fold (hex_byte (lower_char a) (lower_char b)).
  rewrite IH by assumption. f_equal.
  rewrite !hex_byte_value by (rewrite ?is_hex_lower_eq; assumption).
  pose proof (hex_value_lower a) as Hva. pose proof (hex_value_lower b) as Hvb.
  rewrite Ha in Hva. rewrite Hb in Hvb. simpl in Hva, Hvb.
  apply Z.eqb_eq in Hva, Hvb. now rewrite Hva, Hvb.
Qed.

Lemma digits_fold_lower l : forall acc,
  forallb is_hex l = true ->
  fold_left digit_step (List.map lower_char l) acc = fold_left digit_step l acc.
Proof.
  induction l as [|c l IH]; intros acc Hh; [reflexivity |].
  simpl in Hh. apply andb_true_iff in Hh as [Hc Hh]. cbn [fold_left List.map].
  pose proof (hex_value_lower c) as Hv. rewrite Hc in Hv. cbn [implb] in Hv.
  apply Z.eqb_eq in Hv. unfold digit_step at 2 4. rewrite Hv. now apply IH.
Qed.

Lemma digits_value_lower l :
  forallb is_hex l = true -> digits_value (List.map lower_char l) = digits_value l.
Proof. intros H. exact (digits_fold_lower l 0%Z H). Qed.

Lemma forallb_lower_hex_is_hex l : forallb lower_hex l = true -> forallb is_hex l = true.
Proof.
  intros H. apply forallb_forall. intros c Hc.
  eapply forallb_forall in H; [|exact Hc].
  pose proof (lower_hex_is_hex c) as Hi. now rewrite H in Hi.
Qed.

Lemma map_lower_lower_hex l : forallb lower_hex l = true -> List.map lower_char l = l.
Proof.
  induction l as [|c l IH]; intros H; [reflexivity |].
  simpl in H. apply andb_true_iff in H as [Hc H]. simpl. rewrite IH by assumption.
  pose proof (lower_hex_fixed c) as Hf. rewrite Hc in Hf. simpl in Hf.
  apply Ascii.eqb_eq in Hf. now rewrite Hf.
Qed.

Lemma forallb_lower_hex_map_lower l :
  forallb is_hex l = true -> forallb lower_hex (List.map lower_char l) = true.
Proof.
  induction l as [|c l IH]; intros H; [reflexivity |].
  simpl in H. apply andb_true_iff in H as [Hc H]. simpl. rewrite IH by assumption.
  pose proof (lower_char_lower_hex c) as Hf. rewrite Hc in Hf. simpl in Hf.
  now rewrite Hf.
Qed.

(** ** [getBytes], [hexlify], [toBeHex] *)

Lemma getBytes_0x h :
  ethers.getBytes ("0x" +:+ h) =
  if Nat.even (String.length h) && forallb is_hex (chars h)
  then Ok (ethers.pairs_to_bytes (chars h))
  else Throw (InvalidArgument "invalid BytesLike value").
Proof.
  unfold ethers.getBytes. rewrite chars_app. cbn [chars list_ascii_of_string app].
  fold (chars h). cbn [length ethers.is_0x drop]. rewrite length_chars.
  change (Nat.even (S (S (String.length h)))) with (Nat.even (String.length h)).
  change (("x" =? "x")%char || ("x" =? "X")%char) with true.
  now rewrite andb_true_r.
Qed.

Lemma chars_hexlify bytes :
  chars (ethers.hexlify bytes) =
  "0"%char :: "x"%char :: flat_map ethers.byte_digits bytes.
Proof. unfold ethers.hexlify. now rewrite chars_app, chars_text. Qed.

Lemma toLowerCase_lower_hex h :
  forallb lower_hex (chars h) = true -> toLowerCase h = h.
Proof.
  intros H. unfold toLowerCase. rewrite map_lower_lower_hex by assumption.
  apply text_chars.
Qed.

Lemma toBeHex_nonneg value :
  (0 <= value)%Z -> ethers.toBeHex value = Ok ("0x" +:+ even_digits value).
Proof.
  intros H. unfold ethers.toBeHex, even_digits.
  destruct (Z.ltb_spec value 0); [lia | reflexivity].
Qed.

Lemma even_digits_spec value :
  (0 <= value)%Z ->
  let h := chars (even_digits value) in
  forallb lower_hex h = true
  /\ digits_value h = value
  /\ exists k, (length h = 2 * k)%nat /\ (1 <= k)%nat
       /\ (value < 256 ^ Z.of_nat k)%Z
       /\ (256 ^ Z.of_nat (k - 1) <= Z.max 1 value)%Z.
Proof.
  intros Hv. destruct (toString16_spec value Hv) as (Hd & Hl & Hlen & Hub & Hlb).
  unfold even_digits. cbv zeta. rewrite <- length_chars.
  set (ds := chars (toString16 value)) in *.
  assert (Hpow : forall k : nat, (256 ^ Z.of_nat k = 16 ^ Z.of_nat (2 * k))%Z).
  { intros k. change 256%Z with (16 ^ 2)%Z. rewrite <- Z.pow_mul_r by lia.
    f_equal. lia. }
  destruct (Nat.odd (length ds)) eqn:Hodd.
  - rewrite chars_app. fold ds. change (chars "0") with ["0"%char].
    split; [exact Hl | split; [exact Hd |]].
    apply Nat.odd_spec in Hodd as [j Hj]. exists (S j).
    rewrite !Hpow. cbn [app length]. rewrite Hj.
    split; [clear; lia | split; [clear; lia | split]].
    + eapply Z.lt_le_trans; [exact Hub |]. apply Z.pow_le_mono_r; lia.
    + eapply Z.le_trans; [|exact Hlb]. apply Z.pow_le_mono_r; lia.
  - split; [exact Hl | split; [exact Hd |]].
    rewrite <- Nat.negb_even in Hodd. apply negb_false_iff in Hodd.
    apply Nat.even_spec in Hodd as [j Hj]. exists j.
    rewrite !Hpow. split; [exact Hj | split; [clear - Hlen Hj; lia | split]].
    + eapply Z.lt_le_trans; [exact Hub |]. apply Z.pow_le_mono_r; lia.
    + eapply Z.le_trans; [|exact Hlb]. apply Z.pow_le_mono_r; lia.
Qed.

Lemma length_field_spec k :
  (k <= 255)%nat ->
  String.length (length_field k) = 2%nat
  /\ parseInt16 (length_field k) = Some (Z.of_nat k)
  /\ forallb lower_hex (chars (length_field k)) = true.
Proof.
  intros Hk.
  assert (H : forallb length_field_ok (seq 0 256) = true) by (vm_compute; reflexivity).
  pose proof (proj1 (forallb_forall _ _) H k ltac:(apply in_seq; lia)) as H'.
  clear H. rename H' into H. unfold length_field_ok in H.
  apply andb_true_iff in H as [H H3]. apply andb_true_iff in H as [H1 H2].
  apply Nat.eqb_eq in H1. destruct (parseInt16 (length_field k)); [|discriminate].
  apply Z.eqb_eq in H2. subst. auto.
Qed.

(** ** Checksum casing and [getAddress] *)

Lemma getChecksumAddress_chars address :
  ethers.getChecksumAddress address =
  "0x" +:+ text (checksum_case (drop 2 (List.map lower_char (chars address)))).
Proof.
  unfold ethers.getChecksumAddress, toLowerCase, slice_from.
  now rewrite !chars_text.
Qed.

Lemma getChecksumAddress_0x h :
  ethers.getChecksumAddress ("0x" +:+ h) = checksummed h.
Proof. rewrite getChecksumAddress_chars, chars_app. reflexivity. Qed.

Lemma casing_shift g : casing g -> casing (g ∘ S).
Proof. intros H i c. apply H. Qed.

Lemma lower_upper_lower_eq c :
  lower_char (upper_char (lower_char c)) = lower_char c.
Proof. apply Ascii.eqb_eq, lower_upper_lower. Qed.

Lemma is_hex_upper_eq c : is_hex (upper_char c) = is_hex c.
Proof. apply eqb_prop, is_hex_upper. Qed.

Lemma lower_imap_casing l : forall g,
  casing g ->
  List.map lower_char (imap g (List.map lower_char l)) = List.map lower_char l.
Proof.
  induction l as [|c l IH]; intros g Hg; [reflexivity |].
  cbn [List.map imap]. rewrite IH by now apply casing_shift. f_equal.
  destruct (Hg 0%nat (lower_char c)) as [-> | ->].
  - apply lower_char_idem_eq.
  - apply lower_upper_lower_eq.
Qed.

Lemma is_hex_imap_casing l : forall g,
  casing g -> forallb is_hex (imap g l) = forallb is_hex l.
Proof.
  induction l as [|c l IH]; intros g Hg; [reflexivity |].
  cbn [forallb imap]. rewrite IH by now apply casing_shift. f_equal.
  destruct (Hg 0%nat c) as [-> | ->]; [reflexivity | apply is_hex_upper_eq].
Qed.

Lemma checksum_casing hashed :
  casing (fun i c =>
    if (i <? 40)%nat && (8 <=? ethers.nibble hashed i)%N then upper_char c else c).
Proof. intros i c. destruct (_ && _); auto. Qed.

Lemma checksum_case_lower l :
  List.map lower_char (checksum_case (List.map lower_char l)) = List.map lower_char l.
Proof. apply lower_imap_casing, checksum_casing. Qed.

Lemma checksum_case_hex l : forallb is_hex (checksum_case l) = forallb is_hex l.
Proof. apply is_hex_imap_casing, checksum_casing. Qed.

Lemma length_checksum_case l : length (checksum_case l) = length l.
Proof. apply length_imap. Qed.

Lemma length_checksummed h : String.length (checksummed h) = S (S (String.length h)).
Proof.
  unfold checksummed. rewrite <- !length_chars, chars_app, chars_text.
  cbn [chars list_ascii_of_string app length].
  now rewrite length_checksum_case, length_map.
Qed.

(** A checksum address is the checksum address of its own digits. *)
Lemma checksummed_idem h :
  checksummed (text (checksum_case (List.map lower_char (chars h)))) = checksummed h.
Proof. unfold checksummed. now rewrite chars_text, checksum_case_lower. Qed.

Lemma is_hex_address_0x h :
  ethers.is_hex_address ("0x" +:+ h) =
  (String.length h =? 40)%nat && forallb is_hex (chars h).
Proof.
  unfold ethers.is_hex_address. rewrite chars_app.
  change (chars "0x") with ["0"%char; "x"%char].
  cbn [app starts_with drop]. rewrite !Ascii.eqb_refl. cbn [andb].
  change (drop 0 (chars h)) with (chars h). now rewrite length_chars.
Qed.

Lemma startsWith_0x h : startsWith ("0x" +:+ h) "0x" = true.
Proof. unfold startsWith. rewrite chars_app. apply starts_with_app. Qed.

(** [getAddress] on [0x] and forty digits. *)
Lemma getAddress_hex h :
  String.length h = 40%nat -> forallb is_hex (chars h) = true ->
  ethers.getAddress ("0x" +:+ h) =
  if ethers.is_mixed_case ("0x" +:+ h) && negb (String.eqb (checksummed h) ("0x" +:+ h))
  then Throw (InvalidArgument "bad address checksum")
  else Ok (checksummed h).
Proof.
  intros Hlen Hhex. unfold ethers.getAddress.
  rewrite is_hex_address_0x, Hlen, Hhex, startsWith_0x.
  cbn [Nat.eqb andb]. now rewrite getChecksumAddress_0x.
Qed.

Lemma getAddress_checksummed h :
  String.length h = 40%nat -> forallb is_hex (chars h) = true ->
  ethers.getAddress (checksummed h) = Ok (checksummed h).
Proof.
  intros Hlen Hhex. unfold checksummed at 1.
  rewrite getAddress_hex.
  - rewrite checksummed_idem. unfold checksummed at 2.
    now rewrite String.eqb_refl, andb_false_r.
  - now rewrite <- length_chars, chars_text, length_checksum_case, length_map,
      length_chars.
  - now rewrite chars_text, checksum_case_hex, forallb_is_hex_lower.
Qed.

Lemma digits16_is_hex f : forall n, forallb is_hex (digits16 f n) = true.
Proof.
  induction f as [|f IH]; intros n; [reflexivity |].
  rewrite digits16_S. destruct (Z.ltb_spec n 16) as [Hlt|Hge].
  - cbn [forallb]. destruct (hex_digit_is_hex n) as [-> | ?]; [reflexivity | lia].
  - rewrite forallb_snoc, IH.
    pose proof (Z.mod_pos_bound n 16 ltac:(lia)).
    destruct (hex_digit_is_hex (n mod 16)) as [-> | ?]; [reflexivity | lia].
Qed.

Lemma forallb_repeat {A} (p : A -> bool) x k :
  p x = true -> forallb p (repeat x k) = true.
Proof. intros H. induction k as [|k IH]; simpl; [reflexivity | now rewrite H, IH]. Qed.

(** Whatever [getAddress] returns is the checksum address of some digits. *)
Lemma getAddress_Ok_shape a n :
  ethers.getAddress a = Ok n ->
  exists h, forallb is_hex (chars h) = true /\ n = checksummed h.
Proof.
  unfold ethers.getAddress. destruct (ethers.is_hex_address a) eqn:Hhex.
  - unfold ethers.is_hex_address, startsWith in *.
    destruct (starts_with (chars "0x") (chars a)) eqn:Hs.
    + apply starts_with_spec in Hs as [k Hk].
      apply andb_true_iff in Hhex as [_ Hhex]. rewrite Hk in Hhex.
      change (drop 2 (chars "0x" ++ k)) with k in Hhex.
      assert (Ha : a = "0x" +:+ text k).
      { apply chars_inj. now rewrite chars_app, chars_text. }
      destruct (_ && _); [discriminate |]. intros [= <-].
      exists (text k). rewrite chars_text. split; [exact Hhex |].
      rewrite Ha. apply getChecksumAddress_0x.
    + apply andb_true_iff in Hhex as [_ Hhex].
      destruct (_ && _); [discriminate |]. intros [= <-].
      exists a. split; [exact Hhex | apply getChecksumAddress_0x].
  - destruct (ethers.is_icap a); [|discriminate].
    destruct (String.eqb _ _); [|discriminate]. intros [= <-].
    eexists. split; [|apply getChecksumAddress_0x].
    unfold padStart0, toString16. rewrite !chars_text, forallb_app.
    rewrite forallb_repeat by reflexivity. apply digits16_is_hex.
Qed.

(** A returned address of forty-two characters is a fixed point of
    [getAddress] and starts with [0x]. *)
Lemma getAddress_fixed a n :
  ethers.getAddress a = Ok n -> String.length n = 42%nat ->
  ethers.getAddress n = Ok n /\ startsWith n "0x" = true.
Proof.
  intros Ha Hlen. destruct (getAddress_Ok_shape a n Ha) as (h & Hhex & ->).
  rewrite length_checksummed in Hlen. split.
  - apply getAddress_checksummed; [lia | exact Hhex].
  - apply startsWith_0x.
Qed.

(** ** The decoder on a value cut into its three fields *)

Lemma decode_unfold valueHex :
  decodeAgentRegistryRecord valueHex =
  if negb (startsWith valueHex "0x")
  then Throw (JsError "CAIP-350 segment must start with 0x") else
  if (String.length valueHex <? 44)%nat
  then Throw (JsError "Agent registry record value too short") else
  decode_fields (slice valueHex 0 42) (slice valueHex 42 44) (slice_from valueHex 44).
Proof. reflexivity. Qed.

Section Fields.
Variables a l p : string.
Hypothesis Ha : String.length a = 42%nat.
Hypothesis Hl : String.length l = 2%nat.

Lemma fields_length : String.length (a +:+ l +:+ p) = (44 + String.length p)%nat.
Proof. rewrite <- !length_chars, !chars_app, !length_app, !length_chars. lia. Qed.

Lemma fields_address : slice (a +:+ l +:+ p) 0 42 = a.
Proof.
  unfold slice. rewrite chars_app, drop_0. change (42 - 0)%nat with 42%nat.
  rewrite take_app_length' by (now rewrite length_chars). apply text_chars.
Qed.

Lemma fields_length_field : slice (a +:+ l +:+ p) 42 44 = l.
Proof.
  unfold slice. rewrite !chars_app.
  rewrite drop_app_length' by (now rewrite length_chars).
  change (44 - 42)%nat with 2%nat.
  rewrite take_app_length' by (now rewrite length_chars). apply text_chars.
Qed.

Lemma fields_payload : slice_from (a +:+ l +:+ p) 44 = p.
Proof.
  unfold slice_from. rewrite !chars_app, app_assoc.
  rewrite drop_app_length' by (rewrite length_app, !length_chars; lia).
  apply text_chars.
Qed.

Lemma fields_startsWith : startsWith (a +:+ l +:+ p) "0x" = startsWith a "0x".
Proof.
  unfold startsWith. rewrite chars_app. rewrite <- length_chars in Ha.
  destruct (chars a) as [|c1 [|c2 t]]; try discriminate. reflexivity.
Qed.

Lemma decode_of_fields :
  decodeAgentRegistryRecord (a +:+ l +:+ p) =
  if negb (startsWith a "0x")
  then Throw (JsError "CAIP-350 segment must start with 0x")
  else decode_fields a l p.
Proof.
  rewrite decode_unfold, fields_startsWith, fields_length, fields_address,
    fields_length_field, fields_payload.
  destruct (Nat.ltb_spec (44 + String.length p) 44); [lia | reflexivity].
Qed.

End Fields.

(** Every value of at least forty-four characters is cut that way. *)
Lemma fields_of_value s :
  (44 <= String.length s)%nat ->
  s = slice s 0 42 +:+ slice s 42 44 +:+ slice_from s 44
  /\ String.length (slice s 0 42) = 42%nat
  /\ String.length (slice s 42 44) = 2%nat.
Proof.
  intros H. rewrite <- length_chars in H. unfold slice, slice_from.
  rewrite <- !length_chars, !chars_text.
  change (drop 0 (chars s)) with (chars s). change (44 - 42)%nat with 2%nat.
  change (42 - 0)%nat with 42%nat.
  split; [|rewrite !length_take, ?length_drop; lia].
  apply chars_inj. rewrite !chars_app, !chars_text.
  rewrite <- (take_drop 42 (chars s)) at 1. f_equal.
  rewrite <- (take_drop 2 (drop 42 (chars s))) at 1. f_equal.
  now rewrite drop_drop.
Qed.

(** ** The encoder *)

Lemma even_digits_bytes value :
  (0 <= value)%Z ->
  let h := even_digits value in
  ethers.getBytes ("0x" +:+ h) = Ok (ethers.pairs_to_bytes (chars h))
  /\ toLowerCase (slice_from (ethers.hexlify (ethers.pairs_to_bytes (chars h))) 2) = h
  /\ toLowerCase h = h
  /\ chars (ethers.hexlify (ethers.pairs_to_bytes (chars h))) = chars ("0x" +:+ h).
Proof.
  intros Hv h. destruct (even_digits_spec value Hv) as (Hlow & _ & k & Hlen & _).
  fold h in Hlow, Hlen.
  pose proof (forallb_lower_hex_is_hex _ Hlow) as Hhex.
  assert (Heven : Nat.even (length (chars h)) = true).
  { rewrite Hlen. apply Nat.even_spec. now exists k. }
  assert (Hdig : flat_map ethers.byte_digits (ethers.pairs_to_bytes (chars h)) = chars h).
  { rewrite pairs_to_bytes_digits by assumption. now apply map_lower_lower_hex. }
  repeat split.
  - rewrite getBytes_0x, <- length_chars, Heven, Hhex. reflexivity.
  - unfold toLowerCase, slice_from. rewrite chars_hexlify, chars_text.
    change (drop 2 ("0"%char :: "x"%char :: ?l)) with l. rewrite Hdig.
    rewrite map_lower_lower_hex by assumption. apply text_chars.
  - now apply toLowerCase_lower_hex.
  - rewrite chars_hexlify, Hdig, chars_app. reflexivity.
Qed.

Lemma encode_spec registryAddress agentId normalized :
  ethers.getAddress registryAddress = Ok normalized ->
  (0 <= agentId)%Z ->
  encodeAgentRegistryRecord registryAddress agentId =
  Ok (normalized
      +:+ length_field (length (ethers.pairs_to_bytes (chars (even_digits agentId))))
      +:+ even_digits agentId).
Proof.
  intros Ha Hv. unfold encodeAgentRegistryRecord.
  destruct (even_digits_bytes agentId Hv) as (Hb & Hh & _).
  rewrite Ha, (toBeHex_nonneg _ Hv). cbn [mbind result_bind].
  rewrite Hb. cbn [mbind result_bind]. rewrite Hh. reflexivity.
Qed.

Lemma pow256_2040 : (2 ^ 2040 = 256 ^ Z.of_nat 255)%Z.
Proof. change 256%Z with (2 ^ 8)%Z. now rewrite <- Z.pow_mul_r by lia. Qed.

(** The byte count [k] of the payload for an agent id below [2^2040]. *)
Lemma payload_bytes agentId :
  (0 <= agentId < 2 ^ 2040)%Z ->
  exists k,
    length (ethers.pairs_to_bytes (chars (even_digits agentId))) = k
    /\ String.length (even_digits agentId) = (2 * k)%nat
    /\ (1 <= k <= 255)%nat
    /\ (256 ^ Z.of_nat (k - 1) <= Z.max 1 agentId < 256 ^ Z.of_nat k)%Z.
Proof.
  intros [Hv Hub].
  destruct (even_digits_spec agentId Hv) as (_ & _ & k & Hlen & Hk & Hlt & Hge).
  exists k. rewrite <- length_chars.
  assert (Heven : Nat.even (length (chars (even_digits agentId))) = true).
  { rewrite Hlen. apply Nat.even_spec. now exists k. }
  pose proof (pairs_to_bytes_length _ Heven) as Hb.
  assert (H1 : (256 ^ 1 <= 256 ^ Z.of_nat k)%Z) by (apply Z.pow_le_mono_r; lia).
  change (256 ^ 1)%Z with 256%Z in H1.
  assert (Hk255 : (k <= 255)%nat).
  { destruct (Nat.le_gt_cases k 255) as [|Hgt]; [assumption | exfalso].
    rewrite pow256_2040 in Hub.
    assert (256 ^ Z.of_nat 255 <= 256 ^ Z.of_nat (k - 1))%Z
      by (apply Z.pow_le_mono_r; lia).
    assert (1 <= 256 ^ Z.of_nat 255)%Z by (apply Z.pow_le_mono_r with (b := 0%Z); lia).
    lia. }
  repeat split; try assumption; try lia.
Qed.

Lemma BigInt_even_digits agentId :
  (0 <= agentId)%Z ->
  BigInt (ethers.hexlify (ethers.pairs_to_bytes (chars (even_digits agentId)))) = Ok agentId.
Proof.
  intros Hv. destruct (even_digits_bytes agentId Hv) as (_ & _ & _ & Hc).
  destruct (even_digits_spec agentId Hv) as (Hlow & Hval & k & Hlen & Hk & _).
  unfold BigInt. rewrite Hc, chars_app.
  change (chars "0x") with ["0"%char; "x"%char]. cbn [app ethers.is_0x drop length].
  change (drop 0 ?l) with l. rewrite Hlen, (forallb_lower_hex_is_hex _ Hlow), Hval.
  destruct k; [lia | reflexivity].
Qed.

(** C3. For every registry address that [getAddress] accepts as a 20-byte
    address and every agent id in [[0, 2^2040)], encoding a record value and
    decoding it again yields the checksum-cased address and the agent id. *)
Theorem encode_decode_roundtrip registryAddress tokenId normalized :
  ethers.getAddress registryAddress = Ok normalized ->
  String.length normalized = 42%nat ->
  (0 <= tokenId < 2 ^ 2040)%Z ->
  exists valueHex record,
    encodeAgentRegistryRecord registryAddress tokenId = Ok valueHex
    /\ decodeAgentRegistryRecord valueHex = Ok record
    /\ address record = normalized
    /\ agentId record = tokenId.
Proof.
  intros Ha Hlen Hid.
  destruct (payload_bytes tokenId Hid) as (k & Hk & Hlen2 & Hk255 & _).
  destruct (getAddress_fixed _ _ Ha Hlen) as [Hfix Hsw].
  destruct (length_field_spec k ltac:(lia)) as (Hl2 & Hparse & _).
  destruct (even_digits_bytes tokenId ltac:(lia)) as (Hb & _ & Hlow & _).
  eexists. eexists. split; [apply encode_spec; [exact Ha | lia] |].
  rewrite Hk, decode_of_fields by assumption. rewrite Hsw. cbn [negb].
  unfold decode_fields. rewrite Hparse.
  destruct (Z.ltb_spec (Z.of_nat k) 0) as [|_]; [lia |].
  rewrite Hlow, Hb. cbn [mbind result_bind]. rewrite Hk, Z.eqb_refl. cbn [negb].
  destruct (Nat.eqb_spec k 0) as [|_]; [lia |].
  rewrite BigInt_even_digits by lia. cbn [mbind result_bind]. rewrite Hfix.
  cbn [mbind result_bind]. auto.
Qed.

Lemma encode_decode_roundtrip_witness :
  exists valueHex record,
    encodeAgentRegistryRecord "0x1234567890abcdef1234567890abcdef12345678" 167
      = Ok valueHex
    /\ decodeAgentRegistryRecord valueHex = Ok record
    /\ address record = "0x1234567890AbcdEF1234567890aBcdef12345678"
    /\ agentId record = 167%Z.
Proof.
  apply (encode_decode_roundtrip "0x1234567890abcdef1234567890abcdef12345678" 167
           "0x1234567890AbcdEF1234567890aBcdef12345678").
  - vm_compute. reflexivity.
  - reflexivity.
  - split; [lia | vm_compute; reflexivity].
Defined.

(** C4, counterexample.  Agent id 0 is encoded as the one byte [00] with
    length byte [01], not as zero bytes with length byte [00]. *)
Lemma encode_zero_one_byte :
  encodeAgentRegistryRecord "0xd8dA6BF26964aF9D7eEd9e03E53415D37aA96045" 0
    = Ok "0xd8dA6BF26964aF9D7eEd9e03E53415D37aA960450100"
  /\ slice "0xd8dA6BF26964aF9D7eEd9e03E53415D37aA960450100" 42 44 = "01"
  /\ slice_from "0xd8dA6BF26964aF9D7eEd9e03E53415D37aA960450100" 44 = "00"
  /\ "01" <> "00".
Proof. repeat split; try (vm_compute; reflexivity). discriminate. Qed.

(** C4, as amended.  For every agent id in [[0, 2^2040)] the two-digit
    length field equals the byte count of the payload the encoder writes,
    and the payload is the big-endian encoding of the agent id: the minimal
    one for an agent id of at least 1, the single byte [00] (length byte
    [01]) for agent id 0; agent id [0xa7] gives the byte [a7] with length
    byte [01]. *)
Theorem encode_length_prefix registryAddress tokenId valueHex :
  (0 <= tokenId < 2 ^ 2040)%Z ->
  encodeAgentRegistryRecord registryAddress tokenId = Ok valueHex ->
  exists normalized lengthHex payloadHex bytes k,
    valueHex = normalized +:+ lengthHex +:+ payloadHex
    /\ ethers.getAddress registryAddress = Ok normalized
    /\ String.length lengthHex = 2%nat
    /\ parseInt16 lengthHex = Some (Z.of_nat k)
    /\ ethers.getBytes ("0x" +:+ payloadHex) = Ok bytes
    /\ length bytes = k
    /\ BigInt (ethers.hexlify bytes) = Ok tokenId
    /\ (1 <= tokenId -> 256 ^ Z.of_nat (k - 1) <= tokenId < 256 ^ Z.of_nat k)%Z
    /\ (tokenId = 0%Z -> lengthHex = "01" /\ payloadHex = "00")
    /\ (tokenId = 0xa7%Z -> lengthHex = "01" /\ payloadHex = "a7").
Proof.
  intros Hid Henc.
  destruct (ethers.getAddress registryAddress) as [normalized|e] eqn:Ha;
    [|unfold encodeAgentRegistryRecord in Henc; rewrite Ha in Henc; discriminate].
  rewrite (encode_spec _ _ _ Ha) in Henc by lia. injection Henc as <-.
  destruct (payload_bytes tokenId Hid) as (k & Hk & Hlen2 & Hk255 & Hbounds).
  destruct (length_field_spec k ltac:(lia)) as (Hl2 & Hparse & _).
  destruct (even_digits_bytes tokenId ltac:(lia)) as (Hb & _).
  exists normalized, (length_field k), (even_digits tokenId),
    (ethers.pairs_to_bytes (chars (even_digits tokenId))), k.
  rewrite Hk. repeat split; try assumption.
  - apply BigInt_even_digits. lia.
  - rewrite Z.max_r in Hbounds by lia. apply Hbounds.
  - rewrite Z.max_r in Hbounds by lia. apply Hbounds.
  - subst tokenId. vm_compute in Hk. now subst k.
  - now subst tokenId.
  - subst tokenId. vm_compute in Hk. now subst k.
  - now subst tokenId.
Qed.

Lemma encode_length_prefix_witness :
  exists normalized lengthHex payloadHex bytes k,
    "0x1234567890AbcdEF1234567890aBcdef1234567801a7"
      = normalized +:+ lengthHex +:+ payloadHex
    /\ ethers.getAddress "0x1234567890abcdef1234567890abcdef12345678" = Ok normalized
    /\ String.length lengthHex = 2%nat
    /\ parseInt16 lengthHex = Some (Z.of_nat k)
    /\ ethers.getBytes ("0x" +:+ payloadHex) = Ok bytes
    /\ length bytes = k
    /\ BigInt (ethers.hexlify bytes) = Ok 167%Z
    /\ (1 <= 167 -> 256 ^ Z.of_nat (k - 1) <= 167 < 256 ^ Z.of_nat k)%Z
    /\ (167%Z = 0%Z -> lengthHex = "01" /\ payloadHex = "00")
    /\ (167%Z = 0xa7%Z -> lengthHex = "01" /\ payloadHex = "a7").
Proof.
  apply (encode_length_prefix "0x1234567890abcdef1234567890abcdef12345678" 167).
  - split; [lia | vm_compute; reflexivity].
  - vm_compute. reflexivity.
Defined.

(** ** The length field *)

(** C5, at the failing input.  The slice [[42,44)] is [1g], which is no pair
    of hexadecimal digits; [parseInt] reads its leading digit, so the value is
    decoded with length 1 instead of being rejected with "Invalid agent ID
    length". *)
Theorem decode_accepts_malformed_length_field :
  let valueHex := "0x1234567890abcdef1234567890abcdef123456781ga7" in
  startsWith valueHex "0x" = true
  /\ (44 <= String.length valueHex)%nat
  /\ slice valueHex 42 44 = "1g"
  /\ forallb is_hex (chars (slice valueHex 42 44)) = false
  /\ parseInt16 (slice valueHex 42 44) = Some 1%Z
  /\ decodeAgentRegistryRecord valueHex =
     Ok {| version := 1;
           chainType := 0;
           chainReference := 0;
           address := "0x1234567890AbcdEF1234567890aBcdef12345678";
           agentId := 167 |}.
Proof. cbv zeta. repeat split; try (vm_compute; reflexivity). vm_compute. lia. Qed.

(** What the guard on the length field does reject. *)
Lemma decode_rejects_unparsed_length valueHex :
  startsWith valueHex "0x" = true ->
  (44 <= String.length valueHex)%nat ->
  match parseInt16 (slice valueHex 42 44) with
  | None => True
  | Some n => (n < 0)%Z
  end ->
  decodeAgentRegistryRecord valueHex = Throw (JsError "Invalid agent ID length").
Proof.
  intros Hs Hl Hp. rewrite decode_unfold, Hs. cbn [negb].
  destruct (Nat.ltb_spec (String.length valueHex) 44); [lia |].
  unfold decode_fields. destruct (parseInt16 _) as [n|]; [|reflexivity].
  destruct (Z.ltb_spec n 0); [reflexivity | lia].
Qed.

(** ** Letter case of the address text and of the payload *)

Lemma dot_star_then_none q l :
  forallb (fun c => negb (q c)) l = true -> ethers.dot_star_then q l = false.
Proof.
  induction l as [|c l IH]; intros H; [reflexivity |].
  simpl in H. apply andb_true_iff in H as [Hc H]. apply negb_true_iff in Hc.
  simpl. rewrite Hc, IH by assumption. now rewrite andb_false_r.
Qed.

Lemma search_then_no_second p q l :
  forallb (fun c => negb (q c)) l = true -> ethers.search_then p q l = false.
Proof.
  induction l as [|c l IH]; intros H; [reflexivity |].
  simpl in H. apply andb_true_iff in H as [Hc H].
  simpl. rewrite IH, dot_star_then_none by assumption. now rewrite andb_false_r.
Qed.

Lemma search_then_no_first p q l :
  forallb (fun c => negb (p c)) l = true -> ethers.search_then p q l = false.
Proof.
  induction l as [|c l IH]; intros H; [reflexivity |].
  simpl in H. apply andb_true_iff in H as [Hc H]. apply negb_true_iff in Hc.
  simpl. now rewrite Hc, IH.
Qed.

Lemma not_upper_AF_lower c : negb (is_upper_AF (lower_char c)) = true.
Proof. by_cases_on_ascii c. Qed.

Lemma not_lower_af_upper c : negb (is_lower_af (upper_char c)) = true.
Proof. by_cases_on_ascii c. Qed.

Lemma lower_upper c : Ascii.eqb (lower_char (upper_char c)) (lower_char c) = true.
Proof. by_cases_on_ascii c. Qed.

Lemma forallb_map {A B} (p : B -> bool) (f : A -> B) l :
  (forall x, p (f x) = true) -> forallb p (List.map f l) = true.
Proof. intros H. induction l as [|x l IH]; simpl; [reflexivity | now rewrite H, IH]. Qed.

Lemma not_mixed_lower h : ethers.is_mixed_case ("0x" +:+ toLowerCase h) = false.
Proof.
  unfold ethers.is_mixed_case, toLowerCase. rewrite chars_app, chars_text.
  rewrite search_then_no_first, search_then_no_second; [reflexivity | |];
    change (chars "0x") with ["0"%char; "x"%char]; cbn [app forallb];
    rewrite forallb_map by apply not_upper_AF_lower; reflexivity.
Qed.

Lemma not_mixed_upper h : ethers.is_mixed_case ("0x" +:+ toUpperCase h) = false.
Proof.
  unfold ethers.is_mixed_case, toUpperCase. rewrite chars_app, chars_text.
  rewrite search_then_no_second, search_then_no_first; [reflexivity | |];
    change (chars "0x") with ["0"%char; "x"%char]; cbn [app forallb];
    rewrite forallb_map by apply not_lower_af_upper; reflexivity.
Qed.

Lemma map_lower_upper l :
  List.map lower_char (List.map upper_char l) = List.map lower_char l.
Proof.
  rewrite List.map_map. apply List.map_ext. intros c. apply Ascii.eqb_eq, lower_upper.
Qed.

Lemma toLowerCase_toUpperCase s : toLowerCase (toUpperCase s) = toLowerCase s.
Proof. unfold toLowerCase, toUpperCase. now rewrite chars_text, map_lower_upper. Qed.

Lemma toLowerCase_idem s : toLowerCase (toLowerCase s) = toLowerCase s.
Proof. unfold toLowerCase. now rewrite chars_text, map_lower_idem. Qed.

Lemma checksummed_lower h : checksummed (toLowerCase h) = checksummed h.
Proof. unfold checksummed, toLowerCase. now rewrite chars_text, map_lower_idem. Qed.

Lemma checksummed_upper h : checksummed (toUpperCase h) = checksummed h.
Proof. unfold checksummed, toUpperCase. now rewrite chars_text, map_lower_upper. Qed.

Lemma forallb_is_hex_upper l :
  forallb is_hex (List.map upper_char l) = forallb is_hex l.
Proof. induction l as [|c l IH]; simpl; [reflexivity |]. now rewrite is_hex_upper_eq, IH. Qed.

Lemma length_toLowerCase s : String.length (toLowerCase s) = String.length s.
Proof. unfold toLowerCase. now rewrite <- !length_chars, chars_text, length_map. Qed.

Lemma length_toUpperCase s : String.length (toUpperCase s) = String.length s.
Proof. unfold toUpperCase. now rewrite <- !length_chars, chars_text, length_map. Qed.

(** The payload of [k] bytes, written with digits of either case. *)
Lemma decode_payload k payload :
  String.length payload = (2 * k)%nat ->
  forallb is_hex (chars payload) = true ->
  exists bytes,
    ethers.getBytes ("0x" +:+ toLowerCase payload) = Ok bytes
    /\ length bytes = k
    /\ (if (length bytes =? 0)%nat then Ok 0%Z else BigInt (ethers.hexlify bytes))
       = Ok (digits_value (chars payload)).
Proof.
  intros Hlen Hhex.
  set (low := List.map lower_char (chars payload)).
  assert (Hlow : chars (toLowerCase payload) = low)
    by (unfold toLowerCase; now rewrite chars_text).
  assert (Hlowhex : forallb is_hex low = true)
    by (unfold low; now rewrite forallb_is_hex_lower).
  assert (Hlowlen : length low = (2 * k)%nat)
    by (unfold low; now rewrite length_map, length_chars).
  assert (Heven : Nat.even (length low) = true)
    by (rewrite Hlowlen; apply Nat.even_spec; now exists k).
  exists (ethers.pairs_to_bytes low).
  pose proof (pairs_to_bytes_length low Heven) as Hb.
  split; [|split].
  - rewrite getBytes_0x, <- length_chars, Hlow, Heven, Hlowhex. reflexivity.
  - lia.
  - destruct (Nat.eqb_spec (length (ethers.pairs_to_bytes low)) 0) as [Hz|Hnz].
    + assert (Hnil : chars payload = []).
      { apply length_zero_iff_nil. rewrite length_chars. lia. }
      now rewrite Hnil.
    + unfold BigInt. rewrite chars_hexlify, pairs_to_bytes_digits by assumption.
      replace (List.map lower_char low) with low
        by (unfold low; now rewrite map_lower_idem).
      cbn [ethers.is_0x drop length]. rewrite drop_0, Hlowhex.
      change (("x" =? "x")%char || ("x" =? "X")%char) with true.
      destruct (length low) eqn:Hl0; [lia |].
      cbn [Nat.eqb negb andb]. unfold low. now rewrite digits_value_lower.
Qed.

(** C10. The address text may be written in lower case or in upper case
    and is returned in checksum case; among the texts of [0x] and forty
    digits, the decoder rejects exactly those that mix the two cases and
    differ from the checksum casing; the payload digits may be written in
    either case. *)
Theorem decode_letter_case h k payload :
  String.length h = 40%nat -> forallb is_hex (chars h) = true ->
  (k <= 255)%nat ->
  String.length payload = (2 * k)%nat -> forallb is_hex (chars payload) = true ->
  let accepted :=
    Ok {| version := 1; chainType := 0; chainReference := 0;
          address := checksummed h;
          agentId := digits_value (chars payload) |} in
  decodeAgentRegistryRecord ("0x" +:+ toLowerCase h +:+ length_field k +:+ payload)
    = accepted
  /\ decodeAgentRegistryRecord ("0x" +:+ toUpperCase h +:+ length_field k +:+ payload)
    = accepted
  /\ decodeAgentRegistryRecord ("0x" +:+ h +:+ length_field k +:+ payload)
    = (if ethers.is_mixed_case ("0x" +:+ h)
          && negb (String.eqb (checksummed h) ("0x" +:+ h))
       then Throw (InvalidArgument "bad address checksum")
       else accepted)
  /\ decodeAgentRegistryRecord
       ("0x" +:+ h +:+ length_field k +:+ toUpperCase payload)
     = decodeAgentRegistryRecord ("0x" +:+ h +:+ length_field k +:+ payload).
Proof.
  intros Hlen Hhex Hk Hplen Phex accepted.
  destruct (length_field_spec k Hk) as (Hl2 & Hparse & _).
  assert (Hgen : forall g p,
    String.length g = 40%nat -> forallb is_hex (chars g) = true ->
    toLowerCase p = toLowerCase payload ->
    decodeAgentRegistryRecord ("0x" +:+ g +:+ length_field k +:+ p) =
    (n ← ethers.getAddress ("0x" +:+ g);
     Ok {| version := 1; chainType := 0; chainReference := 0; address := n;
           agentId := digits_value (chars payload) |})).
  { intros g p Hg Hgh Hp.
    change ("0x" +:+ g +:+ length_field k +:+ p)
      with (("0x" +:+ g) +:+ length_field k +:+ p).
    rewrite decode_of_fields
      by first [exact Hl2
               | rewrite <- length_chars, chars_app, length_app, !length_chars, Hg;
                 reflexivity].
    rewrite startsWith_0x. cbn [negb]. unfold decode_fields.
    rewrite Hparse, Hp. destruct (Z.ltb_spec (Z.of_nat k) 0) as [|_]; [lia |].
    destruct (decode_payload k payload Hplen Phex) as (bytes & -> & Hb & Hv).
    cbn [mbind result_bind]. rewrite Hb, Z.eqb_refl. cbn [negb].
    rewrite Hb in Hv. rewrite Hv. reflexivity. }
  repeat split.
  - rewrite Hgen; try reflexivity.
    + rewrite getAddress_hex, not_mixed_lower, checksummed_lower; try reflexivity.
      * now rewrite length_toLowerCase.
      * unfold toLowerCase. now rewrite chars_text, forallb_is_hex_lower.
    + now rewrite length_toLowerCase.
    + unfold toLowerCase. now rewrite chars_text, forallb_is_hex_lower.
  - rewrite Hgen; try reflexivity.
    + rewrite getAddress_hex, not_mixed_upper, checksummed_upper; try reflexivity.
      * now rewrite length_toUpperCase.
      * unfold toUpperCase. now rewrite chars_text, forallb_is_hex_upper.
    + now rewrite length_toUpperCase.
    + unfold toUpperCase. now rewrite chars_text, forallb_is_hex_upper.
  - rewrite Hgen, getAddress_hex by (try reflexivity; assumption).
    now destruct (_ && _).
  - rewrite !Hgen; try reflexivity; try assumption.
    apply toLowerCase_toUpperCase.
Qed.

Lemma decode_letter_case_witness :
  let h := "1234567890abcdef1234567890aBcdef12345678" in
  let accepted :=
    Ok {| version := 1; chainType := 0; chainReference := 0;
          address := checksummed h;
          agentId := digits_value (chars "a7") |} in
  decodeAgentRegistryRecord ("0x" +:+ toLowerCase h +:+ length_field 1 +:+ "a7")
    = accepted
  /\ decodeAgentRegistryRecord ("0x" +:+ toUpperCase h +:+ length_field 1 +:+ "a7")
    = accepted
  /\ decodeAgentRegistryRecord ("0x" +:+ h +:+ length_field 1 +:+ "a7")
    = (if ethers.is_mixed_case ("0x" +:+ h)
          && negb (String.eqb (checksummed h) ("0x" +:+ h))
       then Throw (InvalidArgument "bad address checksum")
       else accepted)
  /\ decodeAgentRegistryRecord
       ("0x" +:+ h +:+ length_field 1 +:+ toUpperCase "a7")
     = decodeAgentRegistryRecord ("0x" +:+ h +:+ length_field 1 +:+ "a7").
Proof.
  apply (decode_letter_case "1234567890abcdef1234567890aBcdef12345678" 1 "a7").
  - reflexivity.
  - vm_compute. reflexivity.
  - lia.
  - reflexivity.
  - vm_compute. reflexivity.
Defined.

(** ** The matcher *)

Lemma recordMatchesAgent_true_iff record expected :
  recordMatchesAgent record expected = Ok true <->
    version record = 1%Z
    /\ chainType record = CAIP_NAMESPACE_CODES_eip155
    /\ chainReference record = Expected.chainId expected
    /\ ethers.getAddress_any (Expected.registryAddress expected) = Ok (address record)
    /\ agentId record = Expected.agentId expected.
Proof.
  unfold recordMatchesAgent.
  destruct (Z.eqb_spec (version record) 1) as [Hv|Hv];
    [|split; [discriminate | tauto]].
  destruct (Z.eqb_spec (chainType record) CAIP_NAMESPACE_CODES_eip155) as [Ht|Ht];
    [|split; [discriminate | tauto]].
  cbn [negb orb].
  destruct (Z.eqb_spec (chainReference record) (Expected.chainId expected)) as [Hc|Hc];
    [|split; [discriminate | tauto]].
  cbn [negb].
  destruct (ethers.getAddress_any (Expected.registryAddress expected)) as [n|e];
    [|split; [discriminate | intros (_ & _ & _ & ? & _); discriminate]].
  cbn [mbind result_bind].
  destruct (String.eqb_spec n (address record)) as [Hn|Hn];
    [|split; [discriminate | intros (_ & _ & _ & [= ?] & _); contradiction]].
  cbn [negb].
  destruct (Z.eqb_spec (agentId record) (Expected.agentId expected)) as [Hi|Hi];
    [|split; [discriminate | tauto]].
  subst n. tauto.
Qed.

(** C2, counterexample.  The expected registry address is changed from the
    checksum-cased text to the lower-case text of the same address, chain id
    and agent id stay fixed, and the result stays [true]. *)
Lemma recordMatchesAgent_change_of_case :
  let record :=
    {| version := 1; chainType := 0; chainReference := 1;
       address := "0xd8dA6BF26964aF9D7eEd9e03E53415D37aA96045"; agentId := 42 |} in
  let expected :=
    {| Expected.chainId := 1;
       Expected.registryAddress := VString "0xd8dA6BF26964aF9D7eEd9e03E53415D37aA96045";
       Expected.agentId := 42 |} in
  let changed :=
    {| Expected.chainId := 1;
       Expected.registryAddress := VString "0xd8da6bf26964af9d7eed9e03e53415d37aa96045";
       Expected.agentId := 42 |} in
  recordMatchesAgent record expected = Ok true
  /\ Expected.registryAddress changed <> Expected.registryAddress expected
  /\ Expected.chainId changed = Expected.chainId expected
  /\ Expected.agentId changed = Expected.agentId expected
  /\ recordMatchesAgent record changed = Ok true.
Proof. cbv zeta. repeat split; try (vm_compute; reflexivity). discriminate. Qed.

(** C2, as amended.  [recordMatchesAgent] returns [true] if and only if
    version, namespace code, chain reference, checksum-normalized expected
    registry address and agent id all match; from a match, changing the
    expected chain id or the expected agent id to another value, or the
    expected registry address to one whose checksum-normalized form is
    another address, makes the result [false]. *)
Theorem recordMatchesAgent_conjunctive record expected :
  (recordMatchesAgent record expected = Ok true <->
     version record = 1%Z
     /\ chainType record = 0%Z
     /\ chainReference record = Expected.chainId expected
     /\ ethers.getAddress_any (Expected.registryAddress expected) = Ok (address record)
     /\ agentId record = Expected.agentId expected)
  /\ (recordMatchesAgent record expected = Ok true ->
      (forall chainId', chainId' <> Expected.chainId expected ->
         recordMatchesAgent record
           {| Expected.chainId := chainId';
              Expected.registryAddress := Expected.registryAddress expected;
              Expected.agentId := Expected.agentId expected |} = Ok false)
      /\ (forall agentId', agentId' <> Expected.agentId expected ->
         recordMatchesAgent record
           {| Expected.chainId := Expected.chainId expected;
              Expected.registryAddress := Expected.registryAddress expected;
              Expected.agentId := agentId' |} = Ok false)
      /\ (forall registryAddress' normalized',
         ethers.getAddress_any registryAddress' = Ok normalized' ->
         normalized' <> address record ->
         recordMatchesAgent record
           {| Expected.chainId := Expected.chainId expected;
              Expected.registryAddress := registryAddress';
              Expected.agentId := Expected.agentId expected |} = Ok false)).
Proof.
  split; [apply recordMatchesAgent_true_iff |].
  intros H. apply recordMatchesAgent_true_iff in H as (Hv & Ht & Hc & Ha & Hi).
  unfold recordMatchesAgent. cbn [Expected.chainId Expected.registryAddress Expected.agentId].
  rewrite Hv, Ht, !Z.eqb_refl. cbn [negb orb]. repeat split.
  - intros c Hne. destruct (Z.eqb_spec (chainReference record) c); [congruence | reflexivity].
  - intros i Hne. rewrite Hc, Z.eqb_refl, Ha. cbn [negb mbind result_bind].
    rewrite String.eqb_refl. cbn [negb].
    destruct (Z.eqb_spec (agentId record) i); [congruence | reflexivity].
  - intros a n Hn Hne. rewrite Hc, Z.eqb_refl, Hn. cbn [negb mbind result_bind].
    destruct (String.eqb_spec n (address record)); [contradiction | reflexivity].
Qed.

Lemma recordMatchesAgent_conjunctive_witness :
  let record :=
    {| version := 1; chainType := 0; chainReference := 1;
       address := "0xd8dA6BF26964aF9D7eEd9e03E53415D37aA96045"; agentId := 42 |} in
  recordMatchesAgent record
    {| Expected.chainId := 1;
       Expected.registryAddress := VString "0xd8da6bf26964af9d7eed9e03e53415d37aa96045";
       Expected.agentId := 42 |} = Ok true
  /\ recordMatchesAgent record
       {| Expected.chainId := 5;
          Expected.registryAddress := VString "0xd8da6bf26964af9d7eed9e03e53415d37aa96045";
          Expected.agentId := 42 |} = Ok false
  /\ recordMatchesAgent record
       {| Expected.chainId := 1;
          Expected.registryAddress := VString "0xd8da6bf26964af9d7eed9e03e53415d37aa96045";
          Expected.agentId := 43 |} = Ok false
  /\ recordMatchesAgent record
       {| Expected.chainId := 1;
          Expected.registryAddress := VString "0xabcdefabcdefabcdefabcdefabcdefabcdefabcd";
          Expected.agentId := 42 |} = Ok false.
Proof.
  intros record.
  set (expected :=
    {| Expected.chainId := 1;
       Expected.registryAddress := VString "0xd8da6bf26964af9d7eed9e03e53415d37aa96045";
       Expected.agentId := 42 |}).
  assert (Hmatch : recordMatchesAgent record expected = Ok true)
    by (vm_compute; reflexivity).
  destruct (recordMatchesAgent_conjunctive record expected) as [_ Hchange].
  destruct (Hchange Hmatch) as (Hchain & Hid & Haddr).
  split; [exact Hmatch |]. split; [|split].
  - apply (Hchain 5%Z). discriminate.
  - apply (Hid 43%Z). discriminate.
  - apply (Haddr (VString "0xabcdefabcdefabcdefabcdefabcdefabcdefabcd")
             "0xABcdEFABcdEFabcdEfAbCdefabcdeFABcDEFabCD").
    + vm_compute. reflexivity.
    + discriminate.
Defined.

(** ** The fetcher and the loader *)

Lemma fetch_cases provider ensName recordKey :
  fetchAgentRegistryRecord provider ensName recordKey =
  match getResolver provider ensName with
  | Ok (Some resolver) =>
      ([GetResolver ensName; GetText (toLowerCase recordKey)],
       Ok match getText resolver (toLowerCase recordKey) with
          | Ok text => text
          | Throw _ => VNull
          end)
  | _ => ([GetResolver ensName], Ok VNull)
  end.
Proof.
  unfold fetchAgentRegistryRecord, await_try.
  destruct (getResolver provider ensName) as [[resolver|]|e]; try reflexivity.
  now destruct (getText resolver (toLowerCase recordKey)).
Qed.

Lemma fetch_returns provider ensName recordKey :
  exists fetched, outcome (fetchAgentRegistryRecord provider ensName recordKey) = Ok fetched.
Proof.
  rewrite fetch_cases.
  destruct (getResolver provider ensName) as [[resolver|]|e]; eexists; reflexivity.
Qed.

Lemma load_cases bfp provider ensName chainId namespace recordKey fetched :
  buildAgentRegistryRecordKey bfp chainId namespace = Ok recordKey ->
  outcome (fetchAgentRegistryRecord provider ensName recordKey) = Ok fetched ->
  loadAgentRegistryRecord bfp provider ensName chainId namespace =
  (calls (fetchAgentRegistryRecord provider ensName recordKey),
   Ok (loaded fetched chainId)).
Proof.
  intros Hkey Hfetch. unfold loadAgentRegistryRecord, loaded. rewrite Hkey.
  unfold lift. cbn [mbind io_bind].
  destruct (fetchAgentRegistryRecord provider ensName recordKey) as [t r].
  cbn in Hfetch. subst r. cbn [mbind io_bind mret io_ret calls fst app].
  destruct (negb (truthy fetched)); [cbn [mret io_ret]; now rewrite app_nil_r |].
  destruct (decode_value fetched); cbn [mret io_ret]; now rewrite app_nil_r.
Qed.

Lemma getBytes_length_0x h bytes :
  ethers.getBytes ("0x" +:+ h) = Ok bytes ->
  (2 * length bytes)%nat = String.length h /\ forallb is_hex (chars h) = true.
Proof.
  rewrite getBytes_0x. destruct (Nat.even (String.length h)) eqn:He; [|discriminate].
  destruct (forallb is_hex (chars h)); [|discriminate]. intros [= <-].
  rewrite <- length_chars in *. split; [now apply pairs_to_bytes_length | reflexivity].
Qed.

Lemma decode_rejects_malformed valueHex :
  detected_malformation valueHex -> exists e, decodeAgentRegistryRecord valueHex = Throw e.
Proof.
  intros Hm. rewrite decode_unfold.
  destruct (startsWith valueHex "0x") eqn:Hs; [|eexists; reflexivity]. cbn [negb].
  destruct (Nat.ltb_spec (String.length valueHex) 44) as [|Hlen]; [eexists; reflexivity |].
  unfold decode_fields.
  destruct (parseInt16 (slice valueHex 42 44)) as [n|] eqn:Hp; [|eexists; reflexivity].
  destruct (n <? 0)%Z; [eexists; reflexivity |].
  destruct (ethers.getBytes _) as [bytes|e] eqn:Hb; [|eexists; reflexivity].
  cbn [mbind result_bind].
  apply getBytes_length_0x in Hb as [Hbl Hbh].
  rewrite length_toLowerCase in Hbl.
  unfold toLowerCase in Hbh. rewrite chars_text, forallb_is_hex_lower in Hbh.
  destruct (Z.eqb_spec (Z.of_nat (length bytes)) n) as [Hn|Hn]; [|eexists; reflexivity].
  cbn [negb].
  destruct (if (length bytes =? 0)%nat then _ else _) as [i|e]; [|eexists; reflexivity].
  cbn [mbind result_bind].
  destruct (ethers.getAddress _) as [a|e] eqn:Ha; [|eexists; reflexivity].
  exfalso.
  destruct Hm as [H|[H|[H|[H|[H|[(d & Hd & H)|(e & H)]]]]]]; try congruence; try lia.
  - assert (Hodd : Nat.odd (2 * length bytes) = false).
    { rewrite <- Nat.negb_even. apply negb_false_iff, Nat.even_spec.
      now exists (length bytes). }
    congruence.
  - rewrite Hp in Hd. injection Hd as <-. lia.
Qed.

(** What the loader does close on.  Once the key is built,
    [loadAgentRegistryRecord] never throws: it resolves to null when the
    fetched value is absent (falsy) or when the decoder rejects it, which it
    does for each malformation it detects, and otherwise to the decoded
    record with [chainReference] replaced by the chain id the key was built
    from. *)
Theorem loadAgentRegistryRecord_fail_closed
    bfp provider ensName chainId namespace recordKey :
  buildAgentRegistryRecordKey bfp chainId namespace = Ok recordKey ->
  exists fetched,
    outcome (fetchAgentRegistryRecord provider ensName recordKey) = Ok fetched
    /\ outcome (loadAgentRegistryRecord bfp provider ensName chainId namespace)
       = Ok (if negb (truthy fetched) then None
             else match decode_value fetched with
                  | Ok decoded =>
                      Some {| version := version decoded;
                              chainType := chainType decoded;
                              chainReference := chainId;
                              address := address decoded;
                              agentId := agentId decoded |}
                  | Throw _ => None
                  end)
    /\ (truthy fetched = false ->
        outcome (loadAgentRegistryRecord bfp provider ensName chainId namespace)
        = Ok None)
    /\ (forall valueHex, fetched = VString valueHex -> detected_malformation valueHex ->
        outcome (loadAgentRegistryRecord bfp provider ensName chainId namespace)
        = Ok None).
Proof.
  intros Hkey. destruct (fetch_returns provider ensName recordKey) as [fetched Hf].
  exists fetched. rewrite (load_cases _ _ _ _ _ _ _ Hkey Hf).
  cbn [outcome snd]. unfold loaded. repeat split; try assumption.
  - intros ->. reflexivity.
  - intros valueHex -> Hm. destruct (decode_rejects_malformed _ Hm) as [e He].
    cbn [decode_value]. rewrite He. now destruct (negb _).
Qed.

Lemma loadAgentRegistryRecord_fail_closed_witness :
  let provider := mock_provider (VString "d8dA6BF26964aF9D7eEd9e03E53415D37aA96045012a") in
  let load :=
    loadAgentRegistryRecord Interop.buildFromPayload_erc7930 provider
      "test-agent.eth" 1 "eip155" in
  exists fetched,
    outcome (fetchAgentRegistryRecord provider "test-agent.eth"
               "agent-registry:00010000010100") = Ok fetched
    /\ outcome load
       = Ok (if negb (truthy fetched) then None
             else match decode_value fetched with
                  | Ok decoded =>
                      Some {| version := version decoded;
                              chainType := chainType decoded;
                              chainReference := 1;
                              address := address decoded;
                              agentId := agentId decoded |}
                  | Throw _ => None
                  end)
    /\ (truthy fetched = false -> outcome load = Ok None)
    /\ (forall valueHex, fetched = VString valueHex -> detected_malformation valueHex ->
        outcome load = Ok None).
Proof.
  intros provider load.
  apply (loadAgentRegistryRecord_fail_closed Interop.buildFromPayload_erc7930
           provider "test-agent.eth" 1 "eip155" "agent-registry:00010000010100").
  vm_compute. reflexivity.
Defined.

(** C7, at the failing input.  The resolver serves a value whose length
    field is [1g], no pair of hexadecimal digits.  The decoder reads the
    field as 1 and accepts the value, so the loader resolves to a record,
    with agent id 167 and the chain id of the key, instead of null; with
    that record [verifyENSName] returns [true] for the agent [1:167]. *)
Theorem loadAgentRegistryRecord_returns_malformed_record :
  let valueHex := "0x1234567890abcdef1234567890abcdef123456781ga7" in
  let provider := mock_provider (VString valueHex) in
  let run :=
    loadAgentRegistryRecord Interop.buildFromPayload_erc7930 provider
      "test-agent.eth" 1 "eip155" in
  let this :=
    {| sdk := {| web3Client_provider := provider;
                 getIdentityRegistry :=
                   mock_registry (VString "0x1234567890abcdef1234567890abcdef12345678") |};
       registrationFile :=
         {| RegistrationFile.agentId := Some "1:167";
            RegistrationFile.endpoints :=
              [ {| type := ENS; value := "test-agent.eth" |} ] |} |} in
  slice valueHex 42 44 = "1g"
  /\ forallb is_hex (chars (slice valueHex 42 44)) = false
  /\ calls run = [GetResolver "test-agent.eth"; GetText "agent-registry:00010000010100"]
  /\ outcome run
     = Ok (Some {| version := 1;
                   chainType := 0;
                   chainReference := 1;
                   address := "0x1234567890AbcdEF1234567890aBcdef12345678";
                   agentId := 167 |})
  /\ outcome (run_verify this) = Ok true.
Proof. cbv zeta. repeat split; vm_compute; reflexivity. Qed.

(** ** [Agent.verifyENSName] *)

Lemma verifyENSName_cases bfp parse this :
  verifyENSName bfp parse this = verify_cases bfp parse this.
Proof.
  unfold verifyENSName, verify_cases.
  destruct (absent _ || absent _); [reflexivity |].
  destruct (parse _) as [[chainId tokenId]|e]; [|reflexivity].
  destruct (buildAgentRegistryRecordKey bfp chainId "eip155") as [recordKey|e] eqn:Hkey;
    [|unfold loadAgentRegistryRecord; rewrite Hkey; reflexivity].
  destruct (fetch_returns (web3Client_provider (sdk this))
              (default "" (ensEndpoint this)) recordKey) as [fetched Hf].
  rewrite (load_cases _ _ _ _ _ _ _ Hkey Hf). unfold verify_after_key.
  rewrite fetch_cases in Hf |- *.
  destruct (getResolver _ _) as [[resolver|]|e];
    cbn in Hf; injection Hf as <-; try reflexivity.
  destruct (getText resolver (toLowerCase recordKey)) as [text|e];
    cbn [calls fst mbind io_bind]; [|reflexivity].
  destruct (loaded text chainId) as [record|]; [|reflexivity].
  unfold await_try.
  destruct (getIdentityRegistry (sdk this)) as [registry|e]; [|reflexivity].
  destruct (getAddress registry) as [registryAddress|e]; reflexivity.
Qed.

(** C6. Whenever the provider's [getResolver], called for the agent's ENS
    name, resolves to null or throws, [verifyENSName] returns [false] and
    neither [sdk.getIdentityRegistry()] nor its [getAddress()] is called. *)
Theorem verifyENSName_absent_resolver bfp parse this ensName :
  let run := verifyENSName bfp parse this in
  In (GetResolver ensName) (calls run) ->
  (getResolver (web3Client_provider (sdk this)) ensName = Ok None
   \/ exists e, getResolver (web3Client_provider (sdk this)) ensName = Throw e) ->
  outcome run = Ok false
  /\ ~ In GetIdentityRegistry (calls run)
  /\ ~ In RegistryGetAddress (calls run).
Proof.
  intros run. subst run. rewrite verifyENSName_cases. unfold verify_cases.
  destruct (absent _ || absent _); [intros [] |].
  destruct (parse _) as [[chainId tokenId]|e]; [|intros []].
  destruct (buildAgentRegistryRecordKey bfp chainId "eip155") as [recordKey|e];
    [|intros []].
  unfold verify_after_key.
  set (name := default "" (ensEndpoint this)).
  destruct (getResolver (web3Client_provider (sdk this)) name)
    as [[resolver|]|e] eqn:Hres.
  - intros Hin Habsent. exfalso.
    assert (Hname : ensName = name).
    { destruct (getText resolver _) as [text|];
        [destruct (loaded text chainId);
          [destruct (getIdentityRegistry (sdk this)) as [registry|];
            [destruct (getAddress registry)|]|]|];
        cbn in Hin; intuition congruence. }
    subst ensName. destruct Habsent as [H|[e H]]; congruence.
  - intros _ _. cbn. intuition congruence.
  - intros _ _. cbn. intuition congruence.
Qed.

(** The [returns false when resolver missing] scenario of the test suite. *)
Lemma verifyENSName_absent_resolver_witness :
  let this :=
    test_agent {| getResolver := fun _ => Ok None |}
      (mock_registry (VString "0xd8dA6BF26964aF9D7eEd9e03E53415D37aA96045")) in
  outcome (run_verify this) = Ok false
  /\ ~ In GetIdentityRegistry (calls (run_verify this))
  /\ ~ In RegistryGetAddress (calls (run_verify this)).
Proof.
  intros this.
  apply (verifyENSName_absent_resolver Interop.buildFromPayload_erc7930
           parseAgentId_decimal this "test-agent.eth").
  - vm_compute. left. reflexivity.
  - left. reflexivity.
Defined.

(** With an ENS name and an agent id that parses to a chain id for which the
    key is built, [getResolver] is called, for the agent's ENS name. *)
Lemma verifyENSName_calls_getResolver bfp parse this ensName agentIdText chainId tokenId recordKey :
  ensEndpoint this = Some ensName -> ensName <> "" ->
  RegistrationFile.agentId (registrationFile this) = Some agentIdText ->
  agentIdText <> "" ->
  parse agentIdText = Ok (chainId, tokenId) ->
  buildAgentRegistryRecordKey bfp chainId "eip155" = Ok recordKey ->
  exists rest, calls (verifyENSName bfp parse this) = GetResolver ensName :: rest.
Proof.
  intros Hens Hne Hid Hne' Hparse Hkey.
  rewrite verifyENSName_cases. unfold verify_cases. rewrite Hens, Hid.
  cbn [absent default from_option id].
  destruct (String.eqb_spec ensName ""); [contradiction |].
  destruct (String.eqb_spec agentIdText ""); [contradiction |].
  cbn [orb]. rewrite Hparse, Hkey. unfold verify_after_key. rewrite Hens.
  cbn [default from_option id].
  destruct (getResolver _ ensName) as [[resolver|]|e]; try (eexists; reflexivity).
  destruct (getText resolver _) as [text|]; [|eexists; reflexivity].
  destruct (loaded text chainId); [|eexists; reflexivity].
  destruct (getIdentityRegistry (sdk this)) as [registry|]; [|eexists; reflexivity].
  destruct (getAddress registry); eexists; reflexivity.
Qed.

(** C9. When the resolver's [getText] returns the empty string, the fetcher
    returns that empty string; the loader resolves to null for every falsy
    fetched value; and [verifyENSName] returns [false]. *)
Theorem empty_text_record
    bfp parse this ensName agentIdText chainId tokenId recordKey resolver :
  ensEndpoint this = Some ensName -> ensName <> "" ->
  RegistrationFile.agentId (registrationFile this) = Some agentIdText ->
  agentIdText <> "" ->
  parse agentIdText = Ok (chainId, tokenId) ->
  buildAgentRegistryRecordKey bfp chainId "eip155" = Ok recordKey ->
  getResolver (web3Client_provider (sdk this)) ensName = Ok (Some resolver) ->
  getText resolver (toLowerCase recordKey) = Ok (VString "") ->
  outcome (fetchAgentRegistryRecord (web3Client_provider (sdk this)) ensName recordKey)
    = Ok (VString "")
  /\ (forall provider fetched,
        outcome (fetchAgentRegistryRecord provider ensName recordKey) = Ok fetched ->
        truthy fetched = false ->
        outcome (loadAgentRegistryRecord bfp provider ensName chainId "eip155")
          = Ok None)
  /\ outcome (verifyENSName bfp parse this) = Ok false.
Proof.
  intros Hens Hne Hid Hne' Hparse Hkey Hres Htext. split; [|split].
  - rewrite fetch_cases, Hres, Htext. reflexivity.
  - intros provider fetched Hf Hfalsy. rewrite (load_cases _ _ _ _ _ _ _ Hkey Hf).
    cbn [outcome snd]. unfold loaded. now rewrite Hfalsy.
  - rewrite verifyENSName_cases. unfold verify_cases. rewrite Hens, Hid.
    cbn [absent default from_option id].
    destruct (String.eqb_spec ensName ""); [contradiction |].
    destruct (String.eqb_spec agentIdText ""); [contradiction |].
    cbn [orb]. rewrite Hparse, Hkey. unfold verify_after_key. rewrite Hens.
    cbn [default from_option id]. rewrite Hres, Htext. reflexivity.
Qed.

Lemma empty_text_record_witness :
  let provider := mock_provider (VString "") in
  let this :=
    test_agent provider
      (mock_registry (VString "0xd8dA6BF26964aF9D7eEd9e03E53415D37aA96045")) in
  outcome (fetchAgentRegistryRecord provider "test-agent.eth"
             "agent-registry:00010000010100") = Ok (VString "")
  /\ (forall provider' fetched,
        outcome (fetchAgentRegistryRecord provider' "test-agent.eth"
                   "agent-registry:00010000010100") = Ok fetched ->
        truthy fetched = false ->
        outcome (loadAgentRegistryRecord Interop.buildFromPayload_erc7930 provider'
                   "test-agent.eth" 1 "eip155") = Ok None)
  /\ outcome (run_verify this) = Ok false.
Proof.
  intros provider this.
  apply (empty_text_record Interop.buildFromPayload_erc7930 parseAgentId_decimal
           this "test-agent.eth" "1:42" 1 42 "agent-registry:00010000010100"
           {| getText := fun _ => Ok (VString "") |});
    first [discriminate | vm_compute; reflexivity].
Defined.

(** C1, at the failing input.  The agent of the test suite (agent id
    [1:42]), a resolver that serves the record encoded for the registry and
    token id 42, and a registry-address lookup that resolves to text that is
    no address: the record is loaded, the lookup succeeds, and the
    [ethers.getAddress] call inside [recordMatchesAgent] throws out of
    [verifyENSName]. *)
Theorem verifyENSName_throws_on_invalid_registry_address :
  let recordValue := "0xd8dA6BF26964aF9D7eEd9e03E53415D37aA96045012a" in
  let this :=
    test_agent (mock_provider (VString recordValue))
      (mock_registry (VString "not-an-address")) in
  encodeAgentRegistryRecord "0xd8dA6BF26964aF9D7eEd9e03E53415D37aA96045" 42
    = Ok recordValue
  /\ run_verify this =
     ([GetResolver "test-agent.eth"; GetText "agent-registry:00010000010100";
       GetIdentityRegistry; RegistryGetAddress],
      Throw (InvalidArgument "invalid address")).
Proof. cbv zeta. split; vm_compute; reflexivity. Qed.

Lemma decode_Ok_fields valueHex decoded :
  decodeAgentRegistryRecord valueHex = Ok decoded ->
  version decoded = 1%Z /\ chainType decoded = 0%Z /\ chainReference decoded = 0%Z.
Proof.
  rewrite decode_unfold. destruct (negb _); [discriminate |].
  destruct (_ <? _)%nat; [discriminate |]. unfold decode_fields.
  destruct (parseInt16 _) as [n|]; [|discriminate].
  destruct (n <? 0)%Z; [discriminate |].
  destruct (ethers.getBytes _) as [bytes|]; [|discriminate]. cbn [mbind result_bind].
  destruct (negb _); [discriminate |].
  destruct (if (length bytes =? 0)%nat then _ else _); [|discriminate].
  cbn [mbind result_bind].
  destruct (ethers.getAddress _); [|discriminate]. cbn [mbind result_bind].
  intros [= <-]. auto.
Qed.

(** The same for any agent, parser and encoding library: once a record is
    loaded and the registry lookup resolves, what [ethers.getAddress] throws
    on the looked-up value is what [verifyENSName] throws. *)
Lemma verifyENSName_propagates_getAddress
    bfp parse this ensName agentIdText chainId tokenId recordKey
    resolver valueHex decoded registry registryAddress e :
  ensEndpoint this = Some ensName -> ensName <> "" ->
  RegistrationFile.agentId (registrationFile this) = Some agentIdText ->
  agentIdText <> "" ->
  parse agentIdText = Ok (chainId, tokenId) ->
  buildAgentRegistryRecordKey bfp chainId "eip155" = Ok recordKey ->
  getResolver (web3Client_provider (sdk this)) ensName = Ok (Some resolver) ->
  getText resolver (toLowerCase recordKey) = Ok (VString valueHex) ->
  decodeAgentRegistryRecord valueHex = Ok decoded ->
  getIdentityRegistry (sdk this) = Ok registry ->
  getAddress registry = Ok registryAddress ->
  ethers.getAddress_any registryAddress = Throw e ->
  outcome (verifyENSName bfp parse this) = Throw e.
Proof.
  intros Hens Hne Hid Hne' Hparse Hkey Hres Htext Hdec Hreg Haddr Hthrow.
  rewrite verifyENSName_cases. unfold verify_cases. rewrite Hens, Hid.
  cbn [absent default from_option id].
  destruct (String.eqb_spec ensName ""); [contradiction |].
  destruct (String.eqb_spec agentIdText ""); [contradiction |].
  cbn [orb]. rewrite Hparse, Hkey. unfold verify_after_key. rewrite Hens.
  cbn [default from_option id]. rewrite Hres, Htext.
  unfold loaded. cbn [truthy decode_value].
  assert (Hnonempty : valueHex <> "").
  { intros ->. vm_compute in Hdec. discriminate. }
  destruct (String.eqb_spec valueHex ""); [contradiction |]. cbn [negb].
  rewrite Hdec, Hreg, Haddr. cbn [outcome snd].
  destruct (decode_Ok_fields _ _ Hdec) as (Hv & Ht & _).
  unfold recordMatchesAgent, with_chainReference.
  cbn [version chainType chainReference Expected.chainId Expected.registryAddress].
  rewrite Hv, Ht. change CAIP_NAMESPACE_CODES_eip155 with 0%Z.
  rewrite !Z.eqb_refl. cbn [negb orb]. now rewrite Hthrow.
Qed.

(** Where [verifyENSName] does settle with a boolean: when the key for the
    parsed chain id is built and the registry address, if the lookup
    resolves to one, is accepted by [getAddress]. *)
Lemma verifyENSName_returns_boolean bfp parse this :
  (forall chainId tokenId,
     parse (default "" (RegistrationFile.agentId (registrationFile this)))
       = Ok (chainId, tokenId) ->
     returns (buildAgentRegistryRecordKey bfp chainId "eip155") = true) ->
  (forall registry registryAddress,
     getIdentityRegistry (sdk this) = Ok registry ->
     getAddress registry = Ok registryAddress ->
     returns (ethers.getAddress_any registryAddress) = true) ->
  exists b, outcome (verifyENSName bfp parse this) = Ok b.
Proof.
  intros Hkey Hreg. rewrite verifyENSName_cases. unfold verify_cases.
  destruct (absent _ || absent _); [now exists false |].
  destruct (parse _) as [[chainId tokenId]|e]; [|now exists false].
  specialize (Hkey chainId tokenId eq_refl).
  destruct (buildAgentRegistryRecordKey bfp chainId "eip155") as [recordKey|e];
    [|discriminate].
  unfold verify_after_key.
  destruct (getResolver _ _) as [[resolver|]|e]; try (now exists false).
  destruct (getText resolver _) as [text|]; [|now exists false].
  destruct (loaded text chainId) as [record|]; [|now exists false].
  destruct (getIdentityRegistry (sdk this)) as [registry|]; [|now exists false].
  destruct (getAddress registry) as [registryAddress|] eqn:Ha; [|now exists false].
  specialize (Hreg registry registryAddress eq_refl Ha).
  cbn [outcome snd]. unfold recordMatchesAgent.
  cbn [Expected.chainId Expected.registryAddress Expected.agentId].
  destruct (_ || _); [now exists false |].
  destruct (negb _); [now exists false |].
  destruct (ethers.getAddress_any registryAddress); [|discriminate].
  cbn [mbind result_bind].
  destruct (negb _); [now exists false |].
  destruct (negb _); [now exists false | now exists true].
Qed.

(** ** The key builder *)

Lemma lookup_eip155 : get_property CAIP_NAMESPACE_CODES "eip155" = PNumber 0.
Proof. reflexivity. Qed.

(** C8, at the failing input.  ["constructor"] is no key of the
    namespace-code table, but [CAIP_NAMESPACE_CODES["constructor"]] is the
    inherited [Object.prototype.constructor], not [undefined]: neither check
    throws, and the result is whatever the encoding library makes of the
    payload. *)
Theorem buildAgentRegistryRecordKey_inherited_name :
  CAIP_NAMESPACE_CODES !! "constructor" = None
  /\ (forall bfp,
        buildAgentRegistryRecordKey bfp 1 "constructor" =
        (payload ← bfp {| Interop.version := 1;
                          Interop.chainType := "constructor";
                          Interop.chainReference := "0x01";
                          Interop.address := "0x" |};
         Ok ("agent-registry:" +:+ toLowerCase (slice_from payload 2))))
  /\ buildAgentRegistryRecordKey (fun _ => Ok "0x00") 1 "constructor"
     = Ok "agent-registry:00"
  /\ buildAgentRegistryRecordKey (fun _ => Ok "0x00") 1 "constructor"
     <> Throw (unsupported "constructor").
Proof.
  split; [reflexivity |]. split; [|split; [reflexivity | discriminate]].
  intros bfp. unfold buildAgentRegistryRecordKey, encode7930ChainIdentifierHex.
  change (is_undefined (get_property CAIP_NAMESPACE_CODES "constructor")) with false.
  cbn [Z.ltb Z.compare negb]. change (ethers.toBeHex 1) with (Ok "0x01").
  cbn [mbind result_bind]. change (toLowerCase "0x01") with "0x01".
  now destruct (bfp _).
Qed.

(** What the two checks do reject, whatever the encoding library does. *)
Lemma buildAgentRegistryRecordKey_unsupported bfp chainId namespace :
  get_property CAIP_NAMESPACE_CODES namespace = PUndefined ->
  buildAgentRegistryRecordKey bfp chainId namespace = Throw (unsupported namespace)
  /\ (encode7930ChainIdentifierHex bfp chainId namespace = Throw (unsupported namespace)
      \/ encode7930ChainIdentifierHex bfp chainId namespace
         = Throw (JsError "Chain reference must be non-negative")).
Proof.
  intros H. unfold buildAgentRegistryRecordKey, encode7930ChainIdentifierHex.
  rewrite H. cbn [is_undefined]. split; [reflexivity |].
  destruct (chainId <? 0)%Z; auto.
Qed.

Lemma buildAgentRegistryRecordKey_negative bfp chainId namespace :
  (chainId < 0)%Z ->
  exists e, buildAgentRegistryRecordKey bfp chainId namespace = Throw e.
Proof.
  intros H. unfold buildAgentRegistryRecordKey, encode7930ChainIdentifierHex.
  destruct (is_undefined _); [eexists; reflexivity |].
  destruct (Z.ltb_spec chainId 0); [eexists; reflexivity | lia].
Qed.

(** For [eip155] and a non-negative chain reference the key is
    [agent-registry:] and the lower-cased payload without its first two
    characters. *)
Lemma buildAgentRegistryRecordKey_eip155 bfp chainId :
  (0 <= chainId)%Z ->
  buildAgentRegistryRecordKey bfp chainId "eip155" =
  (payload ← bfp {| Interop.version := 1;
                    Interop.chainType := "eip155";
                    Interop.chainReference := "0x" +:+ even_digits chainId;
                    Interop.address := "0x" |};
   Ok ("agent-registry:" +:+ toLowerCase (slice_from payload 2))).
Proof.
  intros H. unfold buildAgentRegistryRecordKey, encode7930ChainIdentifierHex.
  rewrite lookup_eip155. cbn [is_undefined].
  destruct (Z.ltb_spec chainId 0); [lia |].
  rewrite (toBeHex_nonneg _ H). cbn [mbind result_bind].
  destruct (even_digits_spec chainId H) as (Hlow & _).
  assert (Hl : toLowerCase ("0x" +:+ even_digits chainId) = "0x" +:+ even_digits chainId).
  { unfold toLowerCase. rewrite chars_app, List.map_app.
    rewrite (map_lower_lower_hex _ Hlow). change (List.map lower_char (chars "0x"))
      with (chars "0x"). now rewrite <- chars_app, text_chars. }
  rewrite Hl. now destruct (bfp _).
Qed.

(** ** Known values *)

(** Keccak-256 of the empty message. *)
Example keccak256_empty :
  ethers.hexlify (List.map Z.of_N (Keccak.keccak256 [])) =
  "0xc5d2460186f7233c927e7db2dcc703c0e500b653ca82273b7bfad8045d85a470".
Proof. vm_compute. reflexivity. Qed.

(** Checksum addresses of EIP-55 and an ICAP address. *)
Example getAddress_known :
  ethers.getAddress "0x5aaeb6053f3e94c9b9a09f33669435e7ef1beaed"
    = Ok "0x5aAeb6053F3E94C9b9A09f33669435E7Ef1BeAed"
  /\ ethers.getAddress "fb6916095ca1df60bb79ce92ce3ea74c37c5d359"
    = Ok "0xfB6916095ca1df60bB79Ce92cE3Ea74c37c5d359"
  /\ ethers.getAddress "0xfb6916095ca1df60bB79Ce92cE3Ea74c37c5d359"
    = Throw (InvalidArgument "bad address checksum")
  /\ ethers.getAddress "XE65GB6LDNXYOFTX0NSV3FUWKOWIXAMJK36"
    = Ok "0x8ba1f109551bD432803012645Ac136ddd64DBA72".
Proof. repeat split; vm_compute; reflexivity. Qed.

(** The key for chain id 1. *)
Example key_of_chain_1 :
  buildAgentRegistryRecordKey Interop.buildFromPayload_erc7930 1 "eip155"
    = Ok "agent-registry:00010000010100".
Proof. vm_compute. reflexivity. Qed.

(** The scenarios of [tests/verify-ens.test.ts]: registry
    [0xd8dA6BF26964aF9D7eEd9e03E53415D37aA96045], agent id [1:42]. *)
Example scenario_success :
  outcome (run_verify
    (test_agent (mock_provider (VString "0xd8dA6BF26964aF9D7eEd9e03E53415D37aA96045012a"))
       (mock_registry (VString "0xd8dA6BF26964aF9D7eEd9e03E53415D37aA96045"))))
  = Ok true.
Proof. vm_compute. reflexivity. Qed.

Example scenario_wrong_agent_id :
  encodeAgentRegistryRecord "0xd8dA6BF26964aF9D7eEd9e03E53415D37aA96045" 43
    = Ok "0xd8dA6BF26964aF9D7eEd9e03E53415D37aA96045012b"
  /\ run_verify
       (test_agent (mock_provider (VString "0xd8dA6BF26964aF9D7eEd9e03E53415D37aA96045012b"))
          (mock_registry (VString "0xd8dA6BF26964aF9D7eEd9e03E53415D37aA96045")))
     = ([GetResolver "test-agent.eth"; GetText "agent-registry:00010000010100";
         GetIdentityRegistry; RegistryGetAddress], Ok false).
Proof. split; vm_compute; reflexivity. Qed.

Example scenario_wrong_registry :
  run_verify
    (test_agent (mock_provider (VString "0xd8dA6BF26964aF9D7eEd9e03E53415D37aA96045012a"))
       (mock_registry (VString "0xabcdefabcdefabcdefabcdefabcdefabcdefabcd")))
  = ([GetResolver "test-agent.eth"; GetText "agent-registry:00010000010100";
      GetIdentityRegistry; RegistryGetAddress], Ok false).
Proof. vm_compute. reflexivity. Qed.

Example scenario_missing_resolver :
  run_verify
    (test_agent {| getResolver := fun _ => Ok None |}
       (mock_registry (VString "0xd8dA6BF26964aF9D7eEd9e03E53415D37aA96045")))
  = ([GetResolver "test-agent.eth"], Ok false).
Proof. vm_compute. reflexivity. Qed.

Example scenario_single_byte_agent_id :
  encodeAgentRegistryRecord "0x1234567890abcdef1234567890abcdef12345678" 0xa7
    = Ok "0x1234567890AbcdEF1234567890aBcdef1234567801a7"
  /\ decodeAgentRegistryRecord "0x1234567890AbcdEF1234567890aBcdef1234567801a7"
     = Ok {| version := 1; chainType := 0; chainReference := 0;
             address := "0x1234567890AbcdEF1234567890aBcdef12345678";
             agentId := 0xa7 |}.
Proof. split; vm_compute; reflexivity. Qed.

(** * Further properties of the verifier *)

(** ** The fetcher *)

(** X1. [fetchAgentRegistryRecord] never throws.  It calls [getResolver] once,
    for the ENS name; when that resolves to a resolver it calls [getText]
    once, with the lower-cased key, and returns what [getText] resolved to;
    in every other case it makes no further call and returns null. *)
Theorem fetchAgentRegistryRecord_total provider ensName recordKey :
  let run := fetchAgentRegistryRecord provider ensName recordKey in
  exists fetched,
    outcome run = Ok fetched
    /\ ((calls run = [GetResolver ensName] /\ fetched = VNull
         /\ (getResolver provider ensName = Ok None
             \/ exists e, getResolver provider ensName = Throw e))
        \/ exists resolver,
             getResolver provider ensName = Ok (Some resolver)
             /\ calls run = [GetResolver ensName; GetText (toLowerCase recordKey)]
             /\ (getText resolver (toLowerCase recordKey) = Ok fetched
                 \/ (fetched = VNull
                     /\ exists e, getText resolver (toLowerCase recordKey) = Throw e))).
Proof.
  cbv zeta. rewrite fetch_cases.
  destruct (getResolver provider ensName) as [[resolver|]|e] eqn:Hres.
  - destruct (getText resolver (toLowerCase recordKey)) as [text|e] eqn:Htext;
      eexists; (split; [reflexivity |]); right; exists resolver;
      repeat split; eauto.
  - exists VNull. split; [reflexivity |]. left. auto.
  - exists VNull. split; [reflexivity |]. left. eauto.
Qed.

(** ** The matcher *)

(** X2. [recordMatchesAgent] throws exactly when version, namespace code and
    chain reference match and [ethers.getAddress] rejects the expected
    registry address; a mismatch in one of the first three returns [false]
    without the expected registry address being looked at. *)
Theorem recordMatchesAgent_throws_iff record expected e :
  (recordMatchesAgent record expected = Throw e <->
     version record = 1%Z /\ chainType record = 0%Z
     /\ chainReference record = Expected.chainId expected
     /\ ethers.getAddress_any (Expected.registryAddress expected) = Throw e)
  /\ (version record <> 1%Z \/ chainType record <> 0%Z
      \/ chainReference record <> Expected.chainId expected ->
      recordMatchesAgent record expected = Ok false).
Proof.
  unfold recordMatchesAgent. change CAIP_NAMESPACE_CODES_eip155 with 0%Z.
  destruct (Z.eqb_spec (version record) 1) as [Hv|Hv];
    [|split; [split; [discriminate | tauto] | reflexivity]].
  destruct (Z.eqb_spec (chainType record) 0) as [Ht|Ht];
    [|split; [split; [discriminate | tauto] | reflexivity]].
  cbn [negb orb].
  destruct (Z.eqb_spec (chainReference record) (Expected.chainId expected)) as [Hc|Hc];
    [|split; [split; [discriminate | tauto] | reflexivity]].
  cbn [negb]. split; [|tauto].
  destruct (ethers.getAddress_any (Expected.registryAddress expected)) as [n|e'].
  - cbn [mbind result_bind]. split.
    + destruct (negb _); [discriminate |]. destruct (negb _); discriminate.
    + intros (_ & _ & _ & H). discriminate.
  - cbn [mbind result_bind]. split.
    + intros [= ->]. auto.
    + intros (_ & _ & _ & [= ->]). reflexivity.
Qed.

Lemma getAddress_bare h :
  String.length h = 40%nat -> forallb is_hex (chars h) = true ->
  ethers.getAddress h =
  if ethers.is_mixed_case ("0x" +:+ h) && negb (String.eqb (checksummed h) ("0x" +:+ h))
  then Throw (InvalidArgument "bad address checksum")
  else Ok (checksummed h).
Proof.
  intros Hlen Hhex. unfold ethers.getAddress, ethers.is_hex_address, startsWith.
  assert (Hs : starts_with (chars "0x") (chars h) = false).
  { destruct (starts_with (chars "0x") (chars h)) eqn:Hs; [|reflexivity].
    apply starts_with_spec in Hs as [k Hk]. rewrite Hk in Hhex. discriminate. }
  rewrite Hs, length_chars, Hlen, Hhex. cbn [Nat.eqb andb].
  now rewrite getChecksumAddress_0x.
Qed.

(** X3. The expected registry address may be written in lower case, in upper
    case, in checksum case, or in lower case without [0x]: a record that
    carries the checksum address of the same forty digits matches all four. *)
Theorem recordMatchesAgent_any_case h chainId tokenId registryAddress :
  String.length h = 40%nat -> forallb is_hex (chars h) = true ->
  registryAddress = "0x" +:+ toLowerCase h
  \/ registryAddress = "0x" +:+ toUpperCase h
  \/ registryAddress = checksummed h
  \/ registryAddress = toLowerCase h ->
  recordMatchesAgent
    {| version := 1; chainType := 0; chainReference := chainId;
       address := checksummed h; agentId := tokenId |}
    {| Expected.chainId := chainId;
       Expected.registryAddress := VString registryAddress;
       Expected.agentId := tokenId |} = Ok true.
Proof.
  intros Hlen Hhex Hcase. apply recordMatchesAgent_true_iff.
  cbn [version chainType chainReference address agentId Expected.chainId
       Expected.registryAddress Expected.agentId ethers.getAddress_any].
  repeat split.
  assert (Hl : String.length (toLowerCase h) = 40%nat)
    by now rewrite length_toLowerCase.
  assert (Hlh : forallb is_hex (chars (toLowerCase h)) = true)
    by (unfold toLowerCase; now rewrite chars_text, forallb_is_hex_lower).
  destruct Hcase as [-> | [-> | [-> | ->]]].
  - now rewrite getAddress_hex, not_mixed_lower, checksummed_lower.
  - rewrite getAddress_hex, not_mixed_upper, checksummed_upper; try reflexivity.
    + now rewrite length_toUpperCase.
    + unfold toUpperCase. now rewrite chars_text, forallb_is_hex_upper.
  - now apply getAddress_checksummed.
  - now rewrite getAddress_bare, not_mixed_lower, checksummed_lower.
Qed.

Lemma recordMatchesAgent_any_case_witness :
  recordMatchesAgent
    {| version := 1; chainType := 0; chainReference := 1;
       address := checksummed "d8da6bf26964af9d7eed9e03e53415d37aa96045";
       agentId := 42 |}
    {| Expected.chainId := 1;
       Expected.registryAddress :=
         VString ("0x" +:+ toUpperCase "d8da6bf26964af9d7eed9e03e53415d37aa96045");
       Expected.agentId := 42 |} = Ok true.
Proof.
  apply (recordMatchesAgent_any_case "d8da6bf26964af9d7eed9e03e53415d37aa96045").
  - reflexivity.
  - vm_compute. reflexivity.
  - right. left. reflexivity.
Defined.

(** ** The decoder *)

Lemma pair_parse c1 c2 : pair_parse_ok c1 c2 = true.
Proof. revert c1 c2. apply forall_ascii2. vm_compute. reflexivity. Qed.

Lemma parseInt16_two s n :
  String.length s = 2%nat -> parseInt16 s = Some n -> (n <= 255)%Z.
Proof.
  intros Hlen Hp. rewrite <- (text_chars s) in Hp. rewrite <- length_chars in Hlen.
  destruct (chars s) as [|c1 [|c2 [|c3 l]]]; try discriminate.
  pose proof (pair_parse c1 c2) as H. unfold pair_parse_ok in H.
  rewrite Hp in H. now apply Z.leb_le in H.
Qed.

Lemma digits_fold_bound l : forall acc,
  forallb is_hex l = true -> (0 <= acc)%Z ->
  (0 <= fold_left digit_step l acc < (acc + 1) * 16 ^ Z.of_nat (length l))%Z.
Proof.
  induction l as [|c l IH]; intros acc Hh Hacc.
  - cbn [fold_left length]. change (16 ^ Z.of_nat 0)%Z with 1%Z. lia.
  - simpl in Hh. apply andb_true_iff in Hh as [Hc Hh]. cbn [fold_left length].
    pose proof (is_hex_value c) as Hv. rewrite Hc in Hv. cbn [implb] in Hv.
    unfold digit_step at 2 4. destruct (hex_value c) as [v|]; [|discriminate].
    apply andb_true_iff in Hv as [Hv0 Hv16].
    apply Z.leb_le in Hv0. apply Z.ltb_lt in Hv16. cbn [default from_option id].
    specialize (IH (16 * acc + v)%Z Hh ltac:(lia)).
    rewrite Nat2Z.inj_succ, Z.pow_succ_r by lia.
    assert (0 < 16 ^ Z.of_nat (length l))%Z by (apply Z.pow_pos_nonneg; lia).
    nia.
Qed.

Lemma digits_value_bound l :
  forallb is_hex l = true -> (0 <= digits_value l < 16 ^ Z.of_nat (length l))%Z.
Proof.
  intros H. pose proof (digits_fold_bound l 0%Z H ltac:(lia)) as Hb.
  change (fold_left digit_step l 0%Z) with (digits_value l) in Hb. lia.
Qed.

(** [getAddress] on text that starts with [0x] returns forty-two characters. *)
Lemma getAddress_0x_length a n :
  ethers.getAddress a = Ok n -> startsWith a "0x" = true -> String.length n = 42%nat.
Proof.
  unfold ethers.getAddress, ethers.is_hex_address, startsWith. intros Ha Hs.
  rewrite Hs in Ha. apply starts_with_spec in Hs as [k Hk].
  destruct (_ && _) eqn:Hhex in Ha.
  - apply andb_true_iff in Hhex as [Hlen _]. apply Nat.eqb_eq in Hlen.
    rewrite Hk in Hlen. change (drop 2 (chars "0x" ++ k)) with k in Hlen.
    destruct (_ && _) in Ha; [discriminate |]. injection Ha as <-.
    rewrite getChecksumAddress_chars, <- length_chars, chars_app, chars_text, Hk.
    change (chars "0x") with ["0"%char; "x"%char].
    cbn [app List.map drop length]. rewrite drop_0, length_checksum_case, length_map.
    now rewrite Hlen.
  - unfold ethers.is_icap in Ha. rewrite Hk in Ha. discriminate.
Qed.

(** What an accepted value looks like. *)
Lemma decode_inversion valueHex record :
  decodeAgentRegistryRecord valueHex = Ok record ->
  exists k,
    (k <= 255)%nat
    /\ startsWith valueHex "0x" = true
    /\ String.length valueHex = (44 + 2 * k)%nat
    /\ parseInt16 (slice valueHex 42 44) = Some (Z.of_nat k)
    /\ forallb is_hex (chars (slice_from valueHex 44)) = true
    /\ ethers.getAddress (slice valueHex 0 42) = Ok (address record)
    /\ record = {| version := 1; chainType := 0; chainReference := 0;
                   address := address record;
                   agentId := digits_value (chars (slice_from valueHex 44)) |}.
Proof.
  rewrite decode_unfold.
  destruct (startsWith valueHex "0x") eqn:Hs; [|discriminate]. cbn [negb].
  destruct (Nat.ltb_spec (String.length valueHex) 44) as [|Hlen]; [discriminate |].
  destruct (fields_of_value valueHex Hlen) as (Hcut & Ha & Hl).
  unfold decode_fields.
  destruct (parseInt16 (slice valueHex 42 44)) as [n|] eqn:Hp; [|discriminate].
  destruct (Z.ltb_spec n 0) as [|Hn0]; [discriminate |].
  pose proof (parseInt16_two _ _ Hl Hp) as Hn255.
  set (payload := slice_from valueHex 44) in *.
  destruct (Z.eqb_spec n (Z.of_nat (Z.to_nat n))) as [Hnk|]; [|lia].
  assert (Hplen : forall bytes : list Z, (2 * length bytes)%nat = String.length payload ->
            String.length valueHex = (44 + 2 * length bytes)%nat).
  { intros bytes Hb. rewrite Hcut at 1. fold payload.
    rewrite (fields_length _ _ _ Ha Hl). lia. }
  destruct (ethers.getBytes _) as [bytes|] eqn:Hb; [|discriminate].
  cbn [mbind result_bind].
  destruct (Z.eqb_spec (Z.of_nat (length bytes)) n) as [Hbn|]; [|discriminate].
  cbn [negb].
  pose proof Hb as Hb'. apply getBytes_length_0x in Hb' as [Hbl Hbh].
  rewrite length_toLowerCase in Hbl.
  unfold toLowerCase in Hbh. rewrite chars_text, forallb_is_hex_lower in Hbh.
  destruct (decode_payload (length bytes) payload ltac:(lia) Hbh)
    as (bytes' & Hb2 & Hlen2 & Hval).
  rewrite Hb in Hb2. injection Hb2 as <-. rewrite Hval. cbn [mbind result_bind].
  destruct (ethers.getAddress _) as [a|] eqn:Haddr; [|discriminate].
  cbn [mbind result_bind]. intros [= <-]. cbn [address].
  exists (length bytes). repeat split; try assumption; try lia.
  - now apply Hplen.
  - now rewrite Hbn.
Qed.

(** Invariants of an accepted value: it has [44 + 2k] characters for a byte
    count [k] of at most 255, and decodes to a record with version 1,
    namespace code 0, chain reference 0, an address of forty-two characters
    that [getAddress] maps to itself, and an agent id in [[0, 256^k)]. *)
Lemma decode_Ok_invariants valueHex record :
  decodeAgentRegistryRecord valueHex = Ok record ->
  version record = 1%Z /\ chainType record = 0%Z /\ chainReference record = 0%Z
  /\ String.length (address record) = 42%nat
  /\ ethers.getAddress (address record) = Ok (address record)
  /\ exists k, (k <= 255)%nat
       /\ String.length valueHex = (44 + 2 * k)%nat
       /\ (0 <= agentId record < 256 ^ Z.of_nat k)%Z.
Proof.
  intros Hdec.
  destruct (decode_inversion _ _ Hdec) as (k & Hk & Hs & Hlen & Hp & Hhex & Ha & Hr).
  assert (H44 : (44 <= String.length valueHex)%nat) by lia.
  destruct (fields_of_value valueHex H44) as (Hcut & Hal & Hll).
  assert (Hsa : startsWith (slice valueHex 0 42) "0x" = true).
  { rewrite Hcut in Hs. now rewrite (fields_startsWith _ _ _ Hal) in Hs. }
  pose proof (getAddress_0x_length _ _ Ha Hsa) as Hn.
  destruct (getAddress_fixed _ _ Ha Hn) as [Hfix _].
  rewrite Hr. cbn [version chainType chainReference address agentId].
  repeat split; try assumption.
  exists k. repeat split; try assumption.
  - apply digits_value_bound, Hhex.
  - pose proof (digits_value_bound _ Hhex) as [_ Hub].
    assert (Hpl : length (chars (slice_from valueHex 44)) = (2 * k)%nat).
    { rewrite length_chars. rewrite Hcut in Hlen at 1.
      rewrite (fields_length _ _ _ Hal Hll) in Hlen. lia. }
    rewrite Hpl in Hub. change 256%Z with (16 ^ 2)%Z.
    rewrite <- Z.pow_mul_r by lia. now replace (2 * Z.of_nat k)%Z with (Z.of_nat (2 * k)) by lia.
Qed.

(** X4. Every value the decoder accepts has [44 + 2k] characters for a byte
    count [k] of at most 255, and decodes to a record with version 1,
    namespace code 0, chain reference 0, an address of forty-two characters
    that [getAddress] maps to itself, and an agent id in [[0, 256^k)]. *)
Theorem decode_accepted_value valueHex record :
  decodeAgentRegistryRecord valueHex = Ok record ->
  version record = 1%Z /\ chainType record = 0%Z /\ chainReference record = 0%Z
  /\ String.length (address record) = 42%nat
  /\ ethers.getAddress (address record) = Ok (address record)
  /\ exists k, (k <= 255)%nat
       /\ String.length valueHex = (44 + 2 * k)%nat
       /\ (0 <= agentId record < 256 ^ Z.of_nat k)%Z.
Proof. apply decode_Ok_invariants. Qed.

Lemma decode_accepted_value_witness :
  let record :=
    {| version := 1; chainType := 0; chainReference := 0;
       address := "0x1234567890AbcdEF1234567890aBcdef12345678"; agentId := 167 |} in
  version record = 1%Z /\ chainType record = 0%Z /\ chainReference record = 0%Z
  /\ String.length (address record) = 42%nat
  /\ ethers.getAddress (address record) = Ok (address record)
  /\ exists k, (k <= 255)%nat
       /\ String.length "0x1234567890abcdef1234567890abcdef1234567801A7"
          = (44 + 2 * k)%nat
       /\ (0 <= agentId record < 256 ^ Z.of_nat k)%Z.
Proof.
  apply (decode_accepted_value "0x1234567890abcdef1234567890abcdef1234567801A7").
  vm_compute. reflexivity.
Defined.

(** ** Encoder and decoder together *)

Lemma encode_decode_record registryAddress tokenId normalized :
  ethers.getAddress registryAddress = Ok normalized ->
  String.length normalized = 42%nat ->
  (0 <= tokenId < 2 ^ 2040)%Z ->
  exists valueHex,
    encodeAgentRegistryRecord registryAddress tokenId = Ok valueHex
    /\ decodeAgentRegistryRecord valueHex
       = Ok {| version := 1; chainType := 0; chainReference := 0;
               address := normalized; agentId := tokenId |}.
Proof.
  intros Ha Hlen Hid.
  destruct (payload_bytes tokenId Hid) as (k & Hk & Hlen2 & Hk255 & _).
  destruct (getAddress_fixed _ _ Ha Hlen) as [Hfix Hsw].
  destruct (length_field_spec k ltac:(lia)) as (Hl2 & Hparse & _).
  destruct (even_digits_bytes tokenId ltac:(lia)) as (Hb & _ & Hlow & _).
  eexists. split; [apply encode_spec; [exact Ha | lia] |].
  rewrite Hk, decode_of_fields by assumption. rewrite Hsw. cbn [negb].
  unfold decode_fields. rewrite Hparse.
  destruct (Z.ltb_spec (Z.of_nat k) 0) as [|_]; [lia |].
  rewrite Hlow, Hb. cbn [mbind result_bind]. rewrite Hk, Z.eqb_refl. cbn [negb].
  destruct (Nat.eqb_spec k 0) as [|_]; [lia |].
  rewrite BigInt_even_digits by lia. cbn [mbind result_bind]. rewrite Hfix.
  reflexivity.
Qed.

(** X5. Decoding is canonical: encoding the address and the agent id of a
    decoded record and decoding the result gives the same record again. *)
Theorem decode_encode_decode valueHex record :
  decodeAgentRegistryRecord valueHex = Ok record ->
  exists valueHex',
    encodeAgentRegistryRecord (address record) (agentId record) = Ok valueHex'
    /\ decodeAgentRegistryRecord valueHex' = Ok record.
Proof.
  intros Hdec.
  destruct (decode_Ok_invariants _ _ Hdec)
    as (Hv & Ht & Hc & Hlen & Hfix & k & Hk & _ & Hid).
  assert (Hrange : (0 <= agentId record < 2 ^ 2040)%Z).
  { rewrite pow256_2040. split; [lia |].
    eapply Z.lt_le_trans; [apply Hid |]. apply Z.pow_le_mono_r; lia. }
  destruct (encode_decode_record _ _ _ Hfix Hlen Hrange) as (v & Henc & Hdec').
  exists v. split; [exact Henc |]. rewrite Hdec'. f_equal.
  destruct record. cbn in *. now subst.
Qed.

Lemma decode_encode_decode_witness :
  exists valueHex',
    encodeAgentRegistryRecord "0x1234567890AbcdEF1234567890aBcdef12345678" 167
      = Ok valueHex'
    /\ decodeAgentRegistryRecord valueHex'
       = Ok {| version := 1; chainType := 0; chainReference := 0;
               address := "0x1234567890AbcdEF1234567890aBcdef12345678";
               agentId := 167 |}.
Proof.
  apply (decode_encode_decode "0x1234567890abcdef1234567890abcdef1234567801A7"
           {| version := 1; chainType := 0; chainReference := 0;
              address := "0x1234567890AbcdEF1234567890aBcdef12345678";
              agentId := 167 |}).
  vm_compute. reflexivity.
Defined.

(** X6. The encoder is injective on checksum address and agent id, for agent
    ids in [[0, 2^2040)]: two inputs with the same encoded value have the same
    normalized address and the same agent id. *)
Theorem encode_injective a1 a2 n1 n2 id1 id2 valueHex :
  ethers.getAddress a1 = Ok n1 -> String.length n1 = 42%nat ->
  ethers.getAddress a2 = Ok n2 -> String.length n2 = 42%nat ->
  (0 <= id1 < 2 ^ 2040)%Z -> (0 <= id2 < 2 ^ 2040)%Z ->
  encodeAgentRegistryRecord a1 id1 = Ok valueHex ->
  encodeAgentRegistryRecord a2 id2 = Ok valueHex ->
  n1 = n2 /\ id1 = id2.
Proof.
  intros Ha1 Hl1 Ha2 Hl2 Hi1 Hi2 He1 He2.
  destruct (encode_decode_record _ _ _ Ha1 Hl1 Hi1) as (v1 & He1' & Hd1).
  destruct (encode_decode_record _ _ _ Ha2 Hl2 Hi2) as (v2 & He2' & Hd2).
  rewrite He1 in He1'. injection He1' as <-.
  rewrite He2 in He2'. injection He2' as <-.
  rewrite Hd1 in Hd2. injection Hd2 as -> ->. auto.
Qed.

Lemma encode_injective_witness :
  "0x1234567890AbcdEF1234567890aBcdef12345678"
    = "0x1234567890AbcdEF1234567890aBcdef12345678"
  /\ 167%Z = 167%Z.
Proof.
  apply (encode_injective
           "0x1234567890abcdef1234567890abcdef12345678"
           "0x1234567890ABCDEF1234567890ABCDEF12345678"
           "0x1234567890AbcdEF1234567890aBcdef12345678"
           "0x1234567890AbcdEF1234567890aBcdef12345678"
           167 167 "0x1234567890AbcdEF1234567890aBcdef1234567801a7");
    first [reflexivity | vm_compute; reflexivity
          | split; [lia | vm_compute; reflexivity]].
Defined.

Lemma length_length_field k : (2 <= String.length (length_field k))%nat.
Proof.
  unfold length_field, padStart0.
  rewrite <- length_chars, chars_text, length_app, repeat_length, length_chars. lia.
Qed.

(** X7. The bound [2^2040] is sharp: for a non-negative agent id the encoder
    never throws, but from [2^2040] on the value it writes is rejected by the
    decoder, the byte count no longer fitting the two-digit length field. *)
Theorem encode_beyond_length_field registryAddress tokenId normalized :
  ethers.getAddress registryAddress = Ok normalized ->
  String.length normalized = 42%nat ->
  (2 ^ 2040 <= tokenId)%Z ->
  exists valueHex e,
    encodeAgentRegistryRecord registryAddress tokenId = Ok valueHex
    /\ decodeAgentRegistryRecord valueHex = Throw e.
Proof.
  intros Ha Hlen Hid.
  assert (Hpos : (0 <= tokenId)%Z).
  { assert (0 < 2 ^ 2040)%Z by (apply Z.pow_pos_nonneg; lia). lia. }
  pose proof (encode_spec _ _ _ Ha Hpos) as Henc.
  set (valueHex := normalized +:+ _ +:+ even_digits tokenId) in Henc.
  exists valueHex.
  destruct (decodeAgentRegistryRecord valueHex) as [record|e] eqn:Hdec;
    [exfalso | exists e; split; [exact Henc | reflexivity]].
  subst valueHex.
  destruct (decode_Ok_invariants _ _ Hdec) as (_ & _ & _ & _ & _ & k & Hk & Hl & _).
    destruct (even_digits_spec tokenId Hpos) as (_ & _ & k' & Hlen' & _ & Hub & _).
    rewrite <- !length_chars, !chars_app, !length_app, !length_chars in Hl.
    rewrite length_chars in Hlen'.
    pose proof (length_length_field
      (length (ethers.pairs_to_bytes (chars (even_digits tokenId))))) as Hf.
    assert (Hk' : (256 <= k')%nat).
    { destruct (Nat.le_gt_cases 256 k') as [|Hlt]; [assumption | exfalso].
      rewrite pow256_2040 in Hid.
      assert (256 ^ Z.of_nat k' <= 256 ^ Z.of_nat 255)%Z
        by (apply Z.pow_le_mono_r; lia).
      lia. }
  lia.
Qed.

Lemma encode_beyond_length_field_witness :
  exists valueHex e,
    encodeAgentRegistryRecord "0x1234567890abcdef1234567890abcdef12345678" (2 ^ 2040)
      = Ok valueHex
    /\ decodeAgentRegistryRecord valueHex = Throw e.
Proof.
  apply (encode_beyond_length_field "0x1234567890abcdef1234567890abcdef12345678"
           (2 ^ 2040) "0x1234567890AbcdEF1234567890aBcdef12345678").
  - vm_compute. reflexivity.
  - reflexivity.
  - apply Z.le_refl.
Defined.

(** ** The key builder and the loader *)

Lemma toLowerCase_app a b : toLowerCase (a +:+ b) = toLowerCase a +:+ toLowerCase b.
Proof. unfold toLowerCase. now rewrite chars_app, List.map_app, text_app. Qed.

Lemma built_key_lower_case bfp chainId namespace recordKey :
  buildAgentRegistryRecordKey bfp chainId namespace = Ok recordKey ->
  toLowerCase recordKey = recordKey.
Proof.
  unfold buildAgentRegistryRecordKey, encode7930ChainIdentifierHex.
  destruct (is_undefined _); [discriminate |].
  destruct (chainId <? 0)%Z; [discriminate |].
  destruct (ethers.toBeHex chainId) as [reference|]; [|discriminate].
  cbn [mbind result_bind]. destruct (bfp _) as [payload|]; [|discriminate].
  cbn [mbind result_bind]. intros [= <-].
  now rewrite toLowerCase_app, toLowerCase_idem.
Qed.

(** X8. Whatever the encoding library returns, a key that is built is
    [agent-registry:] followed by lower-case text, and lower-casing the key
    changes nothing: the fetcher queries the key as it was built. *)
Theorem buildAgentRegistryRecordKey_lower_case bfp chainId namespace recordKey :
  buildAgentRegistryRecordKey bfp chainId namespace = Ok recordKey ->
  (exists hex, recordKey = "agent-registry:" +:+ hex /\ toLowerCase hex = hex)
  /\ toLowerCase recordKey = recordKey.
Proof.
  unfold buildAgentRegistryRecordKey, encode7930ChainIdentifierHex.
  destruct (is_undefined _); [discriminate |].
  destruct (chainId <? 0)%Z; [discriminate |].
  destruct (ethers.toBeHex chainId) as [reference|]; [|discriminate].
  cbn [mbind result_bind]. destruct (bfp _) as [payload|]; [|discriminate].
  cbn [mbind result_bind]. intros [= <-].
  split; [eexists; split; [reflexivity | apply toLowerCase_idem] |].
  now rewrite toLowerCase_app, toLowerCase_idem.
Qed.

Lemma buildAgentRegistryRecordKey_lower_case_witness :
  (exists hex, "agent-registry:00010000010100" = "agent-registry:" +:+ hex
               /\ toLowerCase hex = hex)
  /\ toLowerCase "agent-registry:00010000010100" = "agent-registry:00010000010100".
Proof.
  apply (buildAgentRegistryRecordKey_lower_case Interop.buildFromPayload_erc7930
           1 "eip155").
  vm_compute. reflexivity.
Defined.

Lemma loaded_Some fetched chainId record :
  loaded fetched chainId = Some record ->
  exists valueHex decoded,
    fetched = VString valueHex /\ valueHex <> ""
    /\ decodeAgentRegistryRecord valueHex = Ok decoded
    /\ record = with_chainReference decoded chainId.
Proof.
  unfold loaded. destruct fetched as [valueHex| |b]; cbn [truthy decode_value].
  - destruct (String.eqb_spec valueHex ""); [discriminate |]. cbn [negb].
    destruct (decodeAgentRegistryRecord valueHex) as [decoded|] eqn:Hdec;
      [|discriminate].
    intros [= <-]. exists valueHex, decoded. auto.
  - discriminate.
  - destruct (negb b); discriminate.
Qed.

(** X9. [loadAgentRegistryRecord] throws exactly when the key builder does, and
    then without any call.  Otherwise it resolves after [getResolver] and at
    most one [getText] for the key as built; a record it resolves to has
    version 1, namespace code 0, the chain id passed in as chain reference, a
    checksum address [getAddress] maps to itself and an agent id in
    [[0, 2^2040)], and was read from a non-empty text the resolver served. *)
Theorem loadAgentRegistryRecord_result bfp provider ensName chainId namespace :
  let run := loadAgentRegistryRecord bfp provider ensName chainId namespace in
  (forall e, buildAgentRegistryRecordKey bfp chainId namespace = Throw e ->
     run = ([], Throw e))
  /\ (forall recordKey,
        buildAgentRegistryRecordKey bfp chainId namespace = Ok recordKey ->
        exists result,
          outcome run = Ok result
          /\ (calls run = [GetResolver ensName]
              \/ calls run = [GetResolver ensName; GetText recordKey])
          /\ forall record, result = Some record ->
               version record = 1%Z /\ chainType record = 0%Z
               /\ chainReference record = chainId
               /\ ethers.getAddress (address record) = Ok (address record)
               /\ (0 <= agentId record < 2 ^ 2040)%Z
               /\ exists resolver valueHex,
                    getResolver provider ensName = Ok (Some resolver)
                    /\ getText resolver recordKey = Ok (VString valueHex)
                    /\ valueHex <> ""
                    /\ calls run = [GetResolver ensName; GetText recordKey]).
Proof.
  cbv zeta. split.
  - intros e He. unfold loadAgentRegistryRecord. rewrite He. reflexivity.
  - intros recordKey Hkey.
    pose proof (built_key_lower_case _ _ _ _ Hkey) as Hlow.
    destruct (fetch_returns provider ensName recordKey) as [fetched Hf].
    rewrite (load_cases _ _ _ _ _ _ _ Hkey Hf).
    rewrite fetch_cases, Hlow in Hf |- *. cbn [outcome snd calls fst].
    exists (loaded fetched chainId). split; [reflexivity |]. split.
    + destruct (getResolver provider ensName) as [[resolver|]|]; auto.
    + intros record Hrec.
      destruct (loaded_Some _ _ _ Hrec) as (valueHex & decoded & -> & Hne & Hdec & ->).
      destruct (decode_Ok_invariants _ _ Hdec)
        as (Hv & Ht & _ & _ & Hfix & k & Hk & _ & Hid).
      cbn [with_chainReference version chainType chainReference address agentId].
      repeat split; try assumption; try lia.
      * rewrite pow256_2040. eapply Z.lt_le_trans; [apply Hid |].
        apply Z.pow_le_mono_r; lia.
      * destruct (getResolver provider ensName) as [[resolver|]|];
          cbn in Hf; try discriminate.
        destruct (getText resolver recordKey) as [text|] eqn:Htext;
          cbn in Hf; try discriminate.
        injection Hf as ->. exists resolver, valueHex. auto.
Qed.

Lemma loadAgentRegistryRecord_result_witness :
  let provider :=
    mock_provider (VString "0xd8dA6BF26964aF9D7eEd9e03E53415D37aA96045012a") in
  let run :=
    loadAgentRegistryRecord Interop.buildFromPayload_erc7930 provider
      "test-agent.eth" 1 "eip155" in
  exists result,
    outcome run = Ok result
    /\ (calls run = [GetResolver "test-agent.eth"]
        \/ calls run = [GetResolver "test-agent.eth";
                        GetText "agent-registry:00010000010100"])
    /\ forall record, result = Some record ->
         version record = 1%Z /\ chainType record = 0%Z
         /\ chainReference record = 1%Z
         /\ ethers.getAddress (address record) = Ok (address record)
         /\ (0 <= agentId record < 2 ^ 2040)%Z
         /\ exists resolver valueHex,
              getResolver provider "test-agent.eth" = Ok (Some resolver)
              /\ getText resolver "agent-registry:00010000010100"
                 = Ok (VString valueHex)
              /\ valueHex <> ""
              /\ calls run = [GetResolver "test-agent.eth";
                              GetText "agent-registry:00010000010100"].
Proof.
  intros provider run.
  apply (proj2 (loadAgentRegistryRecord_result Interop.buildFromPayload_erc7930
                  provider "test-agent.eth" 1 "eip155")
           "agent-registry:00010000010100").
  vm_compute. reflexivity.
Defined.

(** ** [Agent.verifyENSName], continued *)

Lemma recordMatchesAgent_Throw record expected e :
  recordMatchesAgent record expected = Throw e ->
  ethers.getAddress_any (Expected.registryAddress expected) = Throw e.
Proof.
  unfold recordMatchesAgent.
  destruct (_ || _); [discriminate |]. destruct (negb _); [discriminate |].
  destruct (ethers.getAddress_any _) as [n|e']; cbn [mbind result_bind].
  - destruct (negb _); [discriminate |]. destruct (negb _); discriminate.
  - congruence.
Qed.

(** X10. [verifyENSName] returns [true] only if the agent has an ENS name and an
    agent id that parses, the resolver of that name served, under the key of
    the parsed chain id, a text that decodes, and the decoded address is the
    checksum form of the address the registry lookup resolved to, and the
    decoded agent id is the parsed token id. *)
Theorem verifyENSName_true_only_if bfp parse this :
  outcome (verifyENSName bfp parse this) = Ok true ->
  exists ensName agentIdText chainId tokenId recordKey resolver valueHex decoded
         registry registryAddress,
    ensEndpoint this = Some ensName
    /\ RegistrationFile.agentId (registrationFile this) = Some agentIdText
    /\ parse agentIdText = Ok (chainId, tokenId)
    /\ buildAgentRegistryRecordKey bfp chainId "eip155" = Ok recordKey
    /\ getResolver (web3Client_provider (sdk this)) ensName = Ok (Some resolver)
    /\ getText resolver recordKey = Ok (VString valueHex)
    /\ decodeAgentRegistryRecord valueHex = Ok decoded
    /\ getIdentityRegistry (sdk this) = Ok registry
    /\ getAddress registry = Ok registryAddress
    /\ ethers.getAddress_any registryAddress = Ok (address decoded)
    /\ agentId decoded = tokenId.
Proof.
  rewrite verifyENSName_cases. unfold verify_cases.
  destruct (ensEndpoint this) as [ensName|] eqn:Hens; [|discriminate].
  destruct (RegistrationFile.agentId (registrationFile this)) as [agentIdText|] eqn:Hid;
    [|cbn [absent]; rewrite orb_true_r; discriminate].
  destruct (absent _ || absent _); [discriminate |]. cbn [default from_option id].
  destruct (parse agentIdText) as [[chainId tokenId]|] eqn:Hparse; [|discriminate].
  destruct (buildAgentRegistryRecordKey bfp chainId "eip155") as [recordKey|] eqn:Hkey;
    [|discriminate].
  pose proof (built_key_lower_case _ _ _ _ Hkey) as Hlow.
  unfold verify_after_key. rewrite Hens, Hlow. cbn [default from_option id].
  destruct (getResolver _ ensName) as [[resolver|]|] eqn:Hres; try discriminate.
  destruct (getText resolver recordKey) as [text|] eqn:Htext; [|discriminate].
  destruct (loaded text chainId) as [record|] eqn:Hload; [|discriminate].
  destruct (loaded_Some _ _ _ Hload) as (valueHex & decoded & -> & _ & Hdec & ->).
  destruct (getIdentityRegistry (sdk this)) as [registry|] eqn:Hreg; [|discriminate].
  destruct (getAddress registry) as [registryAddress|] eqn:Haddr; [|discriminate].
  cbn [outcome snd]. intros Hmatch.
  apply recordMatchesAgent_true_iff in Hmatch as (_ & _ & _ & Ha & Hi).
  exists ensName, agentIdText, chainId, tokenId, recordKey, resolver, valueHex,
    decoded, registry, registryAddress.
  repeat split; assumption.
Qed.

Lemma verifyENSName_true_only_if_witness :
  let this :=
    test_agent (mock_provider (VString "0xd8dA6BF26964aF9D7eEd9e03E53415D37aA96045012a"))
      (mock_registry (VString "0xd8da6bf26964af9d7eed9e03e53415d37aa96045")) in
  exists ensName agentIdText chainId tokenId recordKey resolver valueHex decoded
         registry registryAddress,
    ensEndpoint this = Some ensName
    /\ RegistrationFile.agentId (registrationFile this) = Some agentIdText
    /\ parseAgentId_decimal agentIdText = Ok (chainId, tokenId)
    /\ buildAgentRegistryRecordKey Interop.buildFromPayload_erc7930 chainId "eip155"
       = Ok recordKey
    /\ getResolver (web3Client_provider (sdk this)) ensName = Ok (Some resolver)
    /\ getText resolver recordKey = Ok (VString valueHex)
    /\ decodeAgentRegistryRecord valueHex = Ok decoded
    /\ getIdentityRegistry (sdk this) = Ok registry
    /\ getAddress registry = Ok registryAddress
    /\ ethers.getAddress_any registryAddress = Ok (address decoded)
    /\ agentId decoded = tokenId.
Proof.
  intros this.
  apply (verifyENSName_true_only_if Interop.buildFromPayload_erc7930
           parseAgentId_decimal this).
  vm_compute. reflexivity.
Defined.

(** X11. [verifyENSName] returns [true] for the value the encoder writes: when
    the resolver serves, under the key of the agent's chain id, the value
    encoded for the agent's token id (below [2^2040]) and for an address with
    the same checksum form as the one the registry lookup resolves to. *)
Theorem verifyENSName_accepts_encoded
    bfp parse this ensName agentIdText chainId tokenId recordKey resolver
    recorded normalized valueHex registry registryAddress :
  ensEndpoint this = Some ensName -> ensName <> "" ->
  RegistrationFile.agentId (registrationFile this) = Some agentIdText ->
  agentIdText <> "" ->
  parse agentIdText = Ok (chainId, tokenId) ->
  (0 <= tokenId < 2 ^ 2040)%Z ->
  buildAgentRegistryRecordKey bfp chainId "eip155" = Ok recordKey ->
  ethers.getAddress recorded = Ok normalized ->
  String.length normalized = 42%nat ->
  encodeAgentRegistryRecord recorded tokenId = Ok valueHex ->
  getResolver (web3Client_provider (sdk this)) ensName = Ok (Some resolver) ->
  getText resolver recordKey = Ok (VString valueHex) ->
  getIdentityRegistry (sdk this) = Ok registry ->
  getAddress registry = Ok (VString registryAddress) ->
  ethers.getAddress registryAddress = Ok normalized ->
  verifyENSName bfp parse this =
  ([GetResolver ensName; GetText recordKey; GetIdentityRegistry; RegistryGetAddress],
   Ok true).
Proof.
  intros Hens Hne Hid Hne' Hparse Hrange Hkey Hrec Hlen Henc Hres Htext Hreg Haddr Hnorm.
  destruct (encode_decode_record _ _ _ Hrec Hlen Hrange) as (v & Henc' & Hdec).
  rewrite Henc in Henc'. injection Henc' as <-.
  pose proof (built_key_lower_case _ _ _ _ Hkey) as Hlow.
  rewrite verifyENSName_cases. unfold verify_cases. rewrite Hens, Hid.
  cbn [absent default from_option id].
  destruct (String.eqb_spec ensName ""); [contradiction |].
  destruct (String.eqb_spec agentIdText ""); [contradiction |].
  cbn [orb]. rewrite Hparse, Hkey. unfold verify_after_key. rewrite Hens, Hlow.
  cbn [default from_option id]. rewrite Hres, Htext.
  unfold loaded. cbn [truthy decode_value].
  assert (Hnonempty : valueHex <> "").
  { intros ->. vm_compute in Hdec. discriminate. }
  destruct (String.eqb_spec valueHex ""); [contradiction |]. cbn [negb].
  rewrite Hdec, Hreg, Haddr. cbn [app]. f_equal.
  apply recordMatchesAgent_true_iff.
  cbn [with_chainReference version chainType chainReference address agentId
       Expected.chainId Expected.registryAddress Expected.agentId
       ethers.getAddress_any].
  auto.
Qed.

Lemma verifyENSName_accepts_encoded_witness :
  run_verify
    (test_agent (mock_provider (VString "0xd8dA6BF26964aF9D7eEd9e03E53415D37aA96045012a"))
       (mock_registry (VString "0xd8da6bf26964af9d7eed9e03e53415d37aa96045")))
  = ([GetResolver "test-agent.eth"; GetText "agent-registry:00010000010100";
      GetIdentityRegistry; RegistryGetAddress], Ok true).
Proof.
  apply (verifyENSName_accepts_encoded Interop.buildFromPayload_erc7930
           parseAgentId_decimal _ "test-agent.eth" "1:42" 1 42
           "agent-registry:00010000010100"
           {| getText := fun _ => Ok (VString "0xd8dA6BF26964aF9D7eEd9e03E53415D37aA96045012a") |}
           "0xD8DA6BF26964AF9D7EED9E03E53415D37AA96045"
           "0xd8dA6BF26964aF9D7eEd9e03E53415D37aA96045"
           "0xd8dA6BF26964aF9D7eEd9e03E53415D37aA96045012a"
           {| getAddress := Ok (VString "0xd8da6bf26964af9d7eed9e03e53415d37aa96045") |}
           "0xd8da6bf26964af9d7eed9e03e53415d37aa96045");
    first [discriminate | split; [lia | vm_compute; reflexivity]
          | vm_compute; reflexivity].
Defined.

(** X12. The calls of a run of [verifyENSName] are an initial part of:
    [getResolver] for the ENS name, [getText] for the key, [getIdentityRegistry],
    the registry's [getAddress]; none is made twice.  The run returns [true]
    only after all four; it throws only before the first, when the key
    builder throws, or after the last, when [ethers.getAddress] rejects the
    registry address. *)
Theorem verifyENSName_calls bfp parse this :
  let run := verifyENSName bfp parse this in
  let ensName := default "" (ensEndpoint this) in
  (calls run = []
   \/ calls run = [GetResolver ensName]
   \/ exists recordKey,
        calls run = [GetResolver ensName; GetText recordKey]
        \/ calls run = [GetResolver ensName; GetText recordKey; GetIdentityRegistry]
        \/ calls run = [GetResolver ensName; GetText recordKey; GetIdentityRegistry;
                        RegistryGetAddress])
  /\ (outcome run = Ok true -> length (calls run) = 4%nat)
  /\ (forall e, outcome run = Throw e ->
        (calls run = []
         /\ exists chainId tokenId,
              parse (default "" (RegistrationFile.agentId (registrationFile this)))
                = Ok (chainId, tokenId)
              /\ buildAgentRegistryRecordKey bfp chainId "eip155" = Throw e)
        \/ (length (calls run) = 4%nat
            /\ exists registry registryAddress,
                 getIdentityRegistry (sdk this) = Ok registry
                 /\ getAddress registry = Ok registryAddress
                 /\ ethers.getAddress_any registryAddress = Throw e)).
Proof.
  cbv zeta. rewrite verifyENSName_cases. unfold verify_cases.
  destruct (absent _ || absent _);
    [split; [auto | split; [discriminate | discriminate]] |].
  destruct (parse _) as [[chainId tokenId]|] eqn:Hparse;
    [|split; [auto | split; [discriminate | discriminate]]].
  destruct (buildAgentRegistryRecordKey bfp chainId "eip155") as [recordKey|e0] eqn:Hkey.
  2:{ split; [auto | split; [discriminate |]].
      intros e [= ->]. left. split; [reflexivity |]. eauto. }
  unfold verify_after_key.
  destruct (getResolver _ _) as [[resolver|]|];
    try (split; [auto | split; [discriminate | discriminate]]).
  destruct (getText resolver _) as [text|];
    [|split; [right; right; eauto | split; [discriminate | discriminate]]].
  destruct (loaded text chainId) as [record|];
    [|split; [right; right; eauto | split; [discriminate | discriminate]]].
  destruct (getIdentityRegistry (sdk this)) as [registry|] eqn:Hreg;
    [|split; [right; right; eauto | split; [discriminate | discriminate]]].
  destruct (getAddress registry) as [registryAddress|] eqn:Haddr;
    [|split; [right; right; eauto | split; [discriminate | discriminate]]].
  cbn [outcome snd calls fst app]. split; [right; right; eauto |].
  split; [reflexivity |]. intros e He. right. split; [reflexivity |].
  exists registry, registryAddress. repeat split; try assumption.
  now apply recordMatchesAgent_Throw in He.
Qed.

(** * The endpoints of an agent *)

(** ** Searching and filtering endpoints *)

Lemma find_app {A} (p : A -> bool) l l' :
  List.find p (l ++ l') =
  match List.find p l with
  | Some x => Some x
  | None => List.find p l'
  end.
Proof. induction l as [|x l IH]; cbn; [reflexivity |]. now destruct (p x). Qed.

Lemma find_without_same t eps :
  List.find (fun e => bool_decide (Full.type e = t)) (Full.without t eps) = None.
Proof.
  induction eps as [|ep eps IH]; cbn; [reflexivity |].
  destruct (bool_decide (Full.type ep = t)) eqn:E; cbn; [assumption |].
  now rewrite E.
Qed.

Lemma find_without_other t t' eps :
  t <> t' ->
  List.find (fun e => bool_decide (Full.type e = t)) (Full.without t' eps)
  = List.find (fun e => bool_decide (Full.type e = t)) eps.
Proof.
  intros Hne. induction eps as [|ep eps IH]; cbn; [reflexivity |].
  destruct (bool_decide_reflect (Full.type ep = t')) as [E'|E']; cbn.
  - rewrite bool_decide_eq_false_2 by congruence. assumption.
  - destruct (bool_decide (Full.type ep = t)); [reflexivity | assumption].
Qed.

Lemma without_app t l l' :
  Full.without t (l ++ l') = Full.without t l ++ Full.without t l'.
Proof. apply List.filter_app. Qed.

Lemma without_idem t l : Full.without t (Full.without t l) = Full.without t l.
Proof.
  unfold Full.without. induction l as [|ep l IH]; cbn; [reflexivity |].
  destruct (bool_decide (Full.type ep = t)) eqn:E; cbn; [assumption |].
  now rewrite E, IH.
Qed.

Lemma filter_without t l :
  List.filter (fun ep => bool_decide (Full.type ep = t)) (Full.without t l) = [].
Proof.
  induction l as [|ep l IH]; cbn; [reflexivity |].
  destruct (bool_decide (Full.type ep = t)) eqn:E; cbn; [assumption |].
  now rewrite E.
Qed.

(** ** [Agent.setENS] *)

(** X13. After [setENS(name, version)] the getter [ensEndpoint] returns [name];
    the registration file has exactly one ENS endpoint, the new one, placed
    last; the endpoints of the other types are kept, in their order, so the
    other getters return what they returned; [updatedAt] is the clock in
    whole seconds. *)
Theorem setENS_endpoints name version now this :
  let this' := Full.setENS name version now this in
  let eps := Full.endpoints (Full.registrationFile this) in
  let eps' := Full.endpoints (Full.registrationFile this') in
  let ensEndpoint :=
    {| Full.type := ENS; Full.value := name;
       Full.meta := Some {[ "version" := Full.Scalar (VString (default "1.0" version)) ]} |} in
  Full.ensEndpoint this' = Some name
  /\ eps' = Full.without ENS eps ++ [ensEndpoint]
  /\ List.filter (fun ep => bool_decide (Full.type ep = ENS)) eps' = [ensEndpoint]
  /\ Full.without ENS eps' = Full.without ENS eps
  /\ (forall t, t <> ENS -> Full.find_endpoint t this' = Full.find_endpoint t this)
  /\ Full.updatedAt (Full.registrationFile this') = (now / 1000)%Z.
Proof.
  cbv zeta.
  assert (Heps : Full.endpoints (Full.registrationFile (Full.setENS name version now this))
                 = Full.without ENS (Full.endpoints (Full.registrationFile this))
                   ++ [{| Full.type := ENS; Full.value := name;
                          Full.meta := Some {[ "version" :=
                            Full.Scalar (VString (default "1.0" version)) ]} |}]).
  { unfold Full.setENS. now destruct (bool_decide _). }
  unfold Full.ensEndpoint, Full.find_endpoint. rewrite Heps.
  repeat split.
  - now rewrite find_app, find_without_same.
  - now rewrite List.filter_app, filter_without.
  - rewrite without_app, without_idem. cbn. now rewrite app_nil_r.
  - intros t Ht. rewrite find_app, find_without_other by assumption.
    destruct (List.find _ _); [reflexivity |]. cbn.
    now rewrite bool_decide_eq_false_2 by congruence.
Qed.

Lemma setENS_registrationFile name version now this :
  Full.registrationFile (Full.setENS name version now this)
  = {| Full.agentId := Full.agentId (Full.registrationFile this);
       Full.endpoints :=
         Full.without ENS (Full.endpoints (Full.registrationFile this))
         ++ [{| Full.type := ENS; Full.value := name;
                Full.meta := Some {[ "version" :=
                  Full.Scalar (VString (default "1.0" version)) ]} |}];
       Full.walletAddress := Full.walletAddress (Full.registrationFile this);
       Full.walletChainId := Full.walletChainId (Full.registrationFile this);
       Full.updatedAt := (now / 1000)%Z |}.
Proof. unfold Full.setENS. now destruct (bool_decide _). Qed.

Lemma setENS_dirty name version now this :
  Full._dirtyMetadata (Full.setENS name version now this)
  = (if bool_decide (Some name ≠ Full._lastRegisteredEns this)
     then {[ "agentName" ]} else ∅) ∪ Full._dirtyMetadata this.
Proof.
  unfold Full.setENS. cbn.
  destruct (bool_decide _); cbn; [reflexivity |]. now rewrite (left_id_L ∅ (∪)).
Qed.

Lemma setENS_lastRegisteredEns name version now this :
  Full._lastRegisteredEns (Full.setENS name version now this)
  = Full._lastRegisteredEns this.
Proof. unfold Full.setENS. cbn. now destruct (bool_decide _). Qed.

(** X14. Of two calls of [setENS] the last one decides the registration file:
    the result is the one of the last call alone.  The dirty flags only
    grow: [agentName], once set by a name other than the registered one,
    stays set when the registered name is set again. *)
Theorem setENS_last_wins n1 v1 t1 n2 v2 t2 this :
  let once := Full.setENS n2 v2 t2 this in
  let twice := Full.setENS n2 v2 t2 (Full.setENS n1 v1 t1 this) in
  Full.registrationFile twice = Full.registrationFile once
  /\ Full._dirtyMetadata this ⊆ Full._dirtyMetadata once
  /\ Full._dirtyMetadata once ⊆ Full._dirtyMetadata twice
  /\ (Some n1 <> Full._lastRegisteredEns this ->
      "agentName" ∈ Full._dirtyMetadata twice).
Proof.
  cbv zeta. rewrite !setENS_registrationFile, !setENS_dirty,
    setENS_lastRegisteredEns.
  cbn [Full.agentId Full.endpoints Full.walletAddress Full.walletChainId].
  rewrite without_app, without_idem. cbn [Full.without List.filter Full.type].
  rewrite bool_decide_eq_true_2 by reflexivity. cbn [negb]. rewrite app_nil_r.
  split; [reflexivity |]. split; [apply union_subseteq_r |].
  split; [apply union_mono_l, union_subseteq_r |].
  intros Hne. rewrite (bool_decide_eq_true_2 (Some n1 ≠ _)) by assumption.
  apply elem_of_union_r, elem_of_union_l, elem_of_singleton. reflexivity.
Qed.

Lemma setENS_last_wins_witness :
  let this :=
    {| Full.sdk := {| web3Client_provider := mock_provider VNull;
                      getIdentityRegistry := mock_registry VNull |};
       Full.registrationFile :=
         {| Full.agentId := Some "1:42"; Full.endpoints := [];
            Full.walletAddress := None; Full.walletChainId := None;
            Full.updatedAt := 0 |};
       Full._dirtyMetadata := ∅;
       Full._lastRegisteredWallet := None;
       Full._lastRegisteredEns := Some "test-agent.eth" |} in
  "agentName" ∈ Full._dirtyMetadata
    (Full.setENS "test-agent.eth" None 2000 (Full.setENS "other.eth" None 1000 this)).
Proof.
  intros this.
  apply (proj2 (proj2 (proj2
    (setENS_last_wins "other.eth" None 1000 "test-agent.eth" None 2000 this)))).
  discriminate.
Defined.

Lemma setENS_endpoints_witness :
  let this :=
    Full.setMCP (fun _ => Ok None) "https://mcp.example" None None 1000
      (Full.createAgent
         {| web3Client_provider := mock_provider VNull;
            getIdentityRegistry := mock_registry VNull |} 0) in
  Full.find_endpoint MCP (Full.setENS "test-agent.eth" None 2000 this)
  = Full.find_endpoint MCP this.
Proof.
  intros this.
  apply (proj1 (proj2 (proj2 (proj2 (proj2
    (setENS_endpoints "test-agent.eth" None 2000 this)))))).
  discriminate.
Defined.

(** ** [Agent.setMCP] and [Agent.setA2A] *)

(** X15. [setMCP] never throws: a crawler that throws, or resolves to null, or
    is not asked ([autoFetch] false), gives an endpoint without capabilities.
    After the call the getters read back the address and what the crawler
    reported, a capability the crawler left out being [undefined]; there is
    one MCP endpoint, placed last, and the endpoints of the other types are
    kept in their order. *)
Theorem setMCP_capabilities fetch endpoint version autoFetch now this :
  let this' := Full.setMCP fetch endpoint version autoFetch now this in
  let eps := Full.endpoints (Full.registrationFile this) in
  let eps' := Full.endpoints (Full.registrationFile this') in
  let reported :=
    if default true autoFetch then
      match fetch endpoint with
      | Ok (Some capabilities) => Some capabilities
      | _ => None
      end
    else None in
  Full.mcpEndpoint this' = Some endpoint
  /\ Full.mcpTools this' = Full.Strings <$> (reported ≫= Full.Crawler.mcpTools)
  /\ Full.mcpPrompts this' = Full.Strings <$> (reported ≫= Full.Crawler.mcpPrompts)
  /\ Full.mcpResources this' = Full.Strings <$> (reported ≫= Full.Crawler.mcpResources)
  /\ length (List.filter (fun ep => bool_decide (Full.type ep = MCP)) eps') = 1%nat
  /\ Full.without MCP eps' = Full.without MCP eps
  /\ Full.ensEndpoint this' = Full.ensEndpoint this
  /\ Full.a2aEndpoint this' = Full.a2aEndpoint this.
Proof.
  cbv zeta.
  unfold Full.mcpEndpoint, Full.mcpTools, Full.mcpPrompts, Full.mcpResources,
    Full.ensEndpoint, Full.a2aEndpoint, Full.find_endpoint, Full.setMCP.
  cbn [Full.endpoints Full.registrationFile Full.touch Full.set_endpoints].
  rewrite !find_app, find_without_same, !find_without_other by discriminate.
  rewrite List.filter_app, filter_without, without_app, without_idem.
  cbn [List.find Full.type bool_decide decide_rel].
  repeat split.
  - destruct (default true autoFetch); [|reflexivity].
    destruct (fetch endpoint) as [[[[tools|] [prompts|] [resources|]]|]|];
      reflexivity.
  - destruct (default true autoFetch); [|reflexivity].
    destruct (fetch endpoint) as [[[[tools|] [prompts|] [resources|]]|]|];
      reflexivity.
  - destruct (default true autoFetch); [|reflexivity].
    destruct (fetch endpoint) as [[[[tools|] [prompts|] [resources|]]|]|];
      reflexivity.
  - cbn. now rewrite app_nil_r.
  - now destruct (List.find _ _).
  - now destruct (List.find _ _).
Qed.

(** X16. [setA2A] never throws either; the getters read back the agent card and
    the skills the crawler reported, if it was asked and answered; there is
    one A2A endpoint, placed last, and the other endpoints are kept. *)
Theorem setA2A_capabilities fetch agentcard version autoFetch now this :
  let this' := Full.setA2A fetch agentcard version autoFetch now this in
  let eps := Full.endpoints (Full.registrationFile this) in
  let eps' := Full.endpoints (Full.registrationFile this') in
  let reported :=
    if default true autoFetch then
      match fetch agentcard with
      | Ok (Some capabilities) => Full.Crawler.a2aSkills capabilities
      | _ => None
      end
    else None in
  Full.a2aEndpoint this' = Some agentcard
  /\ Full.a2aSkills this' = Full.Strings <$> reported
  /\ length (List.filter (fun ep => bool_decide (Full.type ep = A2A)) eps') = 1%nat
  /\ Full.without A2A eps' = Full.without A2A eps
  /\ Full.ensEndpoint this' = Full.ensEndpoint this
  /\ Full.mcpEndpoint this' = Full.mcpEndpoint this
  /\ Full.mcpTools this' = Full.mcpTools this.
Proof.
  cbv zeta.
  unfold Full.mcpEndpoint, Full.mcpTools, Full.a2aSkills,
    Full.ensEndpoint, Full.a2aEndpoint, Full.find_endpoint, Full.setA2A.
  cbn [Full.endpoints Full.registrationFile Full.touch Full.set_endpoints].
  rewrite !find_app, find_without_same, !find_without_other by discriminate.
  rewrite List.filter_app, filter_without, without_app, without_idem.
  cbn [List.find Full.type bool_decide decide_rel].
  repeat split.
  - destruct (default true autoFetch); [|reflexivity].
    destruct (fetch agentcard) as [[[[skills|]]|]|]; reflexivity.
  - cbn. now rewrite app_nil_r.
  - now destruct (List.find _ _).
  - now destruct (List.find _ _).
  - now destruct (List.find _ _).
Qed.

(** ** The OASF endpoint *)

Lemma find_list_find t eps :
  List.find (fun e => bool_decide (Full.type e = t)) eps
  = snd <$> list_find (fun ep => Full.type ep = t) eps.
Proof.
  induction eps as [|ep eps IH]; [reflexivity |]. cbn.
  destruct (decide (Full.type ep = t)) as [E|E].
  - now rewrite bool_decide_eq_true_2.
  - rewrite bool_decide_eq_false_2, IH by assumption.
    now destruct (list_find _ eps) as [[i x]|].
Qed.

Lemma find_endpoint_oasf this :
  Full.find_endpoint OASF this = snd <$> Full.find_oasf this.
Proof. apply find_list_find. Qed.

Lemma list_find_alter {A} (P : A -> Prop) `{!forall x, Decision (P x)}
    (f : A -> A) l i x :
  list_find P l = Some (i, x) -> P (f x) ->
  list_find P (alter f i l) = Some (i, f x).
Proof.
  intros Hfind HP. apply list_find_Some in Hfind as (Hi & _ & Hbefore).
  apply list_find_Some. split; [|split; [assumption |]].
  - now rewrite list_lookup_alter_eq, Hi.
  - intros j y Hj Hlt. rewrite list_lookup_alter_ne in Hj by lia. eauto.
Qed.

Lemma find_oasf_created this :
  Full.find_oasf this = None ->
  list_find (fun ep => Full.type ep = OASF)
    (Full.endpoints (Full.registrationFile this) ++ [Full.oasf_default])
  = Some (length (Full.endpoints (Full.registrationFile this)), Full.oasf_default).
Proof.
  intros Hnone. unfold Full.find_oasf in Hnone.
  rewrite list_find_app_r by assumption. cbn. now rewrite decide_True.
Qed.

(** X17. [_getOrCreateOasfEndpoint] returns the first OASF endpoint of the
    registration file it leaves.  With an OASF endpoint present the file is
    not changed; otherwise the default endpoint is put last and returned.
    A second call returns the same endpoint and changes nothing. *)
Theorem getOrCreateOasfEndpoint_first this :
  let i := fst (Full._getOrCreateOasfEndpoint this) in
  let this' := snd (Full._getOrCreateOasfEndpoint this) in
  (exists ep, Full.find_oasf this' = Some (i, ep) /\ (i, ep) = oasf_place this)
  /\ (is_Some (Full.find_oasf this) -> this' = this)
  /\ (Full.find_oasf this = None ->
      Full.endpoints (Full.registrationFile this')
      = Full.endpoints (Full.registrationFile this) ++ [Full.oasf_default])
  /\ Full._getOrCreateOasfEndpoint this' = (i, this').
Proof.
  cbv zeta. unfold oasf_place.
  destruct (Full.find_oasf this) as [[i ep]|] eqn:Hfind.
  - assert (Hget : Full._getOrCreateOasfEndpoint this = (i, this))
      by (unfold Full._getOrCreateOasfEndpoint; now rewrite Hfind).
    rewrite Hget. cbn [fst snd default from_option id].
    split; [exists ep; split; [assumption | reflexivity] |].
    split; [reflexivity |]. split; [discriminate | exact Hget].
  - pose proof (find_oasf_created _ Hfind) as Hcreated.
    assert (Hget : Full._getOrCreateOasfEndpoint this
                   = (length (Full.endpoints (Full.registrationFile this)),
                      Full.set_endpoints
                        (Full.endpoints (Full.registrationFile this)
                         ++ [Full.oasf_default]) this))
      by (unfold Full._getOrCreateOasfEndpoint; now rewrite Hfind).
    rewrite Hget. cbn [fst snd default from_option id].
    split; [exists Full.oasf_default; split; [exact Hcreated | reflexivity] |].
    split; [intros [? [=]] |]. split; [reflexivity |].
    unfold Full._getOrCreateOasfEndpoint, Full.find_oasf.
    cbn [Full.endpoints Full.registrationFile Full.set_endpoints].
    now rewrite Hcreated.
Qed.

Lemma getOrCreateOasfEndpoint_first_witness :
  let this :=
    Full.createAgent
      {| web3Client_provider := mock_provider VNull;
         getIdentityRegistry := mock_registry VNull |} 0 in
  Full.endpoints (Full.registrationFile (snd (Full._getOrCreateOasfEndpoint this)))
  = Full.endpoints (Full.registrationFile this) ++ [Full.oasf_default].
Proof.
  intros this.
  apply (proj1 (proj2 (proj2 (getOrCreateOasfEndpoint_first this)))).
  reflexivity.
Defined.

Lemma getOrCreate_place this :
  Full.find_oasf (snd (Full._getOrCreateOasfEndpoint this))
  = Some (oasf_place this)
  /\ fst (Full._getOrCreateOasfEndpoint this) = fst (oasf_place this).
Proof.
  unfold Full._getOrCreateOasfEndpoint, oasf_place.
  destruct (Full.find_oasf this) as [[i ep]|] eqn:Hfind; cbn [fst snd default from_option].
  - auto.
  - split; [|reflexivity]. exact (find_oasf_created _ Hfind).
Qed.

Lemma pushed_nil slug : pushed slug [] = [slug].
Proof. reflexivity. Qed.

Lemma pushed_idem slug l : pushed slug (pushed slug l) = pushed slug l.
Proof.
  unfold pushed at 2 3. destruct (bool_decide_reflect (slug ∈ l)) as [Hin|Hin].
  - unfold pushed. now rewrite bool_decide_eq_true_2.
  - unfold pushed. rewrite bool_decide_eq_true_2; [reflexivity |].
    apply elem_of_app. right. now apply list_elem_of_singleton.
Qed.

Lemma array_of_insert key l (m : gmap string Full.meta_value) :
  Full.array_of key (<[key := Full.Strings l]> m) = Some l.
Proof. unfold Full.array_of. now rewrite lookup_insert_eq. Qed.

Lemma array_of_insert_ne key key' v (m : gmap string Full.meta_value) :
  key <> key' -> Full.array_of key' (<[key := v]> m) = Full.array_of key' m.
Proof. intros Hne. unfold Full.array_of. now rewrite lookup_insert_ne. Qed.

Lemma array_of_empty key : Full.array_of key ∅ = None.
Proof. unfold Full.array_of. now rewrite lookup_empty. Qed.

Lemma array_of_Some key (m : gmap string Full.meta_value) l :
  Full.array_of key m = Some l -> m !! key = Some (Full.Strings l).
Proof.
  unfold Full.array_of. destruct (m !! key) as [[l'|v]|]; congruence.
Qed.

(** What [add_slug] leaves in the endpoint it writes through. *)
Lemma add_slug_spec key slug ep :
  Full.add_slug key slug ep
  = Full.set_meta
      (<[key := Full.Strings
                   (pushed slug (default [] (Full.meta ep ≫= Full.array_of key)))]>
         (default ∅ (Full.meta ep))) ep.
Proof.
  unfold Full.add_slug. destruct ep as [t v [m|]];
    cbn [Full.meta Full.set_meta default from_option id mbind option_bind].
  - destruct (Full.array_of key m) as [l|] eqn:Harr;
      cbn [Full.meta Full.set_meta default from_option id].
    + rewrite Harr. cbn [default from_option id]. unfold pushed.
      destruct (bool_decide (slug ∈ l)); [|reflexivity].
      now rewrite insert_id by now apply array_of_Some.
    + rewrite array_of_insert. cbn [default from_option id].
      rewrite bool_decide_eq_false_2 by apply not_elem_of_nil.
      now rewrite insert_insert_eq.
  - rewrite array_of_empty. cbn [Full.meta Full.set_meta default from_option id].
    rewrite array_of_insert. cbn [default from_option id].
    rewrite bool_decide_eq_false_2 by apply not_elem_of_nil.
    now rewrite insert_insert_eq.
Qed.

Lemma add_slug_type key slug ep :
  Full.type (Full.add_slug key slug ep) = Full.type ep.
Proof. now rewrite add_slug_spec. Qed.

Lemma add_slug_value key slug ep :
  Full.value (Full.add_slug key slug ep) = Full.value ep.
Proof. now rewrite add_slug_spec. Qed.

Lemma add_slug_idem key slug ep :
  Full.add_slug key slug (Full.add_slug key slug ep) = Full.add_slug key slug ep.
Proof.
  rewrite (add_slug_spec key slug ep). rewrite add_slug_spec.
  unfold Full.set_meta. cbn. rewrite array_of_insert. cbn.
  now rewrite pushed_idem, insert_insert_eq.
Qed.

Lemma add_slug_commute key key' slug slug' ep :
  key <> key' ->
  Full.add_slug key' slug' (Full.add_slug key slug ep)
  = Full.add_slug key slug (Full.add_slug key' slug' ep).
Proof.
  intros Hne. rewrite (add_slug_spec key slug ep), (add_slug_spec key' slug' ep).
  rewrite !add_slug_spec. unfold Full.set_meta. cbn.
  rewrite !array_of_insert_ne by congruence.
  rewrite insert_insert_ne by congruence.
  now destruct (Full.meta ep).
Qed.

(** [add_to_oasf], written out. *)
Lemma add_to_oasf_eq key slug now this :
  Full.add_to_oasf key slug now this
  = Full.touch now
      (Full.set_endpoints
         (alter (Full.add_slug key slug) (fst (oasf_place this))
            (Full.endpoints
               (Full.registrationFile (snd (Full._getOrCreateOasfEndpoint this)))))
         this).
Proof.
  unfold Full.add_to_oasf, Full._getOrCreateOasfEndpoint, oasf_place.
  now destruct (Full.find_oasf this) as [[i ep]|].
Qed.

Lemma add_to_oasf_find key slug now this :
  Full.find_oasf (Full.add_to_oasf key slug now this)
  = Some (fst (oasf_place this), Full.add_slug key slug (snd (oasf_place this))).
Proof.
  rewrite add_to_oasf_eq. unfold Full.find_oasf at 1.
  cbn [Full.endpoints Full.registrationFile Full.touch Full.set_endpoints].
  destruct (getOrCreate_place this) as [Hfind _]. unfold Full.find_oasf in Hfind.
  destruct (oasf_place this) as [i ep]. cbn [fst snd].
  apply list_find_alter; [assumption |].
  rewrite add_slug_type. apply list_find_Some in Hfind. tauto.
Qed.

Lemma add_to_oasf_twice key key' slug slug' now now' this :
  Full.add_to_oasf key' slug' now' (Full.add_to_oasf key slug now this)
  = Full.touch now'
      (Full.set_endpoints
         (alter (Full.add_slug key' slug' ∘ Full.add_slug key slug)
            (fst (oasf_place this))
            (Full.endpoints
               (Full.registrationFile (snd (Full._getOrCreateOasfEndpoint this)))))
         this).
Proof.
  rewrite (add_to_oasf_eq key' slug' now' (Full.add_to_oasf key slug now this)).
  unfold oasf_place at 1, Full._getOrCreateOasfEndpoint at 1.
  rewrite add_to_oasf_find. cbn [default from_option id fst snd].
  rewrite add_to_oasf_eq.
  cbn [Full.endpoints Full.registrationFile Full.touch Full.set_endpoints].
  now rewrite list_alter_alter_eq.
Qed.

Lemma add_to_oasf_idem key slug now this :
  Full.add_to_oasf key slug now (Full.add_to_oasf key slug now this)
  = Full.add_to_oasf key slug now this.
Proof.
  rewrite add_to_oasf_twice, add_to_oasf_eq.
  now rewrite (list_alter_ext (Full.add_slug key slug ∘ Full.add_slug key slug)
                 (Full.add_slug key slug) _ _ _
                 (fun x _ => add_slug_idem key slug x) eq_refl).
Qed.

(** X18. [addSkill] is idempotent: adding a slug a second time, at the same
    clock reading, leaves the agent as the first call left it. *)
Theorem addSkill_idempotent validateSkill slug validateOASF now this this' :
  Full.addSkill validateSkill slug validateOASF now this = Ok this' ->
  Full.addSkill validateSkill slug validateOASF now this' = Ok this'.
Proof.
  unfold Full.addSkill. destruct (_ && _); [discriminate |]. intros [= <-].
  now rewrite add_to_oasf_idem.
Qed.

Lemma addSkill_idempotent_witness :
  let this :=
    Full.createAgent
      {| web3Client_provider := mock_provider VNull;
         getIdentityRegistry := mock_registry VNull |} 0 in
  let this' := Full.add_to_oasf "skills" "nlp/summarization" 1000 this in
  Full.addSkill (fun _ => true) "nlp/summarization" (Some true) 1000 this' = Ok this'.
Proof.
  intros this this'.
  apply (addSkill_idempotent (fun _ => true) "nlp/summarization" (Some true) 1000 this).
  reflexivity.
Defined.

Lemma oasf_slugs_find key this :
  oasf_slugs key this
  = ((snd <$> Full.find_oasf this) ≫= Full.meta) ≫= Full.array_of key.
Proof.
  unfold oasf_slugs. rewrite find_endpoint_oasf.
  destruct (Full.find_oasf this) as [[i ep]|]; [|reflexivity]. cbn.
  now destruct (Full.meta ep).
Qed.

(** The slugs of the endpoint [_getOrCreateOasfEndpoint] returns: those of
    the OASF endpoint of the agent, none when the endpoint is created. *)
Lemma place_slugs key this :
  key = "skills" \/ key = "domains" ->
  default [] (Full.meta (snd (oasf_place this)) ≫= Full.array_of key)
  = default [] (oasf_slugs key this).
Proof.
  intros Hkey. rewrite oasf_slugs_find. unfold oasf_place.
  destruct (Full.find_oasf this) as [[i ep]|]; [reflexivity |].
  destruct Hkey as [-> | ->]; reflexivity.
Qed.

Lemma oasf_slugs_added key slug now this :
  oasf_slugs key (Full.add_to_oasf key slug now this)
  = Some (pushed slug
            (default [] (Full.meta (snd (oasf_place this)) ≫= Full.array_of key))).
Proof.
  rewrite oasf_slugs_find, add_to_oasf_find, add_slug_spec. cbn.
  apply array_of_insert.
Qed.

Lemma oasf_slugs_added_ne key key' slug now this :
  key <> key' ->
  oasf_slugs key' (Full.add_to_oasf key slug now this)
  = Full.array_of key' (default ∅ (Full.meta (snd (oasf_place this)))).
Proof.
  intros Hne. rewrite oasf_slugs_find, add_to_oasf_find, add_slug_spec. cbn.
  now apply array_of_insert_ne.
Qed.

Lemma NoDup_pushed slug (l : list string) : NoDup l -> NoDup (pushed slug l).
Proof.
  intros Hl. unfold pushed. destruct (bool_decide_reflect (slug ∈ l)); [assumption |].
  apply NoDup_app. split; [assumption |]. split; [|apply NoDup_singleton].
  intros x Hx Hx'. apply list_elem_of_singleton in Hx'. congruence.
Qed.

(** X19. After [addSkill(slug)] the OASF endpoint has a [skills] array: the one
    it had (the empty one if it had none, or if the endpoint was created by
    the call), with [slug] pushed unless it was there; a list without
    duplicates stays without.  The [domains] are the ones of before, the
    empty array for a created endpoint.  With [validateOASF] the call
    returns only for a slug the validator accepts. *)
Theorem addSkill_slugs validateSkill slug validateOASF now this this' :
  Full.addSkill validateSkill slug validateOASF now this = Ok this' ->
  let before := default [] (oasf_slugs "skills" this) in
  (exists after,
     oasf_slugs "skills" this' = Some after
     /\ (slug ∈ before -> after = before)
     /\ (slug ∉ before -> after = before ++ [slug])
     /\ (NoDup before -> NoDup after))
  /\ oasf_slugs "domains" this'
     = (if Full.find_oasf this is None then Some [] else oasf_slugs "domains" this)
  /\ (validateOASF = Some true -> validateSkill slug = true)
  /\ length (Full.endpoints (Full.registrationFile this'))
     = (length (Full.endpoints (Full.registrationFile this))
        + (if Full.find_oasf this is None then 1 else 0))%nat.
Proof.
  unfold Full.addSkill.
  destruct (default false validateOASF && negb (validateSkill slug)) eqn:Hv;
    [discriminate |].
  intros [= <-]. cbv zeta. repeat split.
  - exists (pushed slug (default [] (oasf_slugs "skills" this))).
    rewrite oasf_slugs_added, place_slugs by auto.
    split; [reflexivity |]. unfold pushed. repeat split.
    + intros Hin. now rewrite bool_decide_eq_true_2.
    + intros Hin. now rewrite bool_decide_eq_false_2.
    + apply NoDup_pushed.
  - rewrite oasf_slugs_added_ne by discriminate.
    rewrite oasf_slugs_find. unfold oasf_place.
    destruct (Full.find_oasf this) as [[i ep]|]; [|reflexivity]. cbn.
    destruct (Full.meta ep); [reflexivity |]. apply array_of_empty.
  - intros ->. cbn in Hv. now destruct (validateSkill slug).
  - rewrite add_to_oasf_eq.
    cbn [Full.endpoints Full.registrationFile Full.touch Full.set_endpoints].
    rewrite length_alter. unfold Full._getOrCreateOasfEndpoint.
    destruct (Full.find_oasf this) as [[i ep]|]; cbn; [lia |].
    now rewrite length_app.
Qed.

Lemma addSkill_slugs_witness :
  let this :=
    Full.createAgent
      {| web3Client_provider := mock_provider VNull;
         getIdentityRegistry := mock_registry VNull |} 0 in
  let this' := Full.add_to_oasf "skills" "nlp/summarization" 1000 this in
  oasf_slugs "domains" this' = Some []
  /\ length (Full.endpoints (Full.registrationFile this')) = 1%nat.
Proof.
  intros this this'.
  pose proof (addSkill_slugs (fun _ => true) "nlp/summarization" (Some true) 1000
                this this' eq_refl) as (_ & Hdomains & _ & Hlength).
  split; [exact Hdomains | exact Hlength].
Defined.

(** X20. [addSkill] and [addDomain] write to different arrays of the same
    endpoint.  For an agent without OASF endpoint, or whose OASF endpoint
    has both arrays, so that neither call creates a property of an existing
    [meta], the two orders of calling them, at one clock reading, leave the
    same agent. *)
Theorem addSkill_addDomain_commute
    validateSkill validateDomain skill domain v1 v2 now this this1 this2 :
  oasf_arrays_present this ->
  Full.addSkill validateSkill skill v1 now this = Ok this1 ->
  Full.addDomain validateDomain domain v2 now this = Ok this2 ->
  Full.addDomain validateDomain domain v2 now this1
  = Full.addSkill validateSkill skill v1 now this2.
Proof.
  intros _. unfold Full.addSkill, Full.addDomain.
  destruct (_ && negb (validateSkill skill)); [discriminate |].
  destruct (_ && negb (validateDomain domain)); [discriminate |].
  intros [= <-] [= <-]. f_equal.
  rewrite !add_to_oasf_twice.
  now rewrite (list_alter_ext
                 (Full.add_slug "domains" domain ∘ Full.add_slug "skills" skill)
                 (Full.add_slug "skills" skill ∘ Full.add_slug "domains" domain) _ _ _
                 (fun x _ => add_slug_commute "skills" "domains" skill domain x
                               ltac:(discriminate)) eq_refl).
Qed.

Lemma addSkill_addDomain_commute_witness :
  let this :=
    Full.add_to_oasf "skills" "nlp/translation" 500
      (Full.createAgent
         {| web3Client_provider := mock_provider VNull;
            getIdentityRegistry := mock_registry VNull |} 0) in
  Full.addDomain (fun _ => true) "finance" None 1000
    (Full.add_to_oasf "skills" "nlp/summarization" 1000 this)
  = Full.addSkill (fun _ => true) "nlp/summarization" None 1000
      (Full.add_to_oasf "domains" "finance" 1000 this).
Proof.
  intros this.
  apply (addSkill_addDomain_commute (fun _ => true) (fun _ => true)
           "nlp/summarization" "finance" None None 1000 this).
  - split; [exists ["nlp/translation"] | exists []]; reflexivity.
  - reflexivity.
  - reflexivity.
Defined.

(** ** Removing a slug *)

Lemma list_find_first (slug : string) l1 l2 :
  slug ∉ l1 ->
  list_find (fun s => s = slug) (l1 ++ slug :: l2) = Some (length l1, slug).
Proof.
  intros Hnot. rewrite list_find_app_r.
  - cbn. rewrite decide_True by reflexivity. cbn. reflexivity.
  - apply list_find_None, Forall_forall. intros x Hx ->. contradiction.
Qed.

Lemma splice_first_middle slug l1 l2 :
  slug ∉ l1 -> Full.splice_first slug (l1 ++ slug :: l2) = l1 ++ l2.
Proof.
  intros Hnot. unfold Full.splice_first. rewrite list_find_first by assumption.
  apply delete_middle.
Qed.

Lemma splice_first_absent slug l :
  slug ∉ l -> Full.splice_first slug l = l.
Proof.
  intros Hnot. unfold Full.splice_first.
  destruct (list_find _ l) as [[i x]|] eqn:Hfind; [|reflexivity].
  apply list_find_Some in Hfind as (Hi & -> & _).
  apply list_elem_of_lookup_2 in Hi. contradiction.
Qed.

Lemma splice_first_pushed slug l :
  slug ∉ l -> Full.splice_first slug (pushed slug l) = l.
Proof.
  intros Hnot. unfold pushed. rewrite bool_decide_eq_false_2 by assumption.
  rewrite splice_first_middle by assumption. apply app_nil_r.
Qed.

(** [remove_from_oasf] on an endpoint with an array under [key]. *)
Lemma remove_from_oasf_eq key slug now this i ep m slugs :
  Full.find_oasf this = Some (i, ep) -> Full.meta ep = Some m ->
  Full.array_of key m = Some slugs ->
  Full.remove_from_oasf key slug now this
  = Full.touch now
      (Full.set_endpoints
         (<[i := Full.set_meta (<[key := Full.Strings (Full.splice_first slug slugs)]> m) ep]>
            (Full.endpoints (Full.registrationFile this))) this).
Proof.
  intros Hfind Hmeta Harr. unfold Full.remove_from_oasf.
  now rewrite Hfind, Hmeta, Harr.
Qed.

Lemma set_meta_id ep m : Full.meta ep = Some m -> Full.set_meta m ep = ep.
Proof. destruct ep as [t v o]. cbn. now intros ->. Qed.

Lemma alter_const_compose {A} (x : A) (f : A -> A) (i : nat) (l : list A) :
  alter ((fun _ => x) ∘ f) i l = <[i := x]> l.
Proof. now rewrite list_insert_alter. Qed.

(** X21. [removeSkill] does nothing at all, not even to [updatedAt], when the
    agent has no OASF endpoint or the endpoint has no [meta]; with both it
    sets [updatedAt], whether or not the slug was there, and changes no
    endpoint when the slug was not there. *)
Theorem removeSkill_without_effect slug now this :
  (Full.find_oasf this = None -> Full.removeSkill slug now this = this)
  /\ (forall i ep, Full.find_oasf this = Some (i, ep) -> Full.meta ep = None ->
      Full.removeSkill slug now this = this)
  /\ (forall i ep m, Full.find_oasf this = Some (i, ep) -> Full.meta ep = Some m ->
      Full.updatedAt (Full.registrationFile (Full.removeSkill slug now this))
      = (now / 1000)%Z
      /\ (slug ∉ default [] (Full.array_of "skills" m) ->
          Full.removeSkill slug now this = Full.touch now this)).
Proof.
  unfold Full.removeSkill, Full.remove_from_oasf. split; [|split].
  - now intros ->.
  - intros i ep -> ->. reflexivity.
  - intros i ep m Hfind Hmeta. rewrite Hfind, Hmeta. split; [reflexivity |].
    destruct (Full.array_of "skills" m) as [slugs|] eqn:Harr; [|reflexivity].
    cbn [default from_option id]. intros Hnot.
    rewrite splice_first_absent by assumption.
    rewrite insert_id by now apply array_of_Some.
    rewrite set_meta_id by assumption.
    apply list_find_Some in Hfind as (Hi & _).
    now rewrite list_insert_id by assumption.
Qed.

Lemma removeSkill_without_effect_witness :
  let this :=
    Full.setENS "test-agent.eth" None 1000
      (Full.createAgent
         {| web3Client_provider := mock_provider VNull;
            getIdentityRegistry := mock_registry VNull |} 0) in
  Full.removeSkill "nlp/summarization" 2000 this = this.
Proof.
  intros this.
  apply (proj1 (removeSkill_without_effect "nlp/summarization" 2000 this)).
  reflexivity.
Defined.

(** X22. [removeSkill] removes the first occurrence of the slug and no other:
    from skills [l1 ++ slug :: l2] with [slug] not in [l1] it leaves
    [l1 ++ l2], so a slug listed twice is still listed; from skills without
    duplicates it removes the slug.  The domains are not changed. *)
Theorem removeSkill_first_occurrence slug now this l1 l2 :
  oasf_slugs "skills" this = Some (l1 ++ slug :: l2) -> slug ∉ l1 ->
  oasf_slugs "skills" (Full.removeSkill slug now this) = Some (l1 ++ l2)
  /\ (slug ∈ l2 -> slug ∈ l1 ++ l2)
  /\ (NoDup (l1 ++ slug :: l2) -> slug ∉ l1 ++ l2)
  /\ oasf_slugs "domains" (Full.removeSkill slug now this) = oasf_slugs "domains" this.
Proof.
  intros Hslugs Hnot. rewrite oasf_slugs_find in Hslugs.
  destruct (Full.find_oasf this) as [[i ep]|] eqn:Hfind; [|discriminate].
  cbn in Hslugs. destruct (Full.meta ep) as [m|] eqn:Hmeta; [|discriminate].
  cbn in Hslugs. unfold Full.removeSkill.
  rewrite (remove_from_oasf_eq _ _ _ _ _ _ _ _ Hfind Hmeta Hslugs).
  rewrite splice_first_middle by assumption.
  assert (Hfind' :
    Full.find_oasf
      (Full.touch now
         (Full.set_endpoints
            (<[i := Full.set_meta (<["skills" := Full.Strings (l1 ++ l2)]> m) ep]>
               (Full.endpoints (Full.registrationFile this))) this))
    = Some (i, Full.set_meta (<["skills" := Full.Strings (l1 ++ l2)]> m) ep)).
  { unfold Full.find_oasf in Hfind |- *.
    cbn [Full.endpoints Full.registrationFile Full.touch Full.set_endpoints].
    rewrite list_insert_alter.
    apply (list_find_alter _
             (fun _ => Full.set_meta (<["skills" := Full.Strings (l1 ++ l2)]> m) ep)
             _ _ _ Hfind).
    apply list_find_Some in Hfind. cbn. tauto. }
  repeat split.
  - rewrite oasf_slugs_find, Hfind'. cbn. apply array_of_insert.
  - intros Hin. apply elem_of_app. now right.
  - intros Hdup Hin. apply NoDup_app in Hdup as (_ & Hdisj & Hdup).
    apply NoDup_cons in Hdup as [Hnot2 _].
    apply elem_of_app in Hin as [Hin|Hin]; contradiction.
  - rewrite !oasf_slugs_find, Hfind', Hfind. cbn. rewrite Hmeta. cbn.
    now apply array_of_insert_ne.
Qed.

Lemma removeSkill_first_occurrence_witness :
  let this :=
    Full.add_to_oasf "skills" "nlp/translation" 1000
      (Full.add_to_oasf "skills" "nlp/summarization" 1000
         (Full.createAgent
            {| web3Client_provider := mock_provider VNull;
               getIdentityRegistry := mock_registry VNull |} 0)) in
  oasf_slugs "skills" (Full.removeSkill "nlp/summarization" 2000 this)
  = Some ([] ++ ["nlp/translation"]).
Proof.
  intros this.
  apply (removeSkill_first_occurrence "nlp/summarization" 2000 this []
           ["nlp/translation"]).
  - reflexivity.
  - apply not_elem_of_nil.
Defined.

Lemma remove_after_add key slug t1 t2 this :
  key = "skills" \/ key = "domains" ->
  slug ∉ default [] (oasf_slugs key this) ->
  oasf_slugs key (Full.remove_from_oasf key slug t2 (Full.add_to_oasf key slug t1 this))
  = Some (default [] (oasf_slugs key this))
  /\ (is_Some (oasf_slugs key this) ->
      Full.remove_from_oasf key slug t2 (Full.add_to_oasf key slug t1 this)
      = Full.touch t2 this)
  /\ (Full.find_oasf this = None ->
      Full.remove_from_oasf key slug t2 (Full.add_to_oasf key slug t1 this)
      = Full.touch t2
          (Full.set_endpoints
             (Full.endpoints (Full.registrationFile this) ++ [Full.oasf_default])
             this)).
Proof.
  intros Hkey Hnot.
  pose proof (add_to_oasf_find key slug t1 this) as Hfind1.
  rewrite add_slug_spec in Hfind1.
  rewrite place_slugs in Hfind1 by assumption.
  set (before := default [] (oasf_slugs key this)) in *.
  set (m0 := default ∅ (Full.meta (snd (oasf_place this)))) in *.
  rewrite (remove_from_oasf_eq key slug t2 _ _ _ _ (pushed slug before) Hfind1
             eq_refl (array_of_insert _ _ _)).
  rewrite splice_first_pushed by assumption. rewrite insert_insert_eq.
  rewrite add_to_oasf_eq.
  cbn [Full.endpoints Full.registrationFile Full.touch Full.set_endpoints].
  rewrite list_insert_alter, list_alter_alter_eq.
  destruct (getOrCreate_place this) as [Hplace _].
  split; [|split].
  - rewrite oasf_slugs_find. unfold Full.find_oasf.
    cbn [Full.endpoints Full.registrationFile Full.touch Full.set_endpoints].
    unfold Full.find_oasf in Hplace. destruct (oasf_place this) as [i ep] eqn:Hp.
    cbn [fst snd] in *.
    erewrite list_find_alter; [| exact Hplace |].
    + cbn. apply array_of_insert.
    + cbn. apply list_find_Some in Hplace. tauto.
  - intros [l Hl]. rewrite oasf_slugs_find in Hl.
    unfold oasf_place in *. unfold Full._getOrCreateOasfEndpoint.
    destruct (Full.find_oasf this) as [[i ep]|] eqn:Hfind; [|discriminate].
    cbn in Hl. destruct (Full.meta ep) as [m|] eqn:Hmeta; [|discriminate].
    cbn in Hl. cbn [default from_option id fst snd] in *.
    subst m0. rewrite Hmeta. cbn [default from_option id].
    assert (Hbefore : before = l).
    { subst before. rewrite oasf_slugs_find, Hfind. cbn. rewrite Hmeta. cbn.
      now rewrite Hl. }
    rewrite Hbefore, insert_id by now apply array_of_Some.
    change (Full.set_meta m (Full.set_meta ?x ep)) with (Full.set_meta m ep).
    rewrite set_meta_id by assumption.
    rewrite alter_const_compose.
    apply list_find_Some in Hfind as (Hi & _).
    now rewrite list_insert_id by assumption.
  - intros Hnone. unfold oasf_place in *. unfold Full._getOrCreateOasfEndpoint.
    subst before m0. rewrite oasf_slugs_find. rewrite Hnone in *.
    cbn [default from_option id fst snd fmap option_fmap option_map mbind option_bind
         Full.endpoints Full.registrationFile Full.set_endpoints].
    rewrite alter_const_compose.
    rewrite list_insert_id; [reflexivity |].
    rewrite lookup_app_r by lia. rewrite Nat.sub_diag.
    destruct Hkey as [-> | ->]; reflexivity.
Qed.

(** X23. [removeSkill] after [addSkill], for a slug that was not listed: the
    skills are those of before.  When the endpoint had a [skills] array the
    agent is the one of before, [updatedAt] apart; when the endpoint was
    created by [addSkill] it stays, in the state it was created in. *)
Theorem removeSkill_addSkill validateSkill slug validateOASF t1 t2 this this1 :
  Full.addSkill validateSkill slug validateOASF t1 this = Ok this1 ->
  slug ∉ default [] (oasf_slugs "skills" this) ->
  oasf_slugs "skills" (Full.removeSkill slug t2 this1)
  = Some (default [] (oasf_slugs "skills" this))
  /\ (is_Some (oasf_slugs "skills" this) ->
      Full.removeSkill slug t2 this1 = Full.touch t2 this)
  /\ (Full.find_oasf this = None ->
      Full.removeSkill slug t2 this1
      = Full.touch t2
          (Full.set_endpoints
             (Full.endpoints (Full.registrationFile this) ++ [Full.oasf_default])
             this)).
Proof.
  unfold Full.addSkill. destruct (_ && _); [discriminate |]. intros [= <-] Hnot.
  apply remove_after_add; auto.
Qed.

Lemma removeSkill_addSkill_witness :
  let this :=
    Full.add_to_oasf "skills" "nlp/translation" 1000
      (Full.createAgent
         {| web3Client_provider := mock_provider VNull;
            getIdentityRegistry := mock_registry VNull |} 0) in
  Full.removeSkill "nlp/summarization" 3000
    (Full.add_to_oasf "skills" "nlp/summarization" 2000 this)
  = Full.touch 3000 this.
Proof.
  intros this.
  assert (Hnot : "nlp/summarization" ∉ default [] (oasf_slugs "skills" this)).
  { change ("nlp/summarization" ∉ ["nlp/translation"]).
    intros H%list_elem_of_singleton. discriminate. }
  apply (proj1 (proj2 (removeSkill_addSkill (fun _ => true) "nlp/summarization"
                         None 2000 3000 this _ eq_refl Hnot))).
  exists ["nlp/translation"]. reflexivity.
Defined.

(** X24. The same for the domains: [removeDomain] after [addDomain], for a
    domain that was not listed, gives back the domains of before, and the
    agent of before ([updatedAt] apart) when the endpoint had a [domains]
    array; it leaves the skills as they were. *)
Theorem removeDomain_addDomain validateDomain slug validateOASF t1 t2 this this1 :
  Full.addDomain validateDomain slug validateOASF t1 this = Ok this1 ->
  slug ∉ default [] (oasf_slugs "domains" this) ->
  oasf_slugs "domains" (Full.removeDomain slug t2 this1)
  = Some (default [] (oasf_slugs "domains" this))
  /\ (is_Some (oasf_slugs "domains" this) ->
      Full.removeDomain slug t2 this1 = Full.touch t2 this)
  /\ (is_Some (Full.find_oasf this) ->
      oasf_slugs "skills" (Full.removeDomain slug t2 this1) = oasf_slugs "skills" this).
Proof.
  unfold Full.addDomain. destruct (_ && _); [discriminate |]. intros [= <-] Hnot.
  destruct (remove_after_add "domains" slug t1 t2 this (or_intror eq_refl) Hnot)
    as (Hslugs & Hsame & _).
  split; [exact Hslugs |]. split; [exact Hsame |].
  intros [[i ep] Hfind].
  pose proof (add_to_oasf_find "domains" slug t1 this) as Hfind1.
  rewrite add_slug_spec in Hfind1. rewrite place_slugs in Hfind1 by auto.
  unfold oasf_place in Hfind1. rewrite Hfind in Hfind1.
  cbn [default from_option id fst snd] in Hfind1.
  unfold Full.removeDomain.
  rewrite (remove_from_oasf_eq "domains" slug t2 _ _ _ _ _ Hfind1 eq_refl
             (array_of_insert _ _ _)).
  rewrite !oasf_slugs_find, Hfind.
  unfold Full.find_oasf.
  cbn [Full.endpoints Full.registrationFile Full.touch Full.set_endpoints].
  rewrite list_insert_alter.
  unfold Full.find_oasf in Hfind1.
  erewrite list_find_alter; [| exact Hfind1 |].
  - cbn. rewrite !array_of_insert_ne by discriminate.
    destruct (Full.meta ep); [reflexivity |]. apply array_of_empty.
  - cbn. apply list_find_Some in Hfind. tauto.
Qed.

Lemma removeDomain_addDomain_witness :
  let this :=
    Full.add_to_oasf "skills" "nlp/translation" 1000
      (Full.createAgent
         {| web3Client_provider := mock_provider VNull;
            getIdentityRegistry := mock_registry VNull |} 0) in
  Full.removeDomain "finance" 3000 (Full.add_to_oasf "domains" "finance" 2000 this)
  = Full.touch 3000 this.
Proof.
  intros this.
  assert (Hnot : "finance" ∉ default [] (oasf_slugs "domains" this)).
  { change ("finance" ∉ @nil string). apply not_elem_of_nil. }
  apply (proj1 (proj2 (removeDomain_addDomain (fun _ => true) "finance"
                         None 2000 3000 this _ eq_refl Hnot))).
  exists []. reflexivity.
Defined.

(** * Setters and verification *)

Lemma ensEndpoint_verified_part this :
  ensEndpoint (verified_part this) = Full.ensEndpoint this.
Proof.
  unfold ensEndpoint, Full.ensEndpoint, Full.find_endpoint, verified_part.
  cbn [registrationFile RegistrationFile.endpoints].
  induction (Full.endpoints (Full.registrationFile this)) as [|ep eps IH];
    [reflexivity |].
  cbn [List.map List.find type]. now destruct (bool_decide (Full.type ep = ENS)).
Qed.

(** [verifyENSName] reads the SDK, the agent id and the ENS endpoint. *)
Lemma verifyENSName_reads bfp parse a b :
  sdk a = sdk b ->
  RegistrationFile.agentId (registrationFile a)
  = RegistrationFile.agentId (registrationFile b) ->
  ensEndpoint a = ensEndpoint b ->
  verifyENSName bfp parse a = verifyENSName bfp parse b.
Proof. intros Hsdk Hid Hens. unfold verifyENSName. now rewrite Hsdk, Hid, Hens. Qed.

Lemma find_alter_other t (f : Full.Endpoint -> Full.Endpoint) i eps ep :
  eps !! i = Some ep -> Full.type ep <> t -> Full.type (f ep) <> t ->
  List.find (fun e => bool_decide (Full.type e = t)) (alter f i eps)
  = List.find (fun e => bool_decide (Full.type e = t)) eps.
Proof.
  intros Hi Ht Hf. revert i Hi.
  induction eps as [|x eps IH]; intros [|i] Hi; try discriminate.
  - injection Hi as ->. cbn.
    now rewrite !bool_decide_eq_false_2 by assumption.
  - cbn. destruct (bool_decide (Full.type x = t)); [reflexivity |].
    now apply IH.
Qed.

Lemma add_to_oasf_find_other t key slug now this :
  t <> OASF ->
  Full.find_endpoint t (Full.add_to_oasf key slug now this) = Full.find_endpoint t this.
Proof.
  intros Hne. unfold Full.find_endpoint. rewrite add_to_oasf_eq.
  cbn [Full.endpoints Full.registrationFile Full.touch Full.set_endpoints].
  destruct (getOrCreate_place this) as [Hfind _]. unfold Full.find_oasf in Hfind.
  destruct (oasf_place this) as [i ep]. apply list_find_Some in Hfind as (Hi & Ht & _).
  cbn [fst].
  rewrite (find_alter_other t _ _ _ _ Hi) by (rewrite ?add_slug_type; congruence).
  unfold Full._getOrCreateOasfEndpoint.
  destruct (Full.find_oasf this) as [[j x]|]; [reflexivity |].
  cbn [snd Full.endpoints Full.registrationFile Full.set_endpoints].
  rewrite find_app. destruct (List.find _ _); [reflexivity |]. cbn.
  now rewrite bool_decide_eq_false_2 by congruence.
Qed.

Lemma remove_from_oasf_find_other t key slug now this :
  t <> OASF ->
  Full.find_endpoint t (Full.remove_from_oasf key slug now this)
  = Full.find_endpoint t this.
Proof.
  intros Hne. unfold Full.remove_from_oasf.
  destruct (Full.find_oasf this) as [[i ep]|] eqn:Hfind; [|reflexivity].
  destruct (Full.meta ep) as [m|]; [|reflexivity].
  destruct (Full.array_of key m) as [slugs|]; [|reflexivity].
  unfold Full.find_endpoint.
  cbn [Full.endpoints Full.registrationFile Full.touch Full.set_endpoints].
  apply list_find_Some in Hfind as (Hi & Ht & _).
  rewrite list_insert_alter.
  apply (find_alter_other t _ _ _ _ Hi); cbn; congruence.
Qed.

(** What a setter leaves of the part [verifyENSName] reads. *)
Lemma perform_verified_part c now this this' :
  perform c now this = Ok this' ->
  Full.sdk this' = Full.sdk this
  /\ Full.agentId (Full.registrationFile this')
     = Full.agentId (Full.registrationFile this)
  /\ (is_SetENS c = false -> Full.ensEndpoint this' = Full.ensEndpoint this).
Proof.
  destruct c; cbn [perform is_SetENS].
  - intros [= <-]. repeat split. intros _.
    unfold Full.ensEndpoint, Full.find_endpoint, Full.setMCP.
    cbn [Full.endpoints Full.registrationFile Full.touch Full.set_endpoints].
    rewrite find_app, find_without_other by discriminate.
    now destruct (List.find _ _).
  - intros [= <-]. repeat split. intros _.
    unfold Full.ensEndpoint, Full.find_endpoint, Full.setA2A.
    cbn [Full.endpoints Full.registrationFile Full.touch Full.set_endpoints].
    rewrite find_app, find_without_other by discriminate.
    now destruct (List.find _ _).
  - intros [= <-]. unfold Full.setENS. destruct (bool_decide _); repeat split;
      discriminate.
  - unfold Full.addSkill. destruct (_ && _); [discriminate |]. intros [= <-].
    split; [now rewrite add_to_oasf_eq |]. split; [now rewrite add_to_oasf_eq |].
    intros _. unfold Full.ensEndpoint.
    now rewrite add_to_oasf_find_other by discriminate.
  - intros [= <-]. unfold Full.removeSkill.
    split; [|split].
    + unfold Full.remove_from_oasf.
      destruct (Full.find_oasf this) as [[i ep]|]; [|reflexivity].
      destruct (Full.meta ep); [|reflexivity].
      now destruct (Full.array_of _ _).
    + unfold Full.remove_from_oasf.
      destruct (Full.find_oasf this) as [[i ep]|]; [|reflexivity].
      destruct (Full.meta ep); [|reflexivity].
      now destruct (Full.array_of _ _).
    + intros _. unfold Full.ensEndpoint.
      now rewrite remove_from_oasf_find_other by discriminate.
  - unfold Full.addDomain. destruct (_ && _); [discriminate |]. intros [= <-].
    split; [now rewrite add_to_oasf_eq |]. split; [now rewrite add_to_oasf_eq |].
    intros _. unfold Full.ensEndpoint.
    now rewrite add_to_oasf_find_other by discriminate.
  - intros [= <-]. unfold Full.removeDomain.
    split; [|split].
    + unfold Full.remove_from_oasf.
      destruct (Full.find_oasf this) as [[i ep]|]; [|reflexivity].
      destruct (Full.meta ep); [|reflexivity].
      now destruct (Full.array_of _ _).
    + unfold Full.remove_from_oasf.
      destruct (Full.find_oasf this) as [[i ep]|]; [|reflexivity].
      destruct (Full.meta ep); [|reflexivity].
      now destruct (Full.array_of _ _).
    + intros _. unfold Full.ensEndpoint.
      now rewrite remove_from_oasf_find_other by discriminate.
  - intros [= <-]. unfold Full.setAgentWallet. cbn.
    now destruct (bool_decide _).
Qed.

(** X25. A setter other than [setENS] does not change what [verifyENSName]
    does: the run after the call, calls and outcome, is the run before it. *)
Theorem verifyENSName_after_setter bfp parse c now this this' :
  perform c now this = Ok this' -> is_SetENS c = false ->
  verifyENSName bfp parse (verified_part this')
  = verifyENSName bfp parse (verified_part this).
Proof.
  intros Hperform Hc.
  destruct (perform_verified_part _ _ _ _ Hperform) as (Hsdk & Hid & Hens).
  apply verifyENSName_reads.
  - exact Hsdk.
  - exact Hid.
  - rewrite !ensEndpoint_verified_part. auto.
Qed.

Lemma verifyENSName_after_setter_witness :
  let this :=
    Full.setENS "test-agent.eth" None 1000
      (Full.createAgent
         {| web3Client_provider := mock_provider VNull;
            getIdentityRegistry := mock_registry VNull |} 0) in
  verifyENSName Interop.buildFromPayload_erc7930 parseAgentId_decimal
    (verified_part (Full.setMCP (fun _ => Throw (JsError "unreachable"))
                      "https://mcp.example" None None 2000 this))
  = verifyENSName Interop.buildFromPayload_erc7930 parseAgentId_decimal
      (verified_part this).
Proof.
  intros this.
  apply (verifyENSName_after_setter _ _
           (SetMCP (fun _ => Throw (JsError "unreachable")) "https://mcp.example"
              None None) 2000 this);
    reflexivity.
Defined.

Lemma perform_all_agentId cs : forall this this',
  perform_all cs this = Ok this' ->
  Full.agentId (Full.registrationFile this')
  = Full.agentId (Full.registrationFile this).
Proof.
  induction cs as [|[c now] cs IH]; intros this this'; cbn [perform_all].
  - now intros [= <-].
  - destruct (perform c now this) as [this1|] eqn:Hperform; [|discriminate].
    intros Hrest. rewrite (IH _ _ Hrest).
    now destruct (perform_verified_part _ _ _ _ Hperform) as (_ & Hid & _).
Qed.

(** X26. An agent made by [SDK.createAgent] has no agent id, and no setter
    gives it one: after any calls of the setters, [verifyENSName] returns
    [false] and makes no call to the provider or the registry. *)
Theorem verifyENSName_unregistered bfp parse sdk t0 cs this :
  perform_all cs (Full.createAgent sdk t0) = Ok this ->
  verifyENSName bfp parse (verified_part this) = ([], Ok false).
Proof.
  intros Hcalls. apply perform_all_agentId in Hcalls. cbn in Hcalls.
  unfold verifyENSName, verified_part.
  cbn [registrationFile RegistrationFile.agentId]. rewrite Hcalls.
  cbn [absent]. now rewrite orb_true_r.
Qed.

Lemma verifyENSName_unregistered_witness :
  let sdk :=
    {| web3Client_provider :=
         mock_provider (VString "0xd8dA6BF26964aF9D7eEd9e03E53415D37aA96045012a");
       getIdentityRegistry :=
         mock_registry (VString "0xd8da6bf26964af9d7eed9e03e53415d37aa96045") |} in
  verifyENSName Interop.buildFromPayload_erc7930 parseAgentId_decimal
    (verified_part
       (Full.add_to_oasf "skills" "nlp/summarization" 2000
          (Full.setENS "test-agent.eth" None 1000 (Full.createAgent sdk 0))))
  = ([], Ok false).
Proof.
  intros sdk.
  apply (verifyENSName_unregistered _ _ sdk 0
           [(SetENS "test-agent.eth" None, 1000%Z);
            (AddSkill (fun _ => true) "nlp/summarization" None, 2000%Z)]).
  reflexivity.
Defined.

(** X27. After [setENS(name)], [verifyENSName] is about [name]: the run is the
    one of an agent whose only endpoint is the ENS name, whatever ENS
    endpoints the agent had; with the empty name it returns [false] and
    makes no call. *)
Theorem verifyENSName_after_setENS bfp parse name version now this :
  let this' := Full.setENS name version now this in
  verifyENSName bfp parse (verified_part this')
  = verifyENSName bfp parse
      {| sdk := Full.sdk this;
         registrationFile :=
           {| RegistrationFile.agentId := Full.agentId (Full.registrationFile this);
              RegistrationFile.endpoints := [ {| type := ENS; value := name |} ] |} |}
  /\ (name = "" -> verifyENSName bfp parse (verified_part this') = ([], Ok false))
  /\ forall n, In (GetResolver n) (calls (verifyENSName bfp parse (verified_part this'))) ->
       n = name.
Proof.
  cbv zeta.
  assert (Hens : ensEndpoint (verified_part (Full.setENS name version now this))
                 = Some name).
  { rewrite ensEndpoint_verified_part.
    unfold Full.ensEndpoint, Full.find_endpoint.
    rewrite setENS_registrationFile. cbn [Full.endpoints].
    now rewrite find_app, find_without_same. }
  assert (Hid : RegistrationFile.agentId
                  (registrationFile (verified_part (Full.setENS name version now this)))
                = Full.agentId (Full.registrationFile this)).
  { unfold verified_part. cbn [registrationFile RegistrationFile.agentId].
    now rewrite setENS_registrationFile. }
  assert (Hsdk : sdk (verified_part (Full.setENS name version now this)) = Full.sdk this).
  { unfold Full.setENS. cbn. now destruct (bool_decide _). }
  split; [|split].
  - apply verifyENSName_reads; [exact Hsdk | exact Hid | exact Hens].
  - intros ->. unfold verifyENSName. now rewrite Hens.
  - intros n. rewrite verifyENSName_cases. unfold verify_cases. rewrite Hens.
    destruct (absent _ || absent _); [intros [] |].
    destruct (parse _) as [[chainId tokenId]|]; [|intros []].
    destruct (buildAgentRegistryRecordKey _ _ _) as [recordKey|]; [|intros []].
    unfold verify_after_key. rewrite Hens. cbn [default from_option id].
    destruct (getResolver _ _) as [[resolver|]|]; cbn.
    + destruct (getText _ _); [|cbn; intuition congruence].
      destruct (loaded _ _); [|cbn; intuition congruence].
      destruct (getIdentityRegistry _); [|cbn; intuition congruence].
      destruct (getAddress _); cbn; intuition congruence.
    + intuition congruence.
    + intuition congruence.
Qed.

Lemma verifyENSName_after_setENS_witness :
  let this :=
    Full.setENS "old.eth" None 1000
      (Full.createAgent
         {| web3Client_provider := mock_provider VNull;
            getIdentityRegistry := mock_registry VNull |} 0) in
  verifyENSName Interop.buildFromPayload_erc7930 parseAgentId_decimal
    (verified_part (Full.setENS "" None 2000 this)) = ([], Ok false).
Proof.
  intros this.
  apply (proj1 (proj2 (verifyENSName_after_setENS Interop.buildFromPayload_erc7930
                         parseAgentId_decimal "" None 2000 this))).
  reflexivity.
Defined.

(** * The identity registry contract of the SDK *)

(** X28. [getIdentityRegistry] makes the contract once.  A call that returns a
    contract leaves it cached: every later call returns that contract and
    does not call [getContract], whatever [getContract] would answer then.
    A call that throws leaves the SDK as it was.  No call asks
    [getContract] more than once, and only for the IDENTITY address. *)
Theorem getIdentityRegistry_cached getContract getContract' this :
  let run := Sdk.getIdentityRegistry getContract this in
  let asked := fst (fst run) in
  let returned := snd (fst run) in
  let this' := snd run in
  (forall contract, returned = Ok contract ->
     Sdk._identityRegistry this' = Some contract
     /\ Sdk.getIdentityRegistry getContract' this' = ([], Ok contract, this'))
  /\ (forall e, returned = Throw e -> this' = this)
  /\ (asked = []
      \/ Sdk._identityRegistry this = None
         /\ exists address, Sdk._registries this !! "IDENTITY" = Some address
                            /\ address <> "" /\ asked = [address])
  /\ Sdk._chainId this' = Sdk._chainId this
  /\ Sdk._registries this' = Sdk._registries this.
Proof.
  cbv zeta.
  destruct (Sdk._identityRegistry this) as [cached|] eqn:Hcache.
  - assert (Hrun : forall g, Sdk.getIdentityRegistry g this = ([], Ok cached, this))
      by (intros g; unfold Sdk.getIdentityRegistry; now rewrite Hcache).
    rewrite Hrun. cbn [fst snd].
    split; [intros c [= <-]; auto |]. split; [discriminate |]. auto.
  - destruct (Sdk._registries this !! "IDENTITY") as [address|] eqn:Haddr.
    + destruct (String.eqb_spec address "") as [->|Hne].
      * assert (Hrun : exists e, Sdk.getIdentityRegistry getContract this
                                 = ([], Throw e, this))
          by (unfold Sdk.getIdentityRegistry; rewrite Hcache, Haddr; cbn; eauto).
        destruct Hrun as [e ->]. cbn [fst snd].
        split; [discriminate |]. auto.
      * assert (Hrun : Sdk.getIdentityRegistry getContract this
                       = match getContract address with
                         | Ok contract =>
                             ([address], Ok contract,
                              {| Sdk._chainId := Sdk._chainId this;
                                 Sdk._registries := Sdk._registries this;
                                 Sdk._identityRegistry := Some contract |})
                         | Throw e => ([address], Throw e, this)
                         end).
        { unfold Sdk.getIdentityRegistry. rewrite Hcache, Haddr.
          cbn [absent default from_option id].
          now destruct (String.eqb_spec address ""). }
        rewrite Hrun.
        destruct (getContract address) as [contract|e]; cbn [fst snd].
        -- split; [intros c [= <-]; split; reflexivity |].
           split; [discriminate |].
           split; [right; split; [reflexivity |]; exists address; auto |].
           split; reflexivity.
        -- split; [discriminate |]. split; [reflexivity |].
           split; [right; split; [reflexivity |]; exists address; auto |].
           split; reflexivity.
    + assert (Hrun : exists e, Sdk.getIdentityRegistry getContract this
                               = ([], Throw e, this))
        by (unfold Sdk.getIdentityRegistry; rewrite Hcache, Haddr; cbn; eauto).
      destruct Hrun as [e ->]. cbn [fst snd].
      split; [discriminate |]. auto.
Qed.

Lemma getIdentityRegistry_cached_witness :
  let registry := {| getAddress := Ok (VString "0xd8da6bf26964af9d7eed9e03e53415d37aa96045") |} in
  let this :=
    Sdk.constructor {[ 1%Z := {[ "IDENTITY" := "0xd8da6bf26964af9d7eed9e03e53415d37aa96045" ]} ]}
      1 None in
  let this' := snd (Sdk.getIdentityRegistry (fun _ => Ok registry) this) in
  Sdk._identityRegistry this' = Some registry
  /\ Sdk.getIdentityRegistry (fun _ => Throw (JsError "not asked")) this'
     = ([], Ok registry, this').
Proof.
  intros registry this this'.
  exact (proj1 (getIdentityRegistry_cached (fun _ => Ok registry)
                  (fun _ => Throw (JsError "not asked")) this) registry eq_refl).
Defined.

(** X29. Without a cached contract and without an IDENTITY address for the
    chain (none, or the empty one), [getIdentityRegistry] throws, does not
    call [getContract] and leaves the SDK as it was; for a chain id that is a
    safe integer the message names the chain by its decimal digits.  An
    address given in the overrides of the constructor for the chain is the
    one used, in preference to the default one. *)
Theorem getIdentityRegistry_address getContract DEFAULT_REGISTRIES chainId overrides :
  let this := Sdk.constructor DEFAULT_REGISTRIES chainId overrides in
  let configured key :=
    match (default ∅ (default ∅ overrides !! chainId) : gmap string string) !! key with
    | Some address => Some address
    | None => (default ∅ (DEFAULT_REGISTRIES !! chainId) : gmap string string) !! key
    end in
  Sdk._registries this !! "IDENTITY" = configured "IDENTITY"
  /\ (absent (configured "IDENTITY") = true ->
      exists e,
        Sdk.getIdentityRegistry getContract this = ([], Throw e, this)
        /\ ((Z.abs chainId < 2 ^ 53)%Z ->
            e = JsError ("No identity registry address for chain "
                         +:+ Sdk.number_text chainId)))
  /\ (forall address, configured "IDENTITY" = Some address -> address <> "" ->
      fst (fst (Sdk.getIdentityRegistry getContract this)) = [address]
      /\ snd (fst (Sdk.getIdentityRegistry getContract this)) = getContract address).
Proof.
  cbv zeta.
  assert (Hreg : Sdk._registries (Sdk.constructor DEFAULT_REGISTRIES chainId overrides)
                   !! "IDENTITY"
                 = match (default ∅ (default ∅ overrides !! chainId)
                            : gmap string string) !! "IDENTITY" with
                   | Some address => Some address
                   | None => (default ∅ (DEFAULT_REGISTRIES !! chainId)
                                : gmap string string) !! "IDENTITY"
                   end).
  { unfold Sdk.constructor. cbn [Sdk._registries].
    rewrite lookup_union. now destruct (_ !! "IDENTITY"), (_ !! "IDENTITY"). }
  split; [exact Hreg |].
  unfold Sdk.getIdentityRegistry. rewrite Hreg.
  cbn [Sdk._identityRegistry Sdk.constructor]. split.
  - intros ->. eexists. split; [reflexivity |]. intros _. reflexivity.
  - intros address -> Hne. cbn [absent default from_option id].
    destruct (String.eqb_spec address ""); [contradiction |].
    now destruct (getContract address).
Qed.

Lemma getIdentityRegistry_address_witness :
  let registry := {| getAddress := Ok (VString "0xd8da6bf26964af9d7eed9e03e53415d37aa96045") |} in
  let this :=
    Sdk.constructor {[ 1%Z := {[ "IDENTITY" := "0x1111111111111111111111111111111111111111" ]} ]}
      1 (Some {[ 1%Z := {[ "IDENTITY" := "0xd8da6bf26964af9d7eed9e03e53415d37aa96045" ]} ]}) in
  let unconfigured := Sdk.constructor ∅ 11155111 None in
  (fst (fst (Sdk.getIdentityRegistry (fun _ => Ok registry) this))
   = ["0xd8da6bf26964af9d7eed9e03e53415d37aa96045"]
   /\ snd (fst (Sdk.getIdentityRegistry (fun _ => Ok registry) this)) = Ok registry)
  /\ Sdk.getIdentityRegistry (fun _ => Ok registry) unconfigured
     = ([], Throw (JsError "No identity registry address for chain 11155111"),
        unconfigured).
Proof.
  intros registry this unconfigured. split.
  - apply (proj2 (proj2 (getIdentityRegistry_address (fun _ => Ok registry)
                           {[ 1%Z := {[ "IDENTITY" := "0x1111111111111111111111111111111111111111" ]} ]}
                           1 (Some {[ 1%Z := {[ "IDENTITY" := "0xd8da6bf26964af9d7eed9e03e53415d37aa96045" ]} ]})))).
    + reflexivity.
    + discriminate.
  - pose proof (proj1 (proj2 (getIdentityRegistry_address (fun _ => Ok registry)
                                ∅ 11155111 None))) as Hthrows.
    destruct (Hthrows ltac:(vm_compute; reflexivity)) as (e & Hrun & Hmessage).
    fold unconfigured in Hrun. rewrite Hrun.
    rewrite (Hmessage ltac:(vm_compute; reflexivity)). reflexivity.
Defined.

(** * [Agent.transfer] *)

(** X30. [transfer] sends at most one transaction, and sends it only after all
    its checks: the agent has an id that parses, the client has a signer,
    the lower-cased new owner is an address for the client and is not the
    text of the zero address, its checksum form differs from the current
    owner in more than letter case, and the SDK has an identity registry.
    The transaction is [transferFrom] from the signer to the checksum form,
    for the token id of the agent id; the result reports these. *)
Theorem transfer_checks parse web3Client this newOwner :
  let run := transfer parse web3Client this newOwner in
  (fst run = [] /\ exists e, snd run = Throw e)
  \/ exists agentId chainId tokenId currentOwner to registry,
       RegistrationFile.agentId (registrationFile this) = Some agentId
       /\ agentId <> ""
       /\ parse agentId = Ok (chainId, tokenId)
       /\ web3_address web3Client = Some currentOwner
       /\ currentOwner <> ""
       /\ isAddress web3Client (toLowerCase newOwner) = true
       /\ toLowerCase newOwner <> zero_address
       /\ toChecksumAddress web3Client (toLowerCase newOwner) = Ok to
       /\ toLowerCase to <> toLowerCase currentOwner
       /\ getIdentityRegistry (sdk this) = Ok registry
       /\ fst run = [TransferFrom registry currentOwner to tokenId]
       /\ (forall result, snd run = Ok result ->
             transactContract web3Client (TransferFrom registry currentOwner to tokenId)
             = Ok (txHash result)
             /\ transfer_from result = currentOwner
             /\ transfer_to result = to
             /\ transfer_agentId result = agentId)
       /\ (forall e, snd run = Throw e ->
             transactContract web3Client (TransferFrom registry currentOwner to tokenId)
             = Throw e).
Proof.
  cbv zeta. unfold transfer.
  destruct (RegistrationFile.agentId (registrationFile this)) as [agentId|];
    cbn [absent]; [|left; eauto].
  destruct (String.eqb_spec agentId ""); [left; eauto |].
  cbn [default from_option id].
  destruct (parse agentId) as [[chainId tokenId]|] eqn:Hparse; [|left; eauto].
  destruct (web3_address web3Client) as [currentOwner|]; cbn [absent]; [|left; eauto].
  destruct (String.eqb_spec currentOwner ""); [left; eauto |].
  cbn [default from_option id].
  destruct (isAddress web3Client (toLowerCase newOwner)) eqn:His; cbn [negb];
    [|left; eauto].
  destruct (String.eqb_spec (toLowerCase newOwner) zero_address); [left; eauto |].
  destruct (toChecksumAddress web3Client (toLowerCase newOwner)) as [to|] eqn:Hto;
    [|left; eauto].
  destruct (String.eqb_spec (toLowerCase to) (toLowerCase currentOwner));
    [left; eauto |].
  destruct (getIdentityRegistry (sdk this)) as [registry|] eqn:Hreg; [|left; eauto].
  right. exists agentId, chainId, tokenId, currentOwner, to, registry.
  cbn [fst snd].
  do 11 (split; [first [assumption | reflexivity] |]).
  destruct (transactContract web3Client _) as [hash|e0]; split.
  - now intros result [= <-].
  - discriminate.
  - discriminate.
  - now intros e [= <-].
Qed.

Lemma transfer_checks_witness :
  let web3Client :=
    {| web3_address := Some "0xd8dA6BF26964aF9D7eEd9e03E53415D37aA96045";
       isAddress := fun _ => true;
       toChecksumAddress := ethers.getAddress;
       transactContract := fun _ => Ok "0xabc" |} in
  let this := test_agent (mock_provider VNull) (mock_registry VNull) in
  fst (transfer parseAgentId_decimal web3Client this
         "0xD8DA6BF26964AF9D7EED9E03E53415D37AA96045") = [].
Proof.
  intros web3Client this.
  destruct (transfer_checks parseAgentId_decimal web3Client this
              "0xD8DA6BF26964AF9D7EED9E03E53415D37AA96045")
    as [[Hsent _] | (a & c & t & o & to & r & _ & _ & _ & Ho & _ & _ & _ & Hto & Hne & _)].
  - exact Hsent.
  - exfalso. injection Ho as <-. vm_compute in Hto. injection Hto as <-.
    apply Hne. vm_compute. reflexivity.
Defined.
